(** * Critical CSS generation for Craft CMS + Vite: the pipeline of
    [src/generate.mjs] and the command that runs it

    A shallow embedding of [fetchHtml], [getBuiltCssInfo] and
    [generateCriticalCss], of the command of
    [bin/critical-css-craftcms.mjs] with the defaults of
    [src/defaults.mjs], and of the parts of the JavaScript standard
    library they rest on (string search and replacement, regular
    expression matching, [trim], [Number.prototype.toFixed], property
    access on parsed JSON), followed by the properties the specification
    states about them and by further properties of the code.

    Conventions.
    - A JavaScript string is the list of its UTF-16 code units ([jsstring]).
    - The outside world (network, file system, the Beasties engine) is a
      [Host]: a state type with one transition per primitive.  The program
      is written in a state-and-exception monad over it and every call of
      a primitive is also appended to a trace, so that "no page is
      fetched" or "no file is written" are statements about the trace.
    - A thrown value is an [Error] whose [message] is a string, which is
      what [fetch], [fs/promises] and the code itself raise.
    - Calls of [console.log], [console.warn] and [console.error] have no
      influence on the result and are left out. *)

From Stdlib Require Import String Ascii DecimalString PrimFloat.
From Stdlib Require Import NArith ZArith Bool Arith Lia List.
From Stdlib Require Import DecimalN.
Import ListNotations.

Set Implicit Arguments.

(* ================================================================== *)
(** * JavaScript strings *)
(* ================================================================== *)

(** A string value: a finite sequence of 16-bit code units. *)
Definition jsstring := list N.

(** The code units of an ASCII literal. *)
Definition js (s : string) : jsstring :=
  map N_of_ascii (list_ascii_of_string s).

Definition unit_eqb (a b : N) : bool := N.eqb a b.

Fixpoint str_eqb (a b : jsstring) : bool :=
  match a, b with
  | [], [] => true
  | x :: a', y :: b' => unit_eqb x y && str_eqb a' b'
  | _, _ => false
  end.

(** [startsWith p s]: [s] begins with the code units of [p]. *)
Fixpoint startsWith (p s : jsstring) : bool :=
  match p, s with
  | [], _ => true
  | x :: p', y :: s' => unit_eqb x y && startsWith p' s'
  | _ :: _, [] => false
  end.

(** [String.prototype.endsWith]. *)
Definition endsWith (suffix s : jsstring) : bool :=
  startsWith (rev suffix) (rev s).

(** The leftmost position of [s] at which [here] succeeds: the text
    before that position and what [here] returned there. *)
Fixpoint search {A} (here : jsstring -> option A) (s : jsstring)
  : option (jsstring * A) :=
  match here s with
  | Some a => Some ([], a)
  | None =>
      match s with
      | [] => None
      | u :: s' =>
          match search here s' with
          | Some (before, a) => Some (u :: before, a)
          | None => None
          end
      end
  end.

(** What follows [p] when [s] begins with [p]. *)
Definition strip_prefix (p s : jsstring) : option jsstring :=
  if startsWith p s then Some (skipn (length p) s) else None.

(** [StringIndexOf(s, p, 0)], returned as the text before the first
    occurrence of [p] and the text after it. *)
Definition indexOf (p s : jsstring) : option (jsstring * jsstring) :=
  search (strip_prefix p) s.

(** [String.prototype.includes]. *)
Definition includes (p s : jsstring) : bool :=
  match indexOf p s with Some _ => true | None => false end.

(** WhiteSpace and LineTerminator code points of ECMAScript, the set
    [String.prototype.trim] strips. *)
Definition is_whitespace (u : N) : bool :=
  (((9 <=? u) && (u <=? 13))           (* TAB LF VT FF CR *)
   || (u =? 32) || (u =? 160)          (* SP NBSP *)
   || (u =? 5760)                      (* U+1680 *)
   || ((8192 <=? u) && (u <=? 8202))   (* U+2000 .. U+200A *)
   || (u =? 8232) || (u =? 8233)       (* LS PS *)
   || (u =? 8239) || (u =? 8287)       (* U+202F U+205F *)
   || (u =? 12288) || (u =? 65279))%N. (* U+3000 U+FEFF *)

Fixpoint trimStart (s : jsstring) : jsstring :=
  match s with
  | u :: s' => if is_whitespace u then trimStart s' else s
  | [] => []
  end.

Definition trimEnd (s : jsstring) : jsstring := rev (trimStart (rev s)).

(** [String.prototype.trim]. *)
Definition trim (s : jsstring) : jsstring := trimEnd (trimStart s).

(** Decimal digits of a natural number, as [Number::toString] prints a
    non-negative integer below 2^53. *)
Definition nat_to_string (n : N) : jsstring :=
  js (NilZero.string_of_uint (N.to_uint n)).

Definition is_high_surrogate (u : N) : bool := (55296 <=? u)%N && (u <=? 56319)%N.
Definition is_low_surrogate (u : N) : bool := (56320 <=? u)%N && (u <=? 57343)%N.

(** [Buffer.byteLength(s, 'utf-8')]: the length of the UTF-8 encoding; a
    surrogate pair is one code point of four bytes, a lone surrogate is
    written as U+FFFD (three bytes). *)
Fixpoint byteLength (s : jsstring) : N :=
  match s with
  | [] => 0
  | u :: s' =>
      if (u <? 128)%N then 1 + byteLength s'
      else if (u <? 2048)%N then 2 + byteLength s'
      else if is_high_surrogate u then
        match s' with
        | l :: s'' => if is_low_surrogate l then 4 + byteLength s''
                      else 3 + byteLength s'
        | [] => 3
        end
      else 3 + byteLength s'
  end%N.

(** [(n / 1024).toFixed(2)] for an integer [n] below 2^53.  The quotient
    is exact in binary64, and [toFixed] picks the integer [k] closest to
    [100 * n / 1024], the larger one on a tie; it prints [k] with at least
    three digits and a point before the last two. *)
Definition kb_toFixed2 (n : N) : jsstring :=
  let k := ((200 * n + 1024) / 2048)%N in
  let frac := (k mod 100)%N in
  nat_to_string (k / 100)%N ++ js "." ++
  (if (frac <? 10)%N then js "0" else []) ++ nat_to_string frac.

(* ------------------------------------------------------------------ *)
(** ** [GetSubstitution] for a string pattern

    [String.prototype.replace] called with a string pattern and a string
    replacement expands the replacement template: [$$] is a dollar sign,
    [$&] the matched text, [$`] the text before the match and [$'] the
    text after it.  With a string pattern there are no captures, so a
    dollar sign followed by anything else stands for itself. *)

Fixpoint GetSubstitution (matched before after template : jsstring) : jsstring :=
  match template with
  | [] => []
  | u :: t =>
      if (u =? 36)%N then
        match t with
        | v :: t' =>
            if (v =? 36)%N then 36%N :: GetSubstitution matched before after t'
            else if (v =? 38)%N then matched ++ GetSubstitution matched before after t'
            else if (v =? 96)%N then before ++ GetSubstitution matched before after t'
            else if (v =? 39)%N then after ++ GetSubstitution matched before after t'
            else u :: GetSubstitution matched before after t
        | [] => [u]
        end
      else u :: GetSubstitution matched before after t
  end.

(** [s.replace(pattern, template)] with a string [pattern]: only the first
    occurrence is replaced, and the string is returned unchanged when
    there is none. *)
Definition String_replace (pattern template s : jsstring) : jsstring :=
  match indexOf pattern s with
  | None => s
  | Some (before, after) =>
      before ++ GetSubstitution pattern before after template ++ after
  end.

(* ================================================================== *)
(** * Regular expressions *)
(* ================================================================== *)

(** The fragment of the pattern language the program uses: pattern
    characters, character classes, the class [[\s\S]] of every code unit,
    greedy and lazy stars of a single-unit matcher, and one capture
    group. *)
Inductive cset :=
| CChar (c : N)                           (* a pattern character *)
| CClass (invert : bool) (members : list N) (* [...] and [^...] *)
| CAll.                                   (* [\s\S] *)

Inductive node :=
| One (a : cset)
| Star (greedy : bool) (a : cset)
| GroupOpen
| GroupClose.

Record regex := RegExp {
  source : list node;
  ignoreCase : bool;   (* flag i *)
  global : bool        (* flag g *)
}.

(** [Canonicalize] without the [u] flag maps a code unit to its upper
    case, except that a unit above 127 is never mapped into ASCII.  The
    patterns below hold ASCII characters only, and for those the
    comparison of canonical forms is the comparison of ASCII upper
    cases: a unit above 127 stays above 127. *)
Definition canonicalize (u : N) : N :=
  if ((97 <=? u) && (u <=? 122))%N then (u - 32)%N else u.

Definition char_matches (ic : bool) (c u : N) : bool :=
  if ic then (canonicalize c =? canonicalize u)%N else (c =? u)%N.

Definition cset_matches (ic : bool) (a : cset) (u : N) : bool :=
  match a with
  | CChar c => char_matches ic c u
  | CClass invert members =>
      xorb invert (existsb (fun c => char_matches ic c u) members)
  | CAll => true
  end.

(** State of one match attempt: units consumed so far, where the open
    capture group started, and the group's extent once closed. *)
Record mstate := MState {
  consumed : nat;
  group_from : nat;
  group_span : option (nat * nat)
}.

Definition mstart : mstate := MState 0 0 None.
Definition advance (st : mstate) : mstate :=
  MState (S (consumed st)) (group_from st) (group_span st).
Definition open_group (st : mstate) : mstate :=
  MState (consumed st) (consumed st) (group_span st).
Definition close_group (st : mstate) : mstate :=
  MState (consumed st) (group_from st) (Some (group_from st, consumed st)).

(** The backtracking matcher: [matcher ic p s st] tries the pattern [p]
    at the head of [s].  A greedy star takes as many units as it can and
    gives them back one at a time; a lazy star tries the rest of the
    pattern first. *)
Fixpoint matcher (ic : bool) (p : list node) : jsstring -> mstate -> option mstate :=
  match p with
  | [] => fun _ st => Some st
  | One a :: p' =>
      fun s st =>
        match s with
        | u :: s' => if cset_matches ic a u then matcher ic p' s' (advance st) else None
        | [] => None
        end
  | Star true a :: p' =>
      fix star (s : jsstring) (st : mstate) : option mstate :=
        match s with
        | u :: s' =>
            if cset_matches ic a u then
              match star s' (advance st) with
              | Some r => Some r
              | None => matcher ic p' s st
              end
            else matcher ic p' s st
        | [] => matcher ic p' [] st
        end
  | Star false a :: p' =>
      fix star (s : jsstring) (st : mstate) : option mstate :=
        match matcher ic p' s st with
        | Some r => Some r
        | None =>
            match s with
            | u :: s' => if cset_matches ic a u then star s' (advance st) else None
            | [] => None
            end
        end
  | GroupOpen :: p' => fun s st => matcher ic p' s (open_group st)
  | GroupClose :: p' => fun s st => matcher ic p' s (close_group st)
  end.

(** A successful match: the text skipped before it, the matched text
    ([match[0]]), the capture ([match[1]], empty when the group did not
    take part) and the text after the match. *)
Record rmatch := RMatch {
  m_before : jsstring;
  m_text : jsstring;
  m_group : jsstring;
  m_after : jsstring
}.

Definition match_at (s : jsstring) (st : mstate) : rmatch :=
  RMatch [] (firstn (consumed st) s)
         (match group_span st with
          | Some (a, b) => firstn (b - a) (skipn a s)
          | None => []
          end)
         (skipn (consumed st) s).

(** One attempt at the head of [s]. *)
Definition attempt (r : regex) (s : jsstring) : option rmatch :=
  option_map (match_at s) (matcher (ignoreCase r) (source r) s mstart).

(** [RegExpBuiltinExec] from index 0: the leftmost position at which the
    pattern matches. *)
Definition exec (r : regex) (s : jsstring) : option rmatch :=
  match search (attempt r) s with
  | Some (before, m) => Some (RMatch before (m_text m) (m_group m) (m_after m))
  | None => None
  end.

(** Successive matches of a global regular expression, each with the text
    between it and the previous one, and the text left after the last.
    After an empty match the search resumes one unit further
    ([AdvanceStringIndex]); [gap] carries the unit stepped over. *)
Fixpoint scan (fuel : nat) (r : regex) (gap s : jsstring) : list rmatch * jsstring :=
  match fuel with
  | O => ([], gap ++ s)
  | S fuel' =>
      match exec r s with
      | None => ([], gap ++ s)
      | Some m =>
          let m' := RMatch (gap ++ m_before m) (m_text m) (m_group m) (m_after m) in
          match m_text m, m_after m with
          | [], [] => ([m'], [])
          | [], u :: rest =>
              let (ms, tl) := scan fuel' r [u] rest in (m' :: ms, tl)
          | _ :: _, rest =>
              let (ms, tl) := scan fuel' r [] rest in (m' :: ms, tl)
          end
      end
  end.

(** [s.matchAll(r)] for a global [r]. *)
Definition matchAll (r : regex) (s : jsstring) : list rmatch :=
  fst (scan (S (length s)) r [] s).

(** [s.match(r)] for [r] without the [g] flag. *)
Definition String_match (r : regex) (s : jsstring) : option rmatch := exec r s.

(** [s.replace(r, f)] for a regular expression [r] and a replacer [f]:
    every match when [r] is global, the first one otherwise. *)
Definition RegExp_replace (r : regex) (f : rmatch -> jsstring) (s : jsstring) : jsstring :=
  if global r then
    let (ms, tl) := scan (S (length s)) r [] s in
    flat_map (fun m => m_before m ++ f m) ms ++ tl
  else
    match exec r s with
    | None => s
    | Some m => m_before m ++ f m ++ m_after m
    end.

(** Pattern text: one [One (CChar _)] per character. *)
Definition lit (s : string) : list node := map (fun u => One (CChar u)) (js s).

(** The double quote, which a pattern or a template may hold. *)
Definition dquote : jsstring := [34%N].

(** Any code unit but [>]. *)
Definition not_gt : cset := CClass true [62%N].
(** A double or a single quote. *)
Definition quote : cset := CClass false [34%N; 39%N].

(** [/<style[^>]*>([\s\S]*?)<\/style>/gi] (lines 95 and 114). *)
Definition style_block_re : regex :=
  RegExp (lit "<style" ++ [Star true not_gt] ++ lit ">"
          ++ [GroupOpen; Star false CAll; GroupClose] ++ lit "</style>")
         true true.

(** [/<link[^>]*rel=["']stylesheet["'][^>]*>/gi] (line 100). *)
Definition stylesheet_link_re : regex :=
  RegExp (lit "<link" ++ [Star true not_gt] ++ lit "rel=" ++ [One quote]
          ++ lit "stylesheet" ++ [One quote] ++ [Star true not_gt] ++ lit ">")
         true true.

(** [/<style[^>]*data-href[^>]*>([\s\S]*?)<\/style>/i] (line 109). *)
Definition critical_style_re : regex :=
  RegExp (lit "<style" ++ [Star true not_gt] ++ lit "data-href"
          ++ [Star true not_gt] ++ lit ">"
          ++ [GroupOpen; Star false CAll; GroupClose] ++ lit "</style>")
         true false.

(* ================================================================== *)
(** * Values of [JSON.parse] and the operators applied to them *)
(* ================================================================== *)

(** A parsed JSON text.  An object lists each of its own properties once. *)
Inductive json :=
| JNull
| JBool (b : bool)
| JNum (x : float)
| JStr (s : jsstring)
| JArr (items : list json)
| JObj (props : list (jsstring * json)).

Fixpoint assoc (key : jsstring) (props : list (jsstring * json)) : option json :=
  match props with
  | [] => None
  | (k, v) :: rest => if str_eqb k key then Some v else assoc key rest
  end.

Definition is_digit (u : N) : bool := ((48 <=? u) && (u <=? 57))%N.

Fixpoint digits_value (acc : N) (s : jsstring) : N :=
  match s with
  | [] => acc
  | u :: s' => digits_value (10 * acc + (u - 48))%N s'
  end.

(** A canonical array index: ["0"], or digits without a leading zero. *)
Definition array_index (key : jsstring) : option nat :=
  match key with
  | [] => None
  | u :: rest =>
      if forallb is_digit key && ((length key =? 1) || negb (u =? 48)%N)
      then Some (N.to_nat (digits_value 0 key))
      else None
  end.

(** [ToBoolean]. *)
Definition truthy (v : json) : bool :=
  match v with
  | JNull => false
  | JBool b => b
  | JNum x => negb (PrimFloat.eqb x 0%float) && PrimFloat.eqb x x
  | JStr s => match s with [] => false | _ => true end
  | JArr _ | JObj _ => true
  end.

(** [v[key]] for a value [v] that is not [null]: [Some] of an own data
    property that holds a JSON value (a key of an object, an element of an
    array, one unit of a string).  [None] stands for [undefined] and for
    whatever else such an access yields (the [length] of an array or
    string, a method of the prototype): values without a property
    [css], so that the test of line 20 fails on them as it does on
    [undefined]. *)
Definition Get (v : json) (key : jsstring) : option json :=
  match v with
  | JObj props => assoc key props
  | JArr items => match array_index key with
                  | Some i => nth_error items i
                  | None => None
                  end
  | JStr s => match array_index key with
              | Some i => option_map (fun u => JStr [u]) (nth_error s i)
              | None => None
              end
  | JNull | JBool _ | JNum _ => None
  end.

Fixpoint take_while (f : N -> bool) (s : jsstring) : jsstring * jsstring :=
  match s with
  | u :: s' => if f u then let (a, b) := take_while f s' in (u :: a, b) else ([], s)
  | [] => ([], [])
  end.

Definition is_hex_digit (u : N) : bool :=
  (is_digit u || ((65 <=? u) && (u <=? 70)) || ((97 <=? u) && (u <=? 102)))%N.
Definition is_octal_digit (u : N) : bool := ((48 <=? u) && (u <=? 55))%N.
Definition is_binary_digit (u : N) : bool := ((u =? 48) || (u =? 49))%N.

(** Digits of a non-decimal literal: the value is positive when the
    literal is well formed and one digit is not zero. *)
Definition radix_positive (digit : N -> bool) (ds : jsstring) : bool :=
  match ds with
  | [] => false
  | _ => forallb digit ds && existsb (fun u => negb (u =? 48)%N) ds
  end.

(** The exponent part of a decimal literal, [None] when malformed. *)
Definition exponent_part (s : jsstring) : option Z :=
  match s with
  | [] => Some 0%Z
  | e :: s1 =>
      if ((e =? 101) || (e =? 69))%N then
        let '(neg, ds) :=
          match s1 with
          | sg :: s2 => if (sg =? 45)%N then (true, s2)
                        else if (sg =? 43)%N then (false, s2) else (false, s1)
          | [] => (false, s1)
          end in
        match ds with
        | [] => None
        | _ => if forallb is_digit ds
               then Some (if neg then - Z.of_N (digits_value 0 ds)
                          else Z.of_N (digits_value 0 ds))%Z
               else None
        end
      else None
  end.

(** Whether the mathematical value [m * 10^e] rounds to a binary64 number
    above zero: it must exceed half of the least subnormal, [2^-1075]. *)
Definition rounds_positive (m : N) (e : Z) : bool :=
  negb (m =? 0)%N &&
  ((0 <=? e)%Z || (10 ^ (- e) <? Z.of_N m * 2 ^ 1075)%Z).

(** [StringToNumber(s) > 0], by the grammar of [StringNumericLiteral]. *)
Definition string_gt_zero (s : jsstring) : bool :=
  match trim s with
  | [] => false
  | u :: v :: ds =>
      if (u =? 48)%N && ((v =? 120) || (v =? 88))%N then radix_positive is_hex_digit ds
      else if (u =? 48)%N && ((v =? 111) || (v =? 79))%N then radix_positive is_octal_digit ds
      else if (u =? 48)%N && ((v =? 98) || (v =? 66))%N then radix_positive is_binary_digit ds
      else
        let '(neg, body) :=
          if (u =? 45)%N then (true, v :: ds)
          else if (u =? 43)%N then (false, v :: ds) else (false, u :: v :: ds) in
        if str_eqb body (js "Infinity") then negb neg
        else
          let (int, r1) := take_while is_digit body in
          let '(frac, r2, dotted) :=
            match r1 with
            | d :: r => if (d =? 46)%N
                        then let (f, r') := take_while is_digit r in (f, r', true)
                        else ([], r1, false)
            | [] => ([], r1, false)
            end in
          match int ++ frac, exponent_part r2 with
          | _ :: _, Some e =>
              negb neg
              && rounds_positive (digits_value 0 (int ++ frac)) (e - Z.of_nat (length frac))
          | _, _ => false
          end
  | [u] => is_digit u && negb (u =? 48)%N
  end.

(** [v > 0] for a JSON value [v]: [ToNumber(ToPrimitive(v))] compared
    with zero.  An array is first printed with [join(",")]: the empty
    array prints as the empty string, an array of one element as that
    element ([null] as the empty string), and the text of a longer array
    or of an object is not a numeric literal. *)
Fixpoint gt_zero (v : json) : bool :=
  match v with
  | JNull => false
  | JBool b => b
  | JNum x => PrimFloat.ltb 0%float x
  | JStr s => string_gt_zero s
  | JArr [e] => match e with
                | JBool _ => false
                | _ => gt_zero e
                end
  | JArr _ => false
  | JObj _ => false
  end.

(** [css.length > 0] for a truthy [css]. *)
Definition length_gt_zero (css : json) : bool :=
  match css with
  | JArr items => match items with [] => false | _ => true end
  | JStr s => match s with [] => false | _ => true end
  | JObj props => match assoc (js "length") props with
                  | Some v => gt_zero v
                  | None => false
                  end
  | JNull | JBool _ | JNum _ => false
  end.

(* ================================================================== *)
(** * The host and the monad of the program *)
(* ================================================================== *)

(** Result of a call that may throw an [Error] with the given message. *)
Inductive outcome (A : Type) :=
| Ok (a : A)
| Throw (message : jsstring).
Arguments Ok {A} a.
Arguments Throw {A} message.

(** What [fetch] resolves to; [text] is the result of [response.text()]. *)
Record response := Response {
  status : N;
  statusText : jsstring;
  text : outcome jsstring
}.

(** [response.ok]: the status is in the range 200-299. *)
Definition ok (r : response) : bool := ((200 <=? status r) && (status r <=? 299))%N.

(** A plain JavaScript object used as a bag of options. *)
Definition object := list (jsstring * json).

Fixpoint obj_set (key : jsstring) (v : json) (o : object) : object :=
  match o with
  | [] => [(key, v)]
  | (k, x) :: o' => if str_eqb k key then (k, v) :: o' else (k, x) :: obj_set key v o'
  end.

(** [{ ...base, ...extra }]: the properties of [extra] are copied over
    those of [base]. *)
Definition obj_spread (base extra : object) : object :=
  fold_left (fun o kv => obj_set (fst kv) (snd kv) o) extra base.

(** The primitives the program calls, over a world of type [W]:
    [fetch], [readFile], [readdir], [mkdir(_, {recursive: true})],
    [writeFile], [process] of a Beasties instance built from the given
    options, and the pure [JSON.parse], [path.resolve], [path.join] and
    [path.dirname]. *)
Record Host (W : Type) := {
  host_fetch : jsstring -> W -> outcome response * W;
  host_readFile : jsstring -> W -> outcome jsstring * W;
  host_readdir : jsstring -> W -> outcome (list jsstring) * W;
  host_mkdir : jsstring -> W -> outcome unit * W;
  host_writeFile : jsstring -> jsstring -> W -> outcome unit * W;
  host_process : object -> jsstring -> W -> outcome jsstring * W;
  JSON_parse : jsstring -> outcome json;
  path_resolve : jsstring -> jsstring -> jsstring;
  path_join : list jsstring -> jsstring;
  path_dirname : jsstring -> jsstring
}.

(** One entry of the trace per call of a primitive with an effect. *)
Inductive event :=
| EvFetch (url : jsstring)
| EvReadFile (path : jsstring)
| EvReaddir (path : jsstring)
| EvMkdir (path : jsstring)
| EvWriteFile (path content : jsstring)
| EvProcess (options : object) (html : jsstring).

Record state (W : Type) := State {
  world : W;
  trace : list event
}.

Definition M (W A : Type) : Type := state W -> outcome A * state W.

Definition ret {W A} (a : A) : M W A := fun st => (Ok a, st).

Definition throw {W A} (message : jsstring) : M W A := fun st => (Throw message, st).

Definition bind {W A B} (c : M W A) (k : A -> M W B) : M W B :=
  fun st =>
    match c st with
    | (Ok a, st') => k a st'
    | (Throw e, st') => (Throw e, st')
    end.

(** [try { c } catch (error) { h(error.message) }]. *)
Definition try_catch {W A} (c : M W A) (h : jsstring -> M W A) : M W A :=
  fun st =>
    match c st with
    | (Ok a, st') => (Ok a, st')
    | (Throw e, st') => h e st'
    end.

Definition of_outcome {W A} (o : outcome A) : M W A := fun st => (o, st).

(** A call of a primitive: the world moves on and the call is logged. *)
Definition call {W A} (op : W -> outcome A * W) (ev : event) : M W A :=
  fun st =>
    let (r, w') := op (world st) in
    (r, State w' (trace st ++ [ev])).

Declare Scope js_scope.
Delimit Scope js_scope with js.
Notation "x <- c ;; k" := (bind c (fun x => k))
  (at level 61, c at next level, right associativity) : js_scope.
Notation "c ;;; k" := (bind c (fun _ => k))
  (at level 61, right associativity) : js_scope.
Open Scope js_scope.

(* ================================================================== *)
(** * The data of the pipeline *)
(* ================================================================== *)

Record PageSpec := Page {
  uri : jsstring;
  template : jsstring
}.

(** The resolved configuration [generateCriticalCss] receives. *)
Record Config := {
  projectRoot : jsstring;
  baseUrl : jsstring;
  outputDir : jsstring;
  manifestPath : jsstring;
  appEntry : jsstring;
  publicDir : jsstring;
  publicPath : jsstring;
  pages : list PageSpec;
  beasties : object
}.

Record CssAssetInfo := CssInfo {
  absolutePath : jsstring;
  href : jsstring
}.

(** [{ page, success, size }] and [{ page, success, error }]. *)
Record PageResult := Result {
  page : PageSpec;
  success : bool;
  size : option jsstring;
  error : option jsstring
}.

Record RunSummary := Summary {
  results : list PageResult;
  successful : nat;
  failed : nat
}.

(* ================================================================== *)
(** * The program *)
(* ================================================================== *)

(** The comment that stands in for a removed style block (line 96). *)
Definition placeholder : jsstring := js "<!-- existing-style-placeholder -->".

(** The word looked for in a style block of the output (line 116). *)
Definition placeholder_word : jsstring := js "existing-style-placeholder".

(** The template of line 103, a link to the built style sheet followed by
    a line feed and the closing tag. *)
Definition link_tag (href : jsstring) : jsstring :=
  js "<link rel=" ++ dquote ++ js "stylesheet" ++ dquote ++ js " href="
  ++ dquote ++ href ++ dquote ++ js ">".

Definition link_template (href : jsstring) : jsstring :=
  link_tag href ++ [10%N] ++ js "</head>".

(** Lines 95-97: every style block becomes the placeholder. *)
Definition strip_styles (html : jsstring) : jsstring :=
  RegExp_replace style_block_re (fun _ => placeholder) html.

(** Line 100: every link to a style sheet is removed (the replacement
    template is the empty string). *)
Definition strip_links (html : jsstring) : jsstring :=
  RegExp_replace stylesheet_link_re (fun _ => []) html.

(** Line 103. *)
Definition inject_link (href html : jsstring) : jsstring :=
  String_replace (js "</head>") (link_template href) html.

(** Lines 94-103, the three assignments to [html] in order. *)
Definition sanitize (href html : jsstring) : jsstring :=
  inject_link href (strip_links (strip_styles html)).

(** Lines 114-119: the captures of the style blocks whose text does not
    hold the placeholder word, appended in order. *)
Definition new_styles (processedHtml : jsstring) : jsstring :=
  fold_left
    (fun criticalCss m =>
       if negb (includes placeholder_word (m_text m))
       then criticalCss ++ m_group m
       else criticalCss)
    (matchAll style_block_re processedHtml) [].

(** Lines 108-120: the value of [criticalCss] before the test of line 122. *)
Definition extract (processedHtml : jsstring) : jsstring :=
  match String_match critical_style_re processedHtml with
  | Some criticalStyleMatch => m_group criticalStyleMatch
  | None => new_styles processedHtml
  end.

(** Line 122: [!criticalCss || criticalCss.trim().length === 0]. *)
Definition is_blank (criticalCss : jsstring) : bool :=
  match criticalCss with
  | [] => true
  | _ => (length (trim criticalCss) =? 0)%nat
  end.

Definition no_css_message : jsstring :=
  js "No CSS files found in web/dist/. Run your Vite build first.".

Definition no_critical_message : jsstring := js "No critical CSS extracted".

(** Lines 19-21, and the check of line 23 that the third argument of
    [path.join] is a string: the CSS file the manifest names for the
    entry, [Ok None] when the test of line 20 fails.  Reading
    [manifest[appEntry]] throws when the manifest is [null], and
    [path.join] throws when [cssFile] is not a string. *)
Definition manifest_css_file (manifest : json) (appEntry : jsstring)
  : outcome (option jsstring) :=
  match manifest with
  | JNull => Throw (js "Cannot read properties of null")
  | _ =>
      match Get manifest appEntry with
      | Some entry =>
          if truthy entry then
            match Get entry (js "css") with
            | Some css =>
                if truthy css && length_gt_zero css then
                  match Get css (js "0") with
                  | Some (JStr cssFile) => Ok (Some cssFile)
                  | _ => Throw (js "The path argument must be of type string")
                  end
                else Ok None
            | None => Ok None
            end
          else Ok None
      | None => Ok None
      end
  end.

Section Program.

Context {W : Type} (host : Host W).

Definition fetch (url : jsstring) : M W response :=
  call (host_fetch host url) (EvFetch url).
Definition readFile (path : jsstring) : M W jsstring :=
  call (host_readFile host path) (EvReadFile path).
Definition readdir (path : jsstring) : M W (list jsstring) :=
  call (host_readdir host path) (EvReaddir path).
Definition mkdir (path : jsstring) : M W unit :=
  call (host_mkdir host path) (EvMkdir path).
Definition writeFile (path content : jsstring) : M W unit :=
  call (host_writeFile host path content) (EvWriteFile path content).
Definition process (options : object) (html : jsstring) : M W jsstring :=
  call (host_process host options html) (EvProcess options html).

(** Lines 5-11. *)
Definition fetchHtml (url : jsstring) : M W jsstring :=
  response <- fetch url ;;
  if negb (ok response) then
    throw (js "Failed to fetch " ++ url ++ js ": "
           ++ nat_to_string (status response) ++ js " " ++ statusText response)
  else of_outcome (text response).

(** Lines 17-29: the manifest.  [Some] is the [return] of line 22, [None]
    falling out of the [try] statement, by the test of line 20 or through
    the [catch]. *)
Definition from_manifest (config : Config) : M W (option CssAssetInfo) :=
  let absoluteManifestPath :=
    path_resolve host (projectRoot config) (manifestPath config) in
  try_catch
    (content <- readFile absoluteManifestPath ;;
     manifest <- of_outcome (JSON_parse host content) ;;
     found <- of_outcome (manifest_css_file manifest (appEntry config)) ;;
     match found with
     | Some cssFile =>
         ret (Some (CssInfo
           (path_join host [projectRoot config; js "web/dist"; cssFile])
           (js "/dist/" ++ cssFile)))
     | None => ret None
     end)
    (fun _ => ret None).

(** Lines 32-45: the first [.css] file of the assets directory. *)
Definition from_assets (config : Config) : M W (option CssAssetInfo) :=
  let assetsDir := path_resolve host (projectRoot config) (js "web/dist/assets") in
  try_catch
    (files <- readdir assetsDir ;;
     let cssFiles := filter (endsWith (js ".css")) files in
     match cssFiles with
     | first :: _ =>
         let cssFile := js "assets/" ++ first in
         ret (Some (CssInfo
           (path_join host [projectRoot config; js "web/dist"; cssFile])
           (js "/dist/" ++ cssFile)))
     | [] => ret None
     end)
    (fun _ => ret None).

(** Lines 13-48. *)
Definition getBuiltCssInfo (config : Config) : M W CssAssetInfo :=
  found <- from_manifest config ;;
  match found with
  | Some info => ret info
  | None =>
      found <- from_assets config ;;
      match found with
      | Some info => ret info
      | None => throw no_css_message
      end
  end.

(** Lines 76-80: the options of the Beasties instance. *)
Definition beasties_options (config : Config) : object :=
  obj_spread
    [ (js "path", JStr (path_resolve host (projectRoot config) (publicDir config)));
      (js "publicPath", JStr (publicPath config)) ]
    (beasties config).

(** Lines 85-141: the body of the loop for one page, as the record it
    pushes onto [results]. *)
Definition process_page (config : Config) (cssInfo : CssAssetInfo)
    (page : PageSpec) : M W PageResult :=
  let url := baseUrl config ++ uri page in
  let outputFilename := template page ++ js "_critical.min.css" in
  let outputPath := path_join host [outputDir config; outputFilename] in
  try_catch
    (html <- fetchHtml url ;;
     let html := sanitize (href cssInfo) html in
     processedHtml <- process (beasties_options config) html ;;
     let criticalCss := extract processedHtml in
     if is_blank criticalCss then
       ret (Result page false None (Some no_critical_message))
     else
       let criticalCss := trim criticalCss in
       mkdir (path_dirname host outputPath) ;;;
       writeFile outputPath criticalCss ;;;
       let sizeKb := kb_toFixed2 (byteLength criticalCss) in
       ret (Result page true (Some sizeKb) None))
    (fun message => ret (Result page false None (Some message))).

(** Lines 82-142: [results] after the loop over [pages]. *)
Fixpoint process_pages (config : Config) (cssInfo : CssAssetInfo)
    (pages : list PageSpec) (results : list PageResult) : M W (list PageResult) :=
  match pages with
  | [] => ret results
  | page :: rest =>
      r <- process_page config cssInfo page ;;
      process_pages config cssInfo rest (results ++ [r])
  end.

(** Lines 65-156. *)
Definition generateCriticalCss (config : Config) : M W RunSummary :=
  mkdir (outputDir config) ;;;
  cssInfo <- getBuiltCssInfo config ;;
  results <- process_pages config cssInfo (pages config) [] ;;
  let successful := filter (fun r => success r) results in
  let failed := filter (fun r => negb (success r)) results in
  ret (Summary results (length successful) (length failed)).

End Program.

(* ================================================================== *)
(** * The defaults of [src/defaults.mjs] *)
(* ================================================================== *)

(** The object [defaults], one definition per property. *)
Module defaults.

Definition outputDir : jsstring := js "web/dist/criticalcss".
Definition manifestPath : jsstring := js "web/dist/.vite/manifest.json".
Definition appEntry : jsstring := js "src/js/app.ts".
Definition publicDir : jsstring := js "web".
Definition publicPath : jsstring := js "/".
Definition beasties : object :=
  [ (js "reduceInlineStyles", JBool true);
    (js "preload", JStr (js "none"));
    (js "fonts", JBool true);
    (js "logLevel", JStr (js "info")) ].

End defaults.

(* ================================================================== *)
(** * The command of [bin/critical-css-craftcms.mjs] *)
(* ================================================================== *)

(** ** The pattern of line 92

    [/\/+$/] needs two constructs the patterns of the pipeline do not
    use: a greedy [+] and the assertion [$] (without the [m] flag, the
    end of the input).  The matcher returns the number of units
    consumed. *)
Inductive term :=
| Plus (a : cset)   (* a+ *)
| EndOfInput.       (* $ *)

(** A greedy star of [a] followed by the continuation [k]: as many units
    as possible, given back one at a time while [k] fails. *)
Fixpoint greedy_star (a : cset) (k : jsstring -> nat -> option nat)
    (s : jsstring) (n : nat) : option nat :=
  match s with
  | u :: s' =>
      if cset_matches false a u then
        match greedy_star a k s' (S n) with
        | Some r => Some r
        | None => k s n
        end
      else k s n
  | [] => k [] n
  end.

Fixpoint term_matcher (p : list term) : jsstring -> nat -> option nat :=
  match p with
  | [] => fun _ n => Some n
  | Plus a :: p' =>
      fun s n =>
        match s with
        | u :: s' =>
            if cset_matches false a u
            then greedy_star a (term_matcher p') s' (S n)
            else None
        | [] => None
        end
  | EndOfInput :: p' =>
      fun s n =>
        match s with
        | [] => term_matcher p' [] n
        | _ :: _ => None
        end
  end.

(** [/\/+$/]. *)
Definition trailing_slashes_re : list term := [Plus (CChar 47%N); EndOfInput].

(** One attempt of [/\/+$/] at the head of [s]: what follows the match. *)
Definition trailing_slashes_at (s : jsstring) : option jsstring :=
  option_map (fun n => skipn n s) (term_matcher trailing_slashes_re s 0).

(** Line 92, [baseUrl.replace(/\/+$/, '')]: the leftmost match is replaced
    by the empty string. *)
Definition normalizedUrl (baseUrl : jsstring) : jsstring :=
  match search trailing_slashes_at baseUrl with
  | Some (before, after) => before ++ after
  | None => baseUrl
  end.

(** ** The configuration file *)

(** The default export of [critical-css.config.mjs] when it is an
    object.  [pages] is the value the command validates: whatever the
    file gives, as long as it is made of [null], booleans, numbers,
    strings, arrays and objects, and [None] for [undefined].  The other
    options are strings, and [beasties] an object, where they are
    given, as the package documents them; [None] is an option that is
    left out, is [undefined] or is [null], the values [??] replaces. *)
Module UserConfig.

Record t := Make {
  pages : option json;
  outputDir : option jsstring;
  manifestPath : option jsstring;
  appEntry : option jsstring;
  publicDir : option jsstring;
  publicPath : option jsstring;
  beasties : option object
}.

End UserConfig.

(** What the module exports by default, as the test of line 39 sees it:
    [NotAnObject] is no export at all, [null], or a value whose [typeof]
    is not ['object']. *)
Inductive exported :=
| NotAnObject
| AnObject (userConfig : UserConfig.t).

(** What the command asks of the process it runs in: loading [dotenv]
    (line 9, a failure is ignored), [process.cwd()], the dynamic
    [import] of the configuration file, given by its path, and
    [process.env]. *)
Record Shell (W : Type) := {
  sh_dotenv : W -> W;
  sh_cwd : W -> jsstring;
  sh_import : jsstring -> W -> outcome exported * W;
  sh_env : jsstring -> W -> option jsstring
}.

(** [typeof v === 'string']. *)
Definition is_string (v : json) : bool :=
  match v with JStr _ => true | _ => false end.

(** [!v || typeof v !== 'string'] for what a property access gave, [None]
    being [undefined] (lines 65 and 70). *)
Definition not_a_string (v : option json) : bool :=
  match v with
  | Some x => negb (truthy x) || negb (is_string x)
  | None => true
  end.

(** Lines 65-74 for one element of [pages]: [Ok false] is
    [process.exit(1)], and reading a property of [null] throws a
    [TypeError] (the message is the one of V8). *)
Definition check_page (page : json) : outcome bool :=
  match page with
  | JNull => Throw (js "Cannot read properties of null (reading 'uri')")
  | _ =>
      if not_a_string (Get page (js "uri")) then Ok false
      else if not_a_string (Get page (js "template")) then Ok false
      else Ok true
  end.

(** Lines 64-75. *)
Fixpoint check_pages (pages : list json) : outcome bool :=
  match pages with
  | [] => Ok true
  | page :: rest =>
      match check_page page with
      | Ok true => check_pages rest
      | stop => stop
      end
  end.

(** The two properties of a page the pipeline reads. *)
Definition page_spec (page : json) : PageSpec :=
  let text_of v := match v with Some (JStr s) => s | _ => [] end in
  Page (text_of (Get page (js "uri"))) (text_of (Get page (js "template"))).

(** [given ?? default]. *)
Definition or_default {A} (given : option A) (default : A) : A :=
  match given with
  | Some a => a
  | None => default
  end.

Section Command.

Context {W : Type} (host : Host W) (shell : Shell W).

Definition dotenv : M W unit :=
  fun st => (Ok tt, State (sh_dotenv shell (world st)) (trace st)).
Definition process_cwd : M W jsstring :=
  fun st => (Ok (sh_cwd shell (world st)), st).
Definition import_config (path : jsstring) : M W exported :=
  fun st =>
    let (r, w') := sh_import shell path (world st) in
    (r, State w' (trace st)).
Definition process_env (name : jsstring) : M W (option jsstring) :=
  fun st => (Ok (sh_env shell name (world st)), st).

(** Lines 96-109. *)
Definition merged_config (cwd normalizedUrl : jsstring)
    (userConfig : UserConfig.t) (pages : list json) : Config :=
  {| projectRoot := cwd;
     baseUrl := normalizedUrl;
     outputDir :=
       path_resolve host cwd
         (or_default (UserConfig.outputDir userConfig) defaults.outputDir);
     manifestPath :=
       or_default (UserConfig.manifestPath userConfig) defaults.manifestPath;
     appEntry := or_default (UserConfig.appEntry userConfig) defaults.appEntry;
     publicDir := or_default (UserConfig.publicDir userConfig) defaults.publicDir;
     publicPath :=
       or_default (UserConfig.publicPath userConfig) defaults.publicPath;
     pages := map page_spec pages;
     beasties :=
       obj_spread defaults.beasties
         (or_default (UserConfig.beasties userConfig) []) |}.

(** Lines 113-119. *)
Definition run_and_exit (config : Config) : M W N :=
  try_catch
    (summary <- generateCriticalCss host config ;;
     ret (if (0 <? failed summary)%nat then 1%N else 0%N))
    (fun _ => ret 1%N).

(** The whole command.  [Ok code] is [process.exit(code)]; [Throw] is an
    exception nothing catches, after which Node ends the process.  The
    [catch] of line 21 exits in both of its branches, so the [try] of
    line 18 is written as the test whether the import gave a value. *)
Definition main : M W N :=
  dotenv ;;;
  cwd <- process_cwd ;;
  let configPath := path_resolve host cwd (js "critical-css.config.mjs") in
  loaded <- try_catch (userConfig <- import_config configPath ;;
                       ret (Some userConfig))
                      (fun _ => ret None) ;;
  match loaded with
  | None => ret 1%N
  | Some NotAnObject => ret 1%N
  | Some (AnObject userConfig) =>
      match UserConfig.pages userConfig with
      | Some (JArr (first :: others)) =>
          let pages := first :: others in
          valid <- of_outcome (check_pages pages) ;;
          if negb valid then ret 1%N
          else
            baseUrl <- process_env (js "CRITICAL_URL") ;;
            match baseUrl with
            | Some (u :: rest) =>
                run_and_exit
                  (merged_config cwd (normalizedUrl (u :: rest)) userConfig pages)
            | _ => ret 1%N
            end
      | _ => ret 1%N
      end
  end.

End Command.

(* ================================================================== *)
(** * The asset locator in the words of the specification *)
(* ================================================================== *)

(** Step 2 of section 4.1: the entry key maps to an object that holds a
    non-empty list of CSS files, of which the first is taken. *)
Definition spec_manifest_css (manifest : json) (appEntry : jsstring) : option jsstring :=
  match Get manifest appEntry with
  | Some (JObj entry) =>
      match assoc (js "css") entry with
      | Some (JArr (JStr cssFile :: _)) => Some cssFile
      | _ => None
      end
  | _ => None
  end.

(** Step 3: the first file of the listing whose name ends in [.css]. *)
Definition spec_first_css (files : list jsstring) : option jsstring :=
  find (endsWith (js ".css")) files.

(** Steps 1 to 4, from what reading the manifest file and listing the
    assets directory gave. *)
Definition asset_locator_spec {W} (host : Host W) (config : Config)
    (manifest_file : outcome jsstring) (listing : outcome (list jsstring))
  : outcome CssAssetInfo :=
  let located cssFile :=
    CssInfo (path_join host [projectRoot config; js "web/dist"; cssFile])
            (js "/dist/" ++ cssFile) in
  let listed :=
    match manifest_file with
    | Ok content =>
        match JSON_parse host content with
        | Ok manifest => spec_manifest_css manifest (appEntry config)
        | Throw _ => None
        end
    | Throw _ => None
    end in
  match listed with
  | Some cssFile => Ok (located cssFile)
  | None =>
      match listing with
      | Ok files =>
          match spec_first_css files with
          | Some file => Ok (located (js "assets/" ++ file))
          | None => Throw no_css_message
          end
      | Throw _ => Throw no_css_message
      end
  end.

(** The [css] value of the configured entry is neither a string nor an
    object: a list, as a Vite manifest has it, or nothing with a length. *)
Definition css_is_list (manifest : json) (appEntry : jsstring) : bool :=
  match Get manifest appEntry with
  | Some entry =>
      match Get entry (js "css") with
      | Some (JStr _) | Some (JObj _) => false
      | _ => true
      end
  | None => true
  end.

(* ================================================================== *)
(** * The output extractor in the words of the specification *)
(* ================================================================== *)

(** Section 4.5 speaks of a style block that carries a marker attribute
    and of the style blocks that are not the placeholder marker.  Both
    are written here on the text of a block, the blocks being those the
    pattern of lines 95 and 114 finds. *)

(** ASCII white space, as it separates the attributes of a tag. *)
Definition is_html_space (u : N) : bool :=
  ((u =? 9) || (u =? 10) || (u =? 12) || (u =? 13) || (u =? 32))%N.

(** Where a scan of the attributes of an opening tag stands. *)
Inductive tag_part :=
| BeforeName                   (* between two attributes *)
| InName (name : jsstring)     (* in the name of an attribute *)
| AfterName (name : jsstring)  (* after a name and white space *)
| BeforeValue                  (* after the equals sign *)
| InQuotes (q : N)             (* in a value between quotes [q] *)
| InBare.                      (* in a value without quotes *)

(** The names of the attributes written in [s], the text of an opening
    tag between the tag name and [>]: a name ends at white space, [/]
    or [=], and a value is skipped, up to its closing quote when it is
    quoted and up to white space when it is not. *)
Fixpoint attribute_names_from (part : tag_part) (s : jsstring) : list jsstring :=
  match s with
  | [] =>
      match part with
      | InName name | AfterName name => [name]
      | _ => []
      end
  | u :: s' =>
      match part with
      | BeforeName =>
          if is_html_space u || (u =? 47)%N then attribute_names_from BeforeName s'
          else attribute_names_from (InName [u]) s'
      | InName name =>
          if is_html_space u then attribute_names_from (AfterName name) s'
          else if (u =? 47)%N then name :: attribute_names_from BeforeName s'
          else if (u =? 61)%N then name :: attribute_names_from BeforeValue s'
          else attribute_names_from (InName (name ++ [u])) s'
      | AfterName name =>
          if is_html_space u then attribute_names_from (AfterName name) s'
          else if (u =? 61)%N then name :: attribute_names_from BeforeValue s'
          else if (u =? 47)%N then name :: attribute_names_from BeforeName s'
          else name :: attribute_names_from (InName [u]) s'
      | BeforeValue =>
          if is_html_space u then attribute_names_from BeforeValue s'
          else if ((u =? 34) || (u =? 39))%N then attribute_names_from (InQuotes u) s'
          else attribute_names_from InBare s'
      | InQuotes q =>
          if (u =? q)%N then attribute_names_from BeforeName s'
          else attribute_names_from (InQuotes q) s'
      | InBare =>
          if is_html_space u then attribute_names_from BeforeName s'
          else attribute_names_from InBare s'
      end
  end.

Definition attribute_names (attrs : jsstring) : list jsstring :=
  attribute_names_from BeforeName attrs.

(** The attributes of a style block: what stands between [<style] and
    the first [>] of its text. *)
Definition opening_attributes (block : rmatch) : jsstring :=
  match indexOf [62%N] (skipn 6 (m_text block)) with
  | Some (attrs, _) => attrs
  | None => []
  end.

(** The block carries the marker attribute: one of its attributes is
    named [data-href], in any case of letters. *)
Definition carries_marker (block : rmatch) : bool :=
  existsb (fun name => str_eqb (map canonicalize name) (map canonicalize (js "data-href")))
    (attribute_names (opening_attributes block)).

(** The block is the placeholder of section 4.3: its content is the
    placeholder comment. *)
Definition is_placeholder_marker (block : rmatch) : bool :=
  str_eqb (trim (m_group block)) placeholder.

(** Steps 1 to 3 of section 4.5: the content of the first block that
    carries the marker; without such a block, the contents of the blocks
    that are not the placeholder, one after the other; trimmed in both
    cases. *)
Definition spec_extract (processedHtml : jsstring) : jsstring :=
  let blocks := matchAll style_block_re processedHtml in
  match find carries_marker blocks with
  | Some block => trim (m_group block)
  | None =>
      trim (flat_map m_group
              (filter (fun block => negb (is_placeholder_marker block)) blocks))
  end.

(* ================================================================== *)
(** * Auxiliary notions for the statements *)
(* ================================================================== *)

(** Number of elements that satisfy a test. *)
Fixpoint count {A} (f : A -> bool) (l : list A) : nat :=
  match l with
  | [] => 0
  | x :: l' => (if f x then 1 else 0) + count f l'
  end.

(** The files a trace writes, in order. *)
Definition written (tr : list event) : list (jsstring * jsstring) :=
  flat_map (fun ev => match ev with
                      | EvWriteFile path content => [(path, content)]
                      | _ => []
                      end) tr.

(** The documents a trace hands to the engine, in order. *)
Definition processed (tr : list event) : list jsstring :=
  flat_map (fun ev => match ev with EvProcess _ html => [html] | _ => [] end) tr.

(** The pages a trace fetches, in order. *)
Definition fetched (tr : list event) : list jsstring :=
  flat_map (fun ev => match ev with EvFetch url => [url] | _ => [] end) tr.

(** The CSS file the program takes from the manifest, given what reading
    the manifest file gave: none when the file cannot be read, is not
    JSON, or fails the test of line 20 or the check of line 23. *)
Definition manifest_yields {W} (host : Host W) (config : Config)
    (manifest_file : outcome jsstring) : option jsstring :=
  match manifest_file with
  | Ok content =>
      match JSON_parse host content with
      | Ok manifest =>
          match manifest_css_file manifest (appEntry config) with
          | Ok (Some cssFile) => Some cssFile
          | _ => None
          end
      | Throw _ => None
      end
  | Throw _ => None
  end.

(** The record of line 22 and of line 38. *)
Definition located {W} (host : Host W) (config : Config) (cssFile : jsstring)
  : CssAssetInfo :=
  CssInfo (path_join host [projectRoot config; js "web/dist"; cssFile])
          (js "/dist/" ++ cssFile).

(** One run from a world [w] with an empty trace. *)
Definition run {W} (host : Host W) (config : Config) (w : W)
  : outcome RunSummary * state W :=
  generateCriticalCss host config (State w []).

(** A text that neither begins nor ends with white space. *)
Definition tight (s : jsstring) : Prop :=
  (forall u rest, s = u :: rest -> is_whitespace u = false)
  /\ (forall front u, s = front ++ [u] -> is_whitespace u = false).

(* ================================================================== *)
(** * Auxiliary notions for the properties of a run and of the command *)
(* ================================================================== *)

(** The URL a page is fetched from (line 85). *)
Definition page_url (config : Config) (p : PageSpec) : jsstring :=
  baseUrl config ++ uri p.

(** The file a page is written to (lines 86-87). *)
Definition output_path {W} (host : Host W) (config : Config) (p : PageSpec)
  : jsstring :=
  path_join host [outputDir config; template p ++ js "_critical.min.css"].

(** What the body of the loop can do for a page [p]: the record it pushes
    and the calls it makes, in order.  The fetch is always made; each
    later call is made when the one before it returned, and the engine
    output was not blank for the last two. *)
Inductive page_run {W} (host : Host W) (config : Config) (cssInfo : CssAssetInfo)
    (p : PageSpec) : PageResult -> list event -> Prop :=
| not_fetched (e : jsstring) :
    page_run host config cssInfo p
      (Result p false None (Some e))
      [EvFetch (page_url config p)]
| not_extracted (html e : jsstring) :
    page_run host config cssInfo p
      (Result p false None (Some e))
      [EvFetch (page_url config p);
       EvProcess (beasties_options host config) (sanitize (href cssInfo) html)]
| no_directory (html e : jsstring) :
    page_run host config cssInfo p
      (Result p false None (Some e))
      [EvFetch (page_url config p);
       EvProcess (beasties_options host config) (sanitize (href cssInfo) html);
       EvMkdir (path_dirname host (output_path host config p))]
| not_written (html css e : jsstring) :
    is_blank css = false ->
    page_run host config cssInfo p
      (Result p false None (Some e))
      [EvFetch (page_url config p);
       EvProcess (beasties_options host config) (sanitize (href cssInfo) html);
       EvMkdir (path_dirname host (output_path host config p));
       EvWriteFile (output_path host config p) (trim css)]
| written_out (html css : jsstring) :
    is_blank css = false ->
    page_run host config cssInfo p
      (Result p true (Some (kb_toFixed2 (byteLength (trim css)))) None)
      [EvFetch (page_url config p);
       EvProcess (beasties_options host config) (sanitize (href cssInfo) html);
       EvMkdir (path_dirname host (output_path host config p));
       EvWriteFile (output_path host config p) (trim css)].

(** The engine calls of a trace, with their options. *)
Definition engine_calls (tr : list event) : list (object * jsstring) :=
  flat_map (fun ev => match ev with
                      | EvProcess options html => [(options, html)]
                      | _ => []
                      end) tr.

(** An own property of an object given once. *)
Definition given_once (o : object) : Prop := NoDup (map fst o).

(** A page the command accepts: an object whose [uri] and [template] are
    strings that are not empty. *)
Definition acceptable_page (page : json) : Prop :=
  exists props u us t ts,
    page = JObj props
    /\ assoc (js "uri") props = Some (JStr (u :: us))
    /\ assoc (js "template") props = Some (JStr (t :: ts)).

(** A trace in which every [writeFile] comes right after the [mkdir] of
    the directory of the file it writes. *)
Definition write_follows_mkdir {W} (host : Host W) (tr : list event) : Prop :=
  forall before path content after,
    tr = before ++ EvWriteFile path content :: after ->
    exists before', before = before' ++ [EvMkdir (path_dirname host path)].

(** A trace that does not begin with a [writeFile]. *)
Definition no_write_head (tr : list event) : Prop :=
  match tr with
  | EvWriteFile _ _ :: _ => False
  | _ => True
  end.

(** The options of lines 77-78, before those of the configuration are
    copied over them. *)
Definition computed_options {W} (host : Host W) (config : Config) : object :=
  [ (js "path", JStr (path_resolve host (projectRoot config) (publicDir config)));
    (js "publicPath", JStr (publicPath config)) ].

(** What the [import] of line 19 gives, from the world [w] the command
    starts in: the file is [critical-css.config.mjs] in the working
    directory, read after [dotenv] was loaded. *)
Definition imported {W} (host : Host W) (shell : Shell W) (w : W)
  : outcome exported * W :=
  let w0 := sh_dotenv shell w in
  sh_import shell (path_resolve host (sh_cwd shell w0) (js "critical-css.config.mjs")) w0.

(** The command is set up for [config]: the configuration file exports
    an object, its [pages] are a list, not empty, of acceptable pages,
    [CRITICAL_URL] is set and not empty, and [config] is what lines
    92-109 make of them. *)
Definition set_up {W} (host : Host W) (shell : Shell W) (w : W) (config : Config)
  : Prop :=
  exists userConfig items url,
    fst (imported host shell w) = Ok (AnObject userConfig)
    /\ UserConfig.pages userConfig = Some (JArr items)
    /\ items <> []
    /\ Forall acceptable_page items
    /\ sh_env shell (js "CRITICAL_URL") (snd (imported host shell w)) = Some url
    /\ url <> []
    /\ config = merged_config host (sh_cwd shell (sh_dotenv shell w))
                  (normalizedUrl url) userConfig items.

(** ** Two worlds a run cannot tell apart *)

(** A call that, in two worlds related by [R], gives the same answer and
    leaves worlds that are related again. *)
Definition same_answer {W A} (R : W -> W -> Prop) (op : W -> outcome A * W) : Prop :=
  forall w1 w2, R w1 w2 ->
    fst (op w1) = fst (op w2) /\ R (snd (op w1)) (snd (op w2)).

(** [R] relates worlds that answer alike to a run with the configuration
    [config]: each call such a run can make has the same answer in
    both, and leaves them related.  The calls are the [mkdir] of the
    output directory, the two reads of the locator, the fetch of a
    configured page, the engine with the options of the run, and the
    [mkdir] and the [writeFile] for the output file of a configured
    page.  Nothing is asked of a read of any other file: a host may
    give back there what was written. *)
Record indistinguishable {W} (host : Host W) (config : Config)
    (R : W -> W -> Prop) : Prop := {
  alike_mkdir_output :
    same_answer R (host_mkdir host (outputDir config));
  alike_manifest :
    same_answer R
      (host_readFile host (path_resolve host (projectRoot config) (manifestPath config)));
  alike_assets :
    same_answer R
      (host_readdir host (path_resolve host (projectRoot config) (js "web/dist/assets")));
  alike_fetch : forall p, In p (pages config) ->
    same_answer R (host_fetch host (page_url config p));
  alike_process : forall html,
    same_answer R (host_process host (beasties_options host config) html);
  alike_mkdir : forall p, In p (pages config) ->
    same_answer R (host_mkdir host (path_dirname host (output_path host config p)));
  alike_writeFile : forall p content, In p (pages config) ->
    same_answer R (host_writeFile host (output_path host config p) content)
}.

(** A computation that, from two states with the same trace and related
    worlds, gives the same result and the same trace, and leaves worlds
    that are related again. *)
Definition alike {W A} (R : W -> W -> Prop) (c : M W A) : Prop :=
  forall st1 st2, trace st1 = trace st2 -> R (world st1) (world st2) ->
    fst (c st1) = fst (c st2)
    /\ trace (snd (c st1)) = trace (snd (c st2))
    /\ R (world (snd (c st1))) (world (snd (c st2))).

(* ================================================================== *)
(** * Tags and blocks, stated on the text itself *)
(* ================================================================== *)

(** The three patterns of the program are characterised below without
    the matcher: first by scanners written on strings, then by
    propositions that say what a style block or a link to a style sheet
    looks like. *)

(** Equality up to the case of ASCII letters. *)
Definition ci_eq (a b : jsstring) : Prop := map canonicalize a = map canonicalize b.

(** [s] begins with [w], up to the case of ASCII letters. *)
Definition begins_ci (w s : jsstring) : Prop :=
  exists x y, s = x ++ y /\ ci_eq x w.

(** A sequence of single-unit matchers tried at the head of [s]. *)
Fixpoint atoms_match (ic : bool) (ws : list cset) (s : jsstring) : bool :=
  match ws, s with
  | [], _ => true
  | a :: ws', u :: s' => cset_matches ic a u && atoms_match ic ws' s'
  | _ :: _, [] => false
  end.

Definition strip_atoms (ic : bool) (ws : list cset) (s : jsstring)
  : option (jsstring * jsstring) :=
  if atoms_match ic ws s then Some (firstn (length ws) s, skipn (length ws) s) else None.

Definition advance_by (n : nat) (st : mstate) : mstate :=
  MState (consumed st + n) (group_from st) (group_span st).

(** The word [ws] stands somewhere in [s] before the first [>]. *)
Fixpoint word_in_tag (ic : bool) (ws : list cset) (s : jsstring) : bool :=
  match s with
  | [] => atoms_match ic ws []
  | u :: s' =>
      if (u =? 62)%N then atoms_match ic ws s
      else atoms_match ic ws s || word_in_tag ic ws s'
  end.

Definition word (s : string) : list cset := map CChar (js s).

(** [rel=["']stylesheet["']]. *)
Definition rel_word : list cset :=
  word "rel=" ++ [quote] ++ word "stylesheet" ++ [quote].

(** A style block at the head of [s]: the opening word, the attributes up
    to the first [>], the body up to the first closing word. *)
Definition style_at (s : jsstring) : option rmatch :=
  match strip_atoms true (word "<style") s with
  | Some (op, s1) =>
      match indexOf [62%N] s1 with
      | Some (attrs, s2) =>
          match search (strip_atoms true (word "</style>")) s2 with
          | Some (body, (cl, rest)) =>
              Some (RMatch [] (op ++ attrs ++ [62%N] ++ body ++ cl) body rest)
          | None => None
          end
      | None => None
      end
  | None => None
  end.

(** A link to a style sheet at the head of [s]. *)
Definition link_at (s : jsstring) : option rmatch :=
  match strip_atoms true (word "<link") s with
  | Some (op, s1) =>
      if word_in_tag true rel_word s1 then
        match indexOf [62%N] s1 with
        | Some (attrs, rest) => Some (RMatch [] (op ++ attrs ++ [62%N]) [] rest)
        | None => None
        end
      else None
  | None => None
  end.

(** A style block at the head of [s] whose opening tag holds
    [data-href]. *)
Definition marked_at (s : jsstring) : option rmatch :=
  match strip_atoms true (word "<style") s with
  | Some (op, s1) => if word_in_tag true (word "data-href") s1 then style_at s else None
  | None => None
  end.

(** A pattern none of whose matches is empty. *)
Definition never_empty (r : regex) : Prop :=
  forall s m, attempt r s = Some m -> m_text m <> [].

Definition is_quote (u : N) : Prop := u = 34%N \/ u = 39%N.

(** [op attrs > body cl] is a style block as the pattern of lines 95 and
    114 takes it: [op] is [<style] and [cl] is [</style>] in any case of
    letters, the attributes hold no [>], and no closing tag begins inside
    the body (the star of the body is lazy). *)
Definition style_block (op attrs body cl : jsstring) : Prop :=
  ci_eq op (js "<style") /\ ~ In 62%N attrs /\ ci_eq cl (js "</style>")
  /\ forall b1 b2, body = b1 ++ b2 -> b2 <> [] -> ~ begins_ci (js "</style>") (b2 ++ cl).

(** Some style block begins [s]. *)
Definition style_block_begins (s : jsstring) : Prop :=
  exists op attrs body cl rest,
    s = op ++ attrs ++ [62%N] ++ body ++ cl ++ rest
    /\ ci_eq op (js "<style") /\ ~ In 62%N attrs /\ ci_eq cl (js "</style>").

(** The attributes hold [rel=] followed by [stylesheet] between quotes. *)
Definition holds_rel_stylesheet (attrs : jsstring) : Prop :=
  exists a1 r q1 w q2 a2,
    attrs = a1 ++ r ++ [q1] ++ w ++ [q2] ++ a2
    /\ ci_eq r (js "rel=") /\ is_quote q1 /\ ci_eq w (js "stylesheet") /\ is_quote q2.

(** [op attrs >] is a link to a style sheet as the pattern of line 100
    takes it. *)
Definition stylesheet_link (op attrs : jsstring) : Prop :=
  ci_eq op (js "<link") /\ ~ In 62%N attrs /\ holds_rel_stylesheet attrs.

Definition stylesheet_link_begins (s : jsstring) : Prop :=
  exists op attrs rest, s = op ++ attrs ++ [62%N] ++ rest /\ stylesheet_link op attrs.

(** The attributes hold the marker [data-href]. *)
Definition holds_marker (attrs : jsstring) : Prop :=
  exists a1 w a2, attrs = a1 ++ w ++ a2 /\ ci_eq w (js "data-href").

(** Some style block with the marker begins [s]. *)
Definition marked_block_begins (s : jsstring) : Prop :=
  exists op attrs body cl rest,
    s = op ++ attrs ++ [62%N] ++ body ++ cl ++ rest
    /\ ci_eq op (js "<style") /\ ~ In 62%N attrs /\ holds_marker attrs
    /\ ci_eq cl (js "</style>").

(* ================================================================== *)
(** * Concrete hosts, for running the program on examples *)
(* ================================================================== *)

(** A host fixed by tables: what each URL answers, what the manifest file
    holds and parses to, what the assets directory lists and what the
    engine returns.  Paths are joined with a slash, as [path.join] and
    [path.resolve] do for normalised relative segments. *)
Record scenario := {
  sc_fetch : jsstring -> outcome response;
  sc_manifest : outcome jsstring;
  sc_parse : jsstring -> outcome json;
  sc_listing : outcome (list jsstring);
  sc_mkdir : jsstring -> outcome unit;
  sc_engine : jsstring -> outcome jsstring
}.

Definition slash_join (segments : list jsstring) : jsstring :=
  match segments with
  | [] => js "."
  | first :: rest => fold_left (fun acc seg => acc ++ js "/" ++ seg) rest first
  end.

Definition slash_dirname (path : jsstring) : jsstring :=
  let fix go (s acc best : jsstring) : jsstring :=
    match s with
    | [] => best
    | u :: s' => if (u =? 47)%N then go s' (acc ++ [u]) acc else go s' (acc ++ [u]) best
    end in
  go path [] (js ".").

Definition scenario_host (sc : scenario) : Host unit := {|
  host_fetch := fun url w => (sc_fetch sc url, w);
  host_readFile := fun _ w => (sc_manifest sc, w);
  host_readdir := fun _ w => (sc_listing sc, w);
  host_mkdir := fun path w => (sc_mkdir sc path, w);
  host_writeFile := fun _ _ w => (Ok tt, w);
  host_process := fun _ html w => (sc_engine sc html, w);
  JSON_parse := sc_parse sc;
  path_resolve := fun a b => slash_join [a; b];
  path_join := slash_join;
  path_dirname := slash_dirname
|}.

Definition demo_page : jsstring :=
  js "<html><head><style>a{color:red}</style><link rel=" ++ dquote
  ++ js "stylesheet" ++ dquote ++ js " href=" ++ dquote ++ js "x.css"
  ++ dquote ++ js "></head><body><h1>Hi</h1></body></html>".

Definition demo_output : jsstring :=
  js "<html><head><style data-href=" ++ dquote ++ js "/dist/assets/app.css"
  ++ dquote ++ js "> h1{color:blue} </style></head><body><h1>Hi</h1></body></html>".

Definition demo_manifest : json :=
  JObj [(js "src/js/app.ts",
         JObj [(js "file", JStr (js "assets/app.js"));
               (js "css", JArr [JStr (js "assets/app.css")])])].

(** Three pages: the first two are served, the engine finds rules for the
    first only, and the third answers 404. *)
Definition demo : scenario := {|
  sc_fetch := fun url =>
    if endsWith (js "/missing") url
    then Ok (Response 404 (js "Not Found") (Ok []))
    else if endsWith (js "/about") url
    then Ok (Response 200 (js "OK") (Ok (js "<html><head></head><body></body></html>")))
    else Ok (Response 200 (js "OK") (Ok demo_page));
  sc_manifest := Ok (js "{}");
  sc_parse := fun _ => Ok demo_manifest;
  sc_listing := Ok [js "app.js"; js "app.css"];
  sc_mkdir := fun _ => Ok tt;
  sc_engine := fun html =>
    if includes (js "<h1>") html then Ok demo_output else Ok html
|}.

Definition demo_config : Config := {|
  projectRoot := js "/site";
  baseUrl := js "https://site.test";
  outputDir := js "/site/web/dist/criticalcss";
  manifestPath := js "web/dist/.vite/manifest.json";
  appEntry := js "src/js/app.ts";
  publicDir := js "web";
  publicPath := js "/";
  pages := [Page (js "/") (js "index");
            Page (js "/about") (js "about/index");
            Page (js "/missing") (js "missing")];
  beasties := [(js "preload", JStr (js "none"))]
|}.

(** The style sheet the demo locates. *)
Definition demo_css : CssAssetInfo :=
  CssInfo (js "/site/web/dist/assets/app.css") (js "/dist/assets/app.css").

(** What the run of the demo returns and the state it ends in. *)
Definition demo_summary : RunSummary :=
  Eval vm_compute in
    match fst (run (scenario_host demo) demo_config tt) with
    | Ok summary => summary
    | Throw _ => Summary [] 0 0
    end.

Definition demo_final : state unit :=
  Eval vm_compute in snd (run (scenario_host demo) demo_config tt).

(** The first two pages of the demo, their records and the state after
    them. *)
Definition demo_first_two : list PageSpec :=
  [Page (js "/") (js "index"); Page (js "/about") (js "about/index")].

Definition demo_first_two_results : list PageResult :=
  Eval vm_compute in
    match fst (process_pages (scenario_host demo) demo_config demo_css
                 demo_first_two [] (State tt [])) with
    | Ok rs => rs
    | Throw _ => []
    end.

Definition demo_first_two_state : state unit :=
  Eval vm_compute in
    snd (process_pages (scenario_host demo) demo_config demo_css
           demo_first_two [] (State tt [])).

(** A manifest whose entry gives [css] as a string instead of a list. *)
Definition string_css_manifest : json :=
  JObj [(js "src/js/app.ts", JObj [(js "css", JStr (js "app.css"))])].

Definition string_css : scenario := {|
  sc_fetch := sc_fetch demo;
  sc_manifest := Ok (js "{}");
  sc_parse := fun _ => Ok string_css_manifest;
  sc_listing := Ok [js "main.css"];
  sc_mkdir := fun _ => Ok tt;
  sc_engine := sc_engine demo
|}.

(** No manifest and no style sheet among the assets. *)
Definition nothing_built : scenario := {|
  sc_fetch := sc_fetch demo;
  sc_manifest := Throw (js "ENOENT: no such file or directory");
  sc_parse := fun _ => Throw (js "Unexpected end of JSON input");
  sc_listing := Ok [js "app.js"];
  sc_mkdir := fun _ => Ok tt;
  sc_engine := sc_engine demo
|}.

(** A manifest whose entry gives [css] as a string, and no style sheet
    among the assets. *)
Definition string_css_unbuilt : scenario := {|
  sc_fetch := sc_fetch demo;
  sc_manifest := Ok (js "{}");
  sc_parse := fun _ => Ok string_css_manifest;
  sc_listing := Ok [js "app.js"];
  sc_mkdir := fun _ => Ok tt;
  sc_engine := sc_engine demo
|}.

(** A manifest whose entry lists no CSS file, and no style sheet among
    the assets. *)
Definition empty_css_manifest : json :=
  JObj [(js "src/js/app.ts",
         JObj [(js "file", JStr (js "assets/app.js")); (js "css", JArr [])])].

Definition empty_css_list : scenario := {|
  sc_fetch := sc_fetch demo;
  sc_manifest := Ok (js "{}");
  sc_parse := fun _ => Ok empty_css_manifest;
  sc_listing := Ok [js "app.js"];
  sc_mkdir := fun _ => Ok tt;
  sc_engine := sc_engine demo
|}.

(** No manifest, and two style sheets among the assets. *)
Definition no_manifest : scenario := {|
  sc_fetch := sc_fetch demo;
  sc_manifest := Throw (js "ENOENT: no such file or directory");
  sc_parse := fun _ => Throw (js "Unexpected end of JSON input");
  sc_listing := Ok [js "app.js"; js "main.css"; js "print.css"];
  sc_mkdir := fun _ => Ok tt;
  sc_engine := sc_engine demo
|}.

(** The addresses of the three pages of the demo. *)
Definition demo_urls : list jsstring :=
  [js "https://site.test/"; js "https://site.test/about"; js "https://site.test/missing"].

(** The page of the demo once sanitized for the style sheet [sheet]. *)
Definition sanitized_demo (sheet : jsstring) : jsstring :=
  js "<html><head>" ++ placeholder ++ link_tag sheet ++ [10%N]
  ++ js "</head><body><h1>Hi</h1></body></html>".

(** A style sheet whose name holds two dollar signs. *)
Definition dollar_href : jsstring := js "/dist/assets/a$$b.css".

(** A fragment with a style block and a link but no closing head tag. *)
Definition headless_page : jsstring :=
  js "<style>a{color:red}</style><link rel=" ++ dquote ++ js "stylesheet" ++ dquote
  ++ js " href=" ++ dquote ++ js "x.css" ++ dquote ++ js ">".

(** A link whose [rel] value is written without quotes. *)
Definition unquoted_link_page : jsstring :=
  js "<html><head><link rel=stylesheet href=x.css></head></html>".

(** No closing head tag until the link inside it is removed. *)
Definition split_head_page : jsstring :=
  js "<html><head></he<link rel='stylesheet'>ad><body></body></html>".

(** The only closing head tag stands inside a style block. *)
Definition head_in_style_page : jsstring :=
  js "<html><head><style>/*</head>*/</style><body></body></html>".

(** An engine output with one new style block that carries no marker. *)
Definition unmarked_output : jsstring :=
  js "<html><head><style>h1{color:blue}</style></head></html>".

(** An engine output whose new style block names a class
    [existing-style-placeholder]. *)
Definition word_in_css_output : jsstring :=
  js "<html><head><style>.existing-style-placeholder{color:red}</style></head></html>".

(** An engine output with two new style blocks, the second of which
    holds [data-href] in the value of another attribute. *)
Definition marker_in_value_output : jsstring :=
  js "<style>a{}</style><style title='data-href'>b{}</style>".

(** An engine output whose marked block holds white space only. *)
Definition blank_marked_output : jsstring :=
  js "<html><head><style data-href='/dist/assets/app.css'> " ++ [10%N]
  ++ js " </style></head></html>".

(** A process in the directory [/site] whose configuration file exports
    [userConfig] and whose environment gives [CRITICAL_URL] the value
    [url]. *)
Definition demo_shell (userConfig : exported) (url : option jsstring) : Shell unit := {|
  sh_dotenv := fun w => w;
  sh_cwd := fun _ => js "/site";
  sh_import := fun _ w => (Ok userConfig, w);
  sh_env := fun name _ => if str_eqb name (js "CRITICAL_URL") then url else None
|}.

Definition json_page (uri template : string) : json :=
  JObj [(js "uri", JStr (js uri)); (js "template", JStr (js template))].

(** A configuration file that gives the three pages of the demo and
    nothing else. *)
Definition demo_user_config : UserConfig.t :=
  UserConfig.Make
    (Some (JArr [json_page "/" "index"; json_page "/about" "about/index";
                 json_page "/missing" "missing"]))
    None None None None None None.

(** A configuration file with the first page of the demo only, and an
    option of its own for the engine. *)
Definition one_page_user_config : UserConfig.t :=
  UserConfig.Make
    (Some (JArr [json_page "/" "index"]))
    None None None None None
    (Some [(js "preload", JStr (js "swap")); (js "path", JStr (js "/srv/www"))]).

(** The value of [CRITICAL_URL] in the demo, with a slash at its end. *)
Definition demo_url : option jsstring := Some (js "https://site.test/").

(** The state the command ends in for the configuration of one page. *)
Definition one_page_final : state unit :=
  Eval vm_compute in
    snd (main (scenario_host demo)
           (demo_shell (AnObject one_page_user_config) demo_url) (State tt [])).

(** The records of the first two pages of the demo, and the file and the
    text written for the first. *)
Definition demo_index_record : PageResult :=
  Result (Page (js "/") (js "index")) true (Some (js "0.01")) None.

Definition demo_about_record : PageResult :=
  Result (Page (js "/about") (js "about/index")) false None (Some no_critical_message).

Definition demo_index_file : jsstring :=
  js "/site/web/dist/criticalcss/index_critical.min.css".

Definition demo_index_css : jsstring := js "h1{color:blue}".

(** The configuration the command makes of the file with one page. *)
Definition one_page_config : Config :=
  merged_config (scenario_host demo) (js "/site") (js "https://site.test")
    one_page_user_config [json_page "/" "index"].

(** ** A host with a disk *)

(** The files of a disk, by their paths.  Writing replaces the text of a
    file that exists and adds the file after the others when it does
    not. *)
Definition disk := list (jsstring * jsstring).

Fixpoint disk_read (path : jsstring) (d : disk) : option jsstring :=
  match d with
  | [] => None
  | (p, content) :: d' => if str_eqb p path then Some content else disk_read path d'
  end.

Fixpoint disk_write (path content : jsstring) (d : disk) : disk :=
  match d with
  | [] => [(path, content)]
  | (p, c) :: d' =>
      if str_eqb p path then (p, content) :: d' else (p, c) :: disk_write path content d'
  end.

(** The name of the file [path] when it lies in the directory [dir]
    itself. *)
Definition name_in (dir path : jsstring) : option jsstring :=
  match strip_prefix (dir ++ js "/") path with
  | Some name => if includes (js "/") name then None else Some name
  | None => None
  end.

(** The names of the files of a directory, in the order of the disk. *)
Definition disk_list (dir : jsstring) (d : disk) : list jsstring :=
  flat_map (fun file => match name_in dir (fst file) with
                        | Some name => [name]
                        | None => []
                        end) d.

(** The host of a scenario whose files are on a disk: [readFile] and
    [readdir] answer from the disk, what was written to it included,
    [writeFile] changes it, and the engine [engine] may read it.  The
    network and the outcome of [mkdir] are those of the scenario.  The
    disk holds files only: paths are compared as they are written, a
    directory is listed as the files whose path is the directory
    followed by a name, and [mkdir] leaves the disk as it is. *)
Definition disk_host (sc : scenario)
    (engine : object -> jsstring -> disk -> outcome jsstring) : Host disk := {|
  host_fetch := fun url d => (sc_fetch sc url, d);
  host_readFile := fun path d =>
    (match disk_read path d with
     | Some content => Ok content
     | None => Throw (js "ENOENT: no such file or directory")
     end, d);
  host_readdir := fun dir d =>
    (match disk_list dir d with
     | [] => Throw (js "ENOENT: no such file or directory")
     | names => Ok names
     end, d);
  host_mkdir := fun path d => (sc_mkdir sc path, d);
  host_writeFile := fun path content d => (Ok tt, disk_write path content d);
  host_process := fun options html d => (engine options html d, d);
  JSON_parse := sc_parse sc;
  path_resolve := fun a b => slash_join [a; b];
  path_join := slash_join;
  path_dirname := slash_dirname
|}.

(** The disk after the writes of a trace. *)
Definition disk_after (calls : list event) (d : disk) : disk :=
  fold_left (fun d file => disk_write (fst file) (snd file) d) (written calls) d.

(** A computation on a disk that changes it by its writes only. *)
Definition keeps_disk {A} (c : M disk A) : Prop :=
  forall st, exists calls,
    trace (snd (c st)) = trace st ++ calls
    /\ world (snd (c st)) = disk_after calls (world st).

(** The file [path] is the output file of a configured page. *)
Definition is_output {W} (host : Host W) (config : Config) (path : jsstring) : Prop :=
  exists p, In p (pages config) /\ path = output_path host config p.

(** No output file of the configuration is the manifest file or a file
    of the assets directory. *)
Definition outputs_apart {W} (host : Host W) (config : Config) : Prop :=
  forall path, is_output host config path ->
    path <> path_resolve host (projectRoot config) (manifestPath config)
    /\ name_in (path_resolve host (projectRoot config) (js "web/dist/assets")) path
       = None.

(** The engine, called with the options of the run, does not read the
    output files: writing one of them does not change what it
    returns. *)
Definition engine_apart {W} (host : Host W) (config : Config)
    (engine : object -> jsstring -> disk -> outcome jsstring) : Prop :=
  forall path content html d, is_output host config path ->
    engine (beasties_options host config) html (disk_write path content d)
    = engine (beasties_options host config) html d.

(** Two disks that differ by writes to output files. *)
Inductive differ_by_outputs {W} (host : Host W) (config : Config) : disk -> disk -> Prop :=
| same_disk (d : disk) : differ_by_outputs host config d d
| output_on_the_left (path content : jsstring) (d1 d2 : disk) :
    is_output host config path -> differ_by_outputs host config d1 d2 ->
    differ_by_outputs host config (disk_write path content d1) d2
| output_on_the_right (path content : jsstring) (d1 d2 : disk) :
    is_output host config path -> differ_by_outputs host config d1 d2 ->
    differ_by_outputs host config d1 (disk_write path content d2).

(** An engine that reads a style sheet from the disk: the sheet a link
    of the document names under [/dist/assets/], looked for in the
    directory the option [path] gives.  For a document with a heading
    and a sheet with a rule for it, it returns the output of the demo,
    where that rule is inlined; otherwise it returns the document as it
    is. *)
Definition sheet_engine (options : object) (html : jsstring) (d : disk)
  : outcome jsstring :=
  match assoc (js "path") options,
        indexOf (js "href=" ++ dquote ++ js "/dist/assets/") html with
  | Some (JStr root), Some (_, after) =>
      match indexOf dquote after with
      | Some (name, _) =>
          match disk_read (root ++ js "/dist/assets/" ++ name) d with
          | Some sheet =>
              if includes (js "<h1>") html && includes (js "h1{color:blue}") sheet
              then Ok demo_output
              else Ok html
          | None => Ok html
          end
      | None => Ok html
      end
  | _, _ => Ok html
  end.

(** The disk of the demo after the build: the manifest, a script and the
    style sheet. *)
Definition demo_disk : disk :=
  [ (js "/site/web/dist/.vite/manifest.json", js "{}");
    (js "/site/web/dist/assets/app.js", js "export{}");
    (js "/site/web/dist/assets/app.css", js "a{color:red}h1{color:blue}") ].

(** The same disk with a style sheet that has no rule for the heading. *)
Definition bare_disk : disk :=
  [ (js "/site/web/dist/.vite/manifest.json", js "{}");
    (js "/site/web/dist/assets/app.js", js "export{}");
    (js "/site/web/dist/assets/app.css", js "a{color:red}") ].

(* ================================================================== *)
(** * The loop over the pages and the summary *)
(* ================================================================== *)

(** Case analysis on the scrutinee of the first [match] of the goal. *)
Ltac step :=
  match goal with
  | |- context [match ?x with _ => _ end] =>
      match x with
      | context [match _ with _ => _ end] => fail 1
      | _ => destruct x eqn:?
      end
  end.

Lemma count_filter {A} (f : A -> bool) (l : list A) :
  length (filter f l) = count f l.
Proof.
  induction l as [|x l IH]; simpl; [reflexivity|].
  destruct (f x); simpl; rewrite IH; reflexivity.
Qed.

Lemma count_split {A} (f : A -> bool) (l : list A) :
  count f l + count (fun x => negb (f x)) l = length l.
Proof.
  induction l as [|x l IH]; simpl; [reflexivity|].
  destruct (f x); simpl; lia.
Qed.

Section Loop.

Context {W : Type} (host : Host W).

(** The body of the loop never throws: whatever happens inside the [try]
    ends in a record for the page. *)
Lemma process_page_returns (config : Config) (cssInfo : CssAssetInfo)
    (p : PageSpec) (st : state W) :
  exists r st', process_page host config cssInfo p st = (Ok r, st') /\ page r = p.
Proof.
  unfold process_page, try_catch, bind, ret.
  repeat step; try discriminate;
    repeat match goal with
           | H : (_, _) = (_, _) |- _ => inversion H; subst; clear H
           end;
    eexists; eexists; split; try reflexivity; reflexivity.
Qed.

(** The loop returns, with one record per page after those it began
    with, in the order of the pages. *)
Lemma process_pages_returns (config : Config) (cssInfo : CssAssetInfo)
    (ps : list PageSpec) :
  forall (acc : list PageResult) (st : state W),
  exists rs st',
    process_pages host config cssInfo ps acc st = (Ok (acc ++ rs), st')
    /\ map page rs = ps.
Proof.
  induction ps as [|p ps IH]; intros acc st; simpl.
  - exists [], st. rewrite app_nil_r. split; reflexivity.
  - unfold bind.
    destruct (process_page_returns config cssInfo p st) as (r & st1 & E & Hp).
    rewrite E.
    destruct (IH (acc ++ [r]) st1) as (rs & st2 & E2 & Hps).
    exists (r :: rs), st2. rewrite E2, <- app_assoc. simpl.
    split; [reflexivity | now rewrite Hp, Hps].
Qed.

(** What a returned summary is made of. *)
Lemma summary_shape (config : Config) (st st' : state W) (summary : RunSummary) :
  generateCriticalCss host config st = (Ok summary, st') ->
  map page (results summary) = pages config
  /\ successful summary = length (filter (fun r => success r) (results summary))
  /\ failed summary = length (filter (fun r => negb (success r)) (results summary)).
Proof.
  unfold generateCriticalCss, bind, ret. intros H.
  destruct (mkdir host (outputDir config) st) as [[[]|e] st1]; [|discriminate].
  destruct (getBuiltCssInfo host config st1) as [[cssInfo|e] st2]; [|discriminate].
  destruct (process_pages_returns config cssInfo (pages config) [] st2)
    as (rs & st3 & E & Hp).
  rewrite E in H. simpl in H. inversion H; subst; clear H. simpl.
  repeat split; assumption.
Qed.

(** The run returns a summary as soon as the output directory could be
    created and a style sheet was located. *)
Lemma generateCriticalCss_returns (config : Config) (st st1 st2 : state W)
    (cssInfo : CssAssetInfo) :
  mkdir host (outputDir config) st = (Ok tt, st1) ->
  getBuiltCssInfo host config st1 = (Ok cssInfo, st2) ->
  exists summary st', generateCriticalCss host config st = (Ok summary, st').
Proof.
  intros Hm Hc. unfold generateCriticalCss, bind, ret. rewrite Hm, Hc.
  destruct (process_pages_returns config cssInfo (pages config) [] st2)
    as (rs & st3 & E & _).
  rewrite E. eexists. eexists. reflexivity.
Qed.

(** C1.  The summary a run returns counts every result once:
    [successful + failed] is the number of results, [successful] is the
    number of results whose [success] is true, [failed] the number of
    those whose [success] is false, and a result lies in exactly one of
    the two lists the counts are taken from.  This holds for every list
    of pages, the empty one included. *)
Theorem partition_invariant (config : Config) (st st' : state W)
    (summary : RunSummary) :
  generateCriticalCss host config st = (Ok summary, st') ->
  successful summary + failed summary = length (results summary)
  /\ successful summary = count (fun r => success r) (results summary)
  /\ failed summary = count (fun r => negb (success r)) (results summary)
  /\ forall r, In r (results summary) ->
       (success r = true
        /\ In r (filter (fun r => success r) (results summary))
        /\ ~ In r (filter (fun r => negb (success r)) (results summary)))
       \/
       (success r = false
        /\ In r (filter (fun r => negb (success r)) (results summary))
        /\ ~ In r (filter (fun r => success r) (results summary))).
Proof.
  intros H. destruct (summary_shape _ _ H) as (_ & Hs & Hf).
  rewrite count_filter in Hs, Hf.
  repeat split; try assumption.
  - rewrite Hs, Hf. apply count_split.
  - intros r Hr. destruct (success r) eqn:E; [left | right];
      (split; [reflexivity|]); split.
    + apply filter_In. now split.
    + intros Hin. apply filter_In in Hin. rewrite E in Hin. now destruct Hin.
    + apply filter_In. split; [assumption | now rewrite E].
    + intros Hin. apply filter_In in Hin. rewrite E in Hin. now destruct Hin.
Qed.

(** C2.  The results of a returned summary are one per configured page,
    in the order of the configured pages: the pages of the results, read
    in order, are the list [pages] itself, so result [i] carries page
    [i] and both lists have the same length. *)
Theorem order_preservation (config : Config) (st st' : state W)
    (summary : RunSummary) :
  generateCriticalCss host config st = (Ok summary, st') ->
  map page (results summary) = pages config
  /\ length (results summary) = length (pages config)
  /\ forall i p, nth_error (pages config) i = Some p ->
       exists r, nth_error (results summary) i = Some r /\ page r = p.
Proof.
  intros H. destruct (summary_shape _ _ H) as (Hp & _ & _).
  split; [assumption|]. split.
  - rewrite <- Hp. now rewrite length_map.
  - intros i p Hi. rewrite <- Hp in Hi. rewrite nth_error_map in Hi.
    destruct (nth_error (results summary) i) as [r|]; [|discriminate].
    exists r. split; [reflexivity|]. simpl in Hi. now inversion Hi.
Qed.

End Loop.

Lemma partition_invariant_witness :
  successful demo_summary + failed demo_summary = length (results demo_summary)
  /\ successful demo_summary = 1
  /\ failed demo_summary = 2.
Proof.
  assert (Hrun : generateCriticalCss (scenario_host demo) demo_config (State tt [])
                 = (Ok demo_summary, demo_final)) by (vm_compute; reflexivity).
  destruct (partition_invariant (scenario_host demo) demo_config (State tt []) Hrun)
    as (Hsum & Hs & Hf & _).
  split; [exact Hsum|]. split; [rewrite Hs | rewrite Hf]; reflexivity.
Defined.

Lemma order_preservation_witness :
  map page (results demo_summary) = pages demo_config
  /\ length (results demo_summary) = 3.
Proof.
  assert (Hrun : generateCriticalCss (scenario_host demo) demo_config (State tt [])
                 = (Ok demo_summary, demo_final)) by (vm_compute; reflexivity).
  destruct (order_preservation (scenario_host demo) demo_config (State tt []) Hrun)
    as (Hmap & Hlen & _).
  split; [exact Hmap | rewrite Hlen; reflexivity].
Defined.


(* ================================================================== *)
(** * The asset locator *)
(* ================================================================== *)

Section Locator.

Context {W : Type} (host : Host W).

Lemma from_manifest_eq (config : Config) (st : state W)
    (file : outcome jsstring) (w2 : W) :
  host_readFile host
    (path_resolve host (projectRoot config) (manifestPath config)) (world st)
    = (file, w2) ->
  from_manifest host config st
  = (Ok (option_map (located host config) (manifest_yields host config file)),
     State w2 (trace st ++
       [EvReadFile (path_resolve host (projectRoot config) (manifestPath config))])).
Proof.
  intros H. unfold from_manifest, try_catch, bind, readFile, call, of_outcome, ret.
  rewrite H. unfold manifest_yields.
  destruct file as [content|e]; [|reflexivity].
  destruct (JSON_parse host content) as [manifest|e]; [|reflexivity].
  destruct (manifest_css_file manifest (appEntry config)) as [[f|]|e]; reflexivity.
Qed.

Lemma from_assets_eq (config : Config) (st : state W)
    (listing : outcome (list jsstring)) (w3 : W) :
  host_readdir host
    (path_resolve host (projectRoot config) (js "web/dist/assets")) (world st)
    = (listing, w3) ->
  from_assets host config st
  = (Ok (match listing with
         | Ok files =>
             match filter (endsWith (js ".css")) files with
             | first :: _ => Some (located host config (js "assets/" ++ first))
             | [] => None
             end
         | Throw _ => None
         end),
     State w3 (trace st ++
       [EvReaddir (path_resolve host (projectRoot config) (js "web/dist/assets"))])).
Proof.
  intros H. unfold from_assets, try_catch, bind, readdir, call, ret.
  rewrite H. destruct listing as [files|e]; [|reflexivity].
  destruct (filter (endsWith (js ".css")) files); reflexivity.
Qed.

(** The first element of a filtered list is what [find] returns. *)
Lemma filter_head_find {A} (f : A -> bool) (l : list A) :
  match filter f l with x :: _ => Some x | [] => None end = find f l.
Proof.
  induction l as [|x l IH]; simpl; [reflexivity|].
  destruct (f x); [reflexivity | exact IH].
Qed.

(** On a manifest whose [css] is a list, the program and the
    specification take the same file from it. *)
Lemma manifest_css_file_spec (manifest : json) (key : jsstring) :
  css_is_list manifest key = true ->
  match manifest_css_file manifest key with
  | Ok (Some cssFile) => Some cssFile
  | _ => None
  end = spec_manifest_css manifest key.
Proof.
  unfold css_is_list, manifest_css_file, spec_manifest_css. intros H.
  destruct (Get manifest key) as [entry|] eqn:Eg.
  - assert (Hm : manifest <> JNull) by (intros ->; discriminate).
    assert (Hgo :
      (if truthy entry
       then match Get entry (js "css") with
            | Some css =>
                if truthy css && length_gt_zero css
                then match Get css (js "0") with
                     | Some (JStr cssFile) => Ok (Some cssFile)
                     | _ => Throw (js "The path argument must be of type string")
                     end
                else Ok None
            | None => Ok None
            end
       else Ok None)
      = match match entry with
              | JObj props =>
                  match assoc (js "css") props with
                  | Some (JArr (JStr cssFile :: _)) => Some cssFile
                  | _ => None
                  end
              | _ => None
              end with
        | Some f => Ok (Some f)
        | None =>
            match entry with
            | JObj props =>
                match assoc (js "css") props with
                | Some (JArr (_ :: _)) =>
                    Throw (js "The path argument must be of type string")
                | _ => Ok None
                end
            | _ => Ok None
            end
        end).
    { destruct entry as [| eb | ex | es | eitems | eprops]; simpl in *.
      - reflexivity.
      - destruct eb; reflexivity.
      - destruct (negb (PrimFloat.eqb ex 0) && PrimFloat.eqb ex ex)%bool; reflexivity.
      - destruct es; reflexivity.
      - reflexivity.
      - destruct (assoc (js "css") eprops) as [css|]; [|reflexivity].
        destruct css as [| cb | cx | cs | citems | cprops]; simpl in *;
          try discriminate; try reflexivity.
        + destruct cb; reflexivity.
        + destruct (negb (PrimFloat.eqb cx 0) && PrimFloat.eqb cx cx)%bool; reflexivity.
        + destruct citems as [|[| | | f | |] rest]; reflexivity. }
    destruct manifest; try congruence; rewrite Hgo;
      destruct entry as [| | | | |eprops]; try reflexivity;
      (destruct (assoc (js "css") eprops) as [[| | | |[|[]]|]|]; reflexivity).
  - destruct manifest; reflexivity.
Qed.

(** What the locator does, from what the two reads give. *)
Lemma getBuiltCssInfo_eq (config : Config) (st : state W)
    (file : outcome jsstring) (listing : outcome (list jsstring)) (w2 w3 : W) :
  let manifestFile := path_resolve host (projectRoot config) (manifestPath config) in
  let assetsDir := path_resolve host (projectRoot config) (js "web/dist/assets") in
  host_readFile host manifestFile (world st) = (file, w2) ->
  host_readdir host assetsDir w2 = (listing, w3) ->
  getBuiltCssInfo host config st
  = match manifest_yields host config file with
    | Some cssFile =>
        (Ok (located host config cssFile),
         State w2 (trace st ++ [EvReadFile manifestFile]))
    | None =>
        (match listing with
         | Ok files =>
             match find (endsWith (js ".css")) files with
             | Some first => Ok (located host config (js "assets/" ++ first))
             | None => Throw no_css_message
             end
         | Throw _ => Throw no_css_message
         end,
         State w3 (trace st ++ [EvReadFile manifestFile; EvReaddir assetsDir]))
    end.
Proof.
  intros manifestFile assetsDir Hf Hd.
  unfold getBuiltCssInfo, bind. rewrite (from_manifest_eq config st Hf).
  destruct (manifest_yields host config file) as [f|]; simpl; [reflexivity|].
  rewrite (from_assets_eq config (State w2 _) (w3:=w3) (listing:=listing)) by exact Hd.
  simpl. rewrite <- app_assoc. simpl.
  destruct listing as [files|e]; [|reflexivity].
  rewrite <- filter_head_find.
  destruct (filter (endsWith (js ".css")) files); reflexivity.
Qed.

End Locator.

Section LocatorStatements.

Context {W : Type} (host : Host W).

(** C3, as amended.  Let reading the manifest file at
    [projectRoot/manifestPath] give [file] and listing
    [projectRoot/web/dist/assets] give [listing].  If the manifest, when
    it parses, holds for the configured entry a [css] value that is not
    a string or an object (a list, as in a Vite manifest, or no usable
    value), then the asset locator returns what the reference definition
    of section 4.1 returns: the first file of the entry's non-empty
    [css] list when there is one, otherwise the first listed file that
    ends in [.css], otherwise the "no CSS found" error. *)
Theorem asset_locator_refines_spec (config : Config) (st : state W)
    (file : outcome jsstring) (listing : outcome (list jsstring)) (w2 w3 : W) :
  host_readFile host
    (path_resolve host (projectRoot config) (manifestPath config)) (world st)
    = (file, w2) ->
  host_readdir host
    (path_resolve host (projectRoot config) (js "web/dist/assets")) w2
    = (listing, w3) ->
  (forall content manifest,
      file = Ok content -> JSON_parse host content = Ok manifest ->
      css_is_list manifest (appEntry config) = true) ->
  fst (getBuiltCssInfo host config st) = asset_locator_spec host config file listing.
Proof.
  intros Hf Hd Hshape.
  rewrite (getBuiltCssInfo_eq host config st Hf Hd).
  assert (E : manifest_yields host config file
              = match file with
                | Ok content =>
                    match JSON_parse host content with
                    | Ok manifest => spec_manifest_css manifest (appEntry config)
                    | Throw _ => None
                    end
                | Throw _ => None
                end).
  { unfold manifest_yields. destruct file as [content|e]; [|reflexivity].
    destruct (JSON_parse host content) as [manifest|e] eqn:Ep; [|reflexivity].
    apply manifest_css_file_spec. now apply (Hshape content). }
  unfold asset_locator_spec, spec_first_css. rewrite <- E.
  destruct (manifest_yields host config file) as [f|]; [reflexivity|].
  destruct listing as [files|e]; [|reflexivity].
  destruct (find (endsWith (js ".css")) files); reflexivity.
Qed.


End LocatorStatements.

Lemma asset_locator_refines_spec_witness :
  fst (getBuiltCssInfo (scenario_host demo) demo_config (State tt []))
  = asset_locator_spec (scenario_host demo) demo_config
      (Ok (js "{}")) (Ok [js "app.js"; js "app.css"]).
Proof.
  apply (asset_locator_refines_spec (scenario_host demo) demo_config (State tt [])
           (file := Ok (js "{}")) (listing := Ok [js "app.js"; js "app.css"])
           (w2 := tt) (w3 := tt)).
  - reflexivity.
  - reflexivity.
  - intros content manifest _ Hparse. simpl in Hparse.
    inversion Hparse; subst. vm_compute. reflexivity.
Defined.

(** C3, the statement of the specification fails.  On a manifest that
    parses and whose configured entry gives [css] as the string ["app.css"], the entry
    holds no non-empty list of CSS files, so the reference definition
    falls back to the assets directory and returns [assets/main.css];
    the program takes the first code unit of the string as the file and
    returns [/dist/a]. *)
Lemma asset_locator_differs_on_string_css :
  fst (getBuiltCssInfo (scenario_host string_css) demo_config (State tt []))
  = Ok (CssInfo (js "/site/web/dist/a") (js "/dist/a"))
  /\ asset_locator_spec (scenario_host string_css) demo_config
       (Ok (js "{}")) (Ok [js "main.css"])
     = Ok (CssInfo (js "/site/web/dist/assets/main.css") (js "/dist/assets/main.css"))
  /\ fst (getBuiltCssInfo (scenario_host string_css) demo_config (State tt []))
     <> asset_locator_spec (scenario_host string_css) demo_config
          (Ok (js "{}")) (Ok [js "main.css"]).
Proof.
  split; [vm_compute; reflexivity|]. split; [vm_compute; reflexivity|].
  vm_compute. discriminate.
Qed.




(* ================================================================== *)
(** * Failures that stay with their page *)
(* ================================================================== *)

Section PageLocal.

Context {W : Type} (host : Host W).

(** The loop over a concatenation is the loop over the first part
    followed by the loop over the second. *)
Lemma process_pages_app (config : Config) (cssInfo : CssAssetInfo)
    (pre post : list PageSpec) :
  forall (acc : list PageResult) (st : state W),
  process_pages host config cssInfo (pre ++ post) acc st
  = bind (process_pages host config cssInfo pre acc)
         (fun rs => process_pages host config cssInfo post rs) st.
Proof.
  induction pre as [|p pre IH]; intros acc st; simpl.
  - reflexivity.
  - unfold bind.
    destruct (process_page host config cssInfo p st) as [[r|e] st1].
    + rewrite IH. reflexivity.
    + reflexivity.
Qed.

(** C5.  Let the page [p] be reached after the pages [pre], in state
    [st1], and let its fetch answer with a status outside 200-299.  Then
    [fetchHtml] throws an error whose message holds the URL, the status
    code in decimal and the status text; the body of the loop catches it
    and records [{page: p, success: false, error: message}]; and the loop
    goes on with the pages [post] after [p], each of which gets its
    record after that one. *)
Theorem non_2xx_is_page_local (config : Config) (cssInfo : CssAssetInfo)
    (pre post : list PageSpec) (p : PageSpec) (acc rs : list PageResult)
    (st st1 : state W) (resp : response) (w' : W) :
  let url := baseUrl config ++ uri p in
  process_pages host config cssInfo pre acc st = (Ok rs, st1) ->
  host_fetch host url (world st1) = (Ok resp, w') ->
  (status resp < 200 \/ 299 < status resp)%N ->
  let message := js "Failed to fetch " ++ url ++ js ": "
                 ++ nat_to_string (status resp) ++ js " " ++ statusText resp in
  let record := Result p false None (Some message) in
  let st2 := State w' (trace st1 ++ [EvFetch url]) in
  fetchHtml host url st1 = (Throw message, st2)
  /\ process_page host config cssInfo p st1 = (Ok record, st2)
  /\ process_pages host config cssInfo (pre ++ p :: post) acc st
     = process_pages host config cssInfo post (rs ++ [record]) st2
  /\ exists rs' st',
       process_pages host config cssInfo (pre ++ p :: post) acc st
       = (Ok (rs ++ record :: rs'), st')
       /\ map page rs' = post.
Proof.
  intros url Hpre Hfetch Hstatus message record st2.
  assert (Hok : ok resp = false).
  { unfold ok. destruct Hstatus as [H|H].
    - apply N.leb_gt in H. now rewrite H.
    - apply N.leb_gt in H. rewrite H. apply andb_false_r. }
  assert (Hf : fetchHtml host url st1 = (Throw message, st2)).
  { unfold fetchHtml, bind, fetch, call. rewrite Hfetch, Hok. reflexivity. }
  assert (Hp : process_page host config cssInfo p st1 = (Ok record, st2)).
  { unfold process_page, try_catch, bind. fold url. rewrite Hf. reflexivity. }
  assert (Hloop : process_pages host config cssInfo (pre ++ p :: post) acc st
                  = process_pages host config cssInfo post (rs ++ [record]) st2).
  { rewrite process_pages_app. unfold bind at 1. rewrite Hpre. simpl.
    unfold bind at 1. rewrite Hp. reflexivity. }
  repeat split; try assumption.
  destruct (process_pages_returns host config cssInfo post (rs ++ [record]) st2)
    as (rs' & st' & E & Hmap).
  exists rs', st'. rewrite Hloop, E, <- app_assoc. split; [reflexivity | exact Hmap].
Qed.

End PageLocal.

Lemma non_2xx_is_page_local_witness :
  let record :=
    Result (Page (js "/missing") (js "missing")) false None
      (Some (js "Failed to fetch https://site.test/missing: 404 Not Found")) in
  exists rs' st',
    process_pages (scenario_host demo) demo_config demo_css
      (demo_first_two ++ Page (js "/missing") (js "missing")
                      :: [Page (js "/") (js "index")]) [] (State tt [])
    = (Ok (demo_first_two_results ++ record :: rs'), st')
    /\ map page rs' = [Page (js "/") (js "index")].
Proof.
  apply (@non_2xx_is_page_local unit (scenario_host demo) demo_config demo_css
           demo_first_two [Page (js "/") (js "index")]
           (Page (js "/missing") (js "missing")) []
           demo_first_two_results (State tt []) demo_first_two_state
           (Response 404 (js "Not Found") (Ok [])) tt).
  - vm_compute. reflexivity.
  - vm_compute. reflexivity.
  - right. reflexivity.
Defined.


(* ================================================================== *)
(** * Searching, matching and replacing *)
(* ================================================================== *)

Unset Implicit Arguments.


(** ** The leftmost position *)

Lemma search_sound {A} (here : jsstring -> option A) (s : jsstring) :
  forall before a, search here s = Some (before, a) ->
  exists s', s = before ++ s' /\ here s' = Some a
    /\ forall b1 b2, before = b1 ++ b2 -> b2 <> [] -> here (b2 ++ s') = None.
Proof.
  induction s as [|u s IH]; intros before a H; simpl in H.
  - destruct (here []) eqn:E; [|discriminate]. inversion H; subst.
    exists []. repeat split; trivial.
    intros b1 b2 Hb Hne. destruct b1, b2; try discriminate. now elim Hne.
  - destruct (here (u :: s)) eqn:E.
    + inversion H; subst. exists (u :: s). repeat split; trivial.
      intros b1 b2 Hb Hne. destruct b1, b2; try discriminate. now elim Hne.
    + destruct (search here s) as [[b a']|] eqn:Es; [|discriminate].
      inversion H; subst. destruct (IH _ _ eq_refl) as (s' & Hs & Ha & Hfirst).
      exists s'. subst s. repeat split; trivial.
      intros b1 b2 Hb Hne. destruct b1 as [|x b1]; simpl in Hb.
      * subst b2. simpl. exact E.
      * inversion Hb; subst. now apply (Hfirst b1).
Qed.

Lemma search_complete {A} (here : jsstring -> option A) (before s' : jsstring) (a : A) :
  here s' = Some a ->
  (forall b1 b2, before = b1 ++ b2 -> b2 <> [] -> here (b2 ++ s') = None) ->
  search here (before ++ s') = Some (before, a).
Proof.
  induction before as [|u before IH]; intros Ha Hfirst; simpl.
  - destruct s'; simpl; now rewrite Ha.
  - assert (H0 : here ((u :: before) ++ s') = None)
      by (apply (Hfirst [] (u :: before) eq_refl); discriminate).
    simpl in H0. rewrite H0. rewrite IH; trivial.
    intros b1 b2 Hb Hne. apply (Hfirst (u :: b1) b2); [now rewrite Hb | exact Hne].
Qed.

Lemma search_none {A} (here : jsstring -> option A) (s : jsstring) :
  search here s = None <-> forall b s', s = b ++ s' -> here s' = None.
Proof.
  split.
  - induction s as [|u s IH]; simpl; intros H b s' Hs.
    + destruct (here []) eqn:E; [discriminate|].
      destruct b, s'; try discriminate. exact E.
    + destruct (here (u :: s)) eqn:E; [discriminate|].
      destruct (search here s) as [[b0 a]|] eqn:Es; [discriminate|].
      destruct b as [|x b]; simpl in Hs.
      * subst s'. exact E.
      * inversion Hs; subst. now apply (IH eq_refl b).
  - induction s as [|u s IH]; simpl; intros H.
    + now rewrite (H [] [] eq_refl).
    + rewrite (H [] (u :: s) eq_refl).
      rewrite IH; [reflexivity|].
      intros b s' Hs. apply (H (u :: b) s'). now rewrite Hs.
Qed.

(** ** The matcher on the shapes the patterns are made of *)

Lemma advance_is_advance_by (st : mstate) : advance st = advance_by 1 st.
Proof. unfold advance, advance_by. f_equal. lia. Qed.

Lemma advance_by_0 (st : mstate) : advance_by 0 st = st.
Proof. destruct st. unfold advance_by. simpl. f_equal. lia. Qed.

Lemma advance_by_advance (n : nat) (st : mstate) :
  advance_by n (advance st) = advance_by (S n) st.
Proof. unfold advance, advance_by. simpl. f_equal. lia. Qed.

Lemma advance_by_add (n m : nat) (st : mstate) :
  advance_by n (advance_by m st) = advance_by (m + n) st.
Proof. unfold advance_by. simpl. f_equal. lia. Qed.

Lemma matcher_star_greedy_cons ic a p u s st :
  matcher ic (Star true a :: p) (u :: s) st
  = if cset_matches ic a u
    then match matcher ic (Star true a :: p) s (advance st) with
         | Some r => Some r
         | None => matcher ic p (u :: s) st
         end
    else matcher ic p (u :: s) st.
Proof. reflexivity. Qed.

Lemma matcher_star_greedy_nil ic a p st :
  matcher ic (Star true a :: p) [] st = matcher ic p [] st.
Proof. reflexivity. Qed.

Lemma matcher_star_lazy ic a p s st :
  matcher ic (Star false a :: p) s st
  = match matcher ic p s st with
    | Some r => Some r
    | None =>
        match s with
        | u :: s' =>
            if cset_matches ic a u
            then matcher ic (Star false a :: p) s' (advance st)
            else None
        | [] => None
        end
    end.
Proof. destruct s; reflexivity. Qed.

Lemma matcher_one ic a p s st :
  matcher ic (One a :: p) s st
  = match s with
    | u :: s' => if cset_matches ic a u then matcher ic p s' (advance st) else None
    | [] => None
    end.
Proof. reflexivity. Qed.

Lemma matcher_atoms ic ws p : forall s st,
  matcher ic (map One ws ++ p) s st
  = if atoms_match ic ws s
    then matcher ic p (skipn (length ws) s) (advance_by (length ws) st)
    else None.
Proof.
  induction ws as [|a ws IH]; intros s st.
  - simpl. now rewrite advance_by_0.
  - simpl map. simpl app. rewrite matcher_one. destruct s as [|u s]; [reflexivity|].
    simpl atoms_match. destruct (cset_matches ic a u); [|reflexivity].
    simpl. rewrite IH. now rewrite advance_by_advance.
Qed.

Lemma canonicalize_gt (u : N) : (canonicalize u =? 62)%N = (u =? 62)%N.
Proof.
  unfold canonicalize.
  destruct ((97 <=? u) && (u <=? 122))%N eqn:E; [|reflexivity].
  apply andb_true_iff in E. destruct E as [E1 E2].
  apply N.leb_le in E1, E2.
  rewrite (proj2 (N.eqb_neq _ _)) by lia.
  rewrite (proj2 (N.eqb_neq _ _)) by lia. reflexivity.
Qed.

Lemma char_matches_gt ic (u : N) : char_matches ic 62 u = (u =? 62)%N.
Proof.
  unfold char_matches. destruct ic.
  - change (canonicalize 62) with 62%N. rewrite N.eqb_sym. apply canonicalize_gt.
  - apply N.eqb_sym.
Qed.

Lemma not_gt_matches ic (u : N) : cset_matches ic not_gt u = negb (u =? 62)%N.
Proof. simpl. rewrite char_matches_gt. now rewrite orb_false_r. Qed.

Lemma indexOf_gt_cons (u : N) (s : jsstring) :
  indexOf [62%N] (u :: s)
  = if (u =? 62)%N then Some ([], s)
    else match indexOf [62%N] s with
         | Some (attrs, rest) => Some (u :: attrs, rest)
         | None => None
         end.
Proof.
  assert (E : strip_prefix [62%N] (u :: s) = if (u =? 62)%N then Some s else None).
  { unfold strip_prefix. cbn [startsWith]. unfold unit_eqb.
    rewrite andb_true_r, N.eqb_sym. destruct (u =? 62)%N; reflexivity. }
  unfold indexOf. cbn [search]. rewrite E. destruct (u =? 62)%N; reflexivity.
Qed.

(** [[^>]*>]: up to and including the first [>]. *)
Lemma matcher_until_gt ic p : forall s st,
  matcher ic (Star true not_gt :: One (CChar 62) :: p) s st
  = match indexOf [62%N] s with
    | Some (attrs, rest) => matcher ic p rest (advance_by (S (length attrs)) st)
    | None => None
    end.
Proof.
  induction s as [|u s IH]; intros st.
  - reflexivity.
  - rewrite matcher_star_greedy_cons, not_gt_matches, indexOf_gt_cons, matcher_one.
    simpl cset_matches. rewrite char_matches_gt.
    destruct (u =? 62)%N; simpl.
    + now rewrite advance_is_advance_by.
    + rewrite IH. destruct (indexOf [62%N] s) as [[attrs rest]|]; [|reflexivity].
      simpl. rewrite advance_by_advance.
      now destruct (matcher ic p rest (advance_by (S (S (length attrs))) st)).
Qed.

(** [[\s\S]*?] closing the group, then a word: up to the first place
    where the word stands. *)
Lemma matcher_lazy_until ic ws : forall s st,
  matcher ic (Star false CAll :: GroupClose :: map One ws) s st
  = match search (strip_atoms ic ws) s with
    | Some (body, _) =>
        Some (advance_by (length ws) (close_group (advance_by (length body) st)))
    | None => None
    end.
Proof.
  assert (K : forall s st,
    matcher ic (GroupClose :: map One ws) s st
    = if atoms_match ic ws s then Some (advance_by (length ws) (close_group st)) else None).
  { intros s st. change (matcher ic (GroupClose :: map One ws) s st)
      with (matcher ic (map One ws) s (close_group st)).
    rewrite <- (app_nil_r (map One ws)), matcher_atoms. reflexivity. }
  induction s as [|u s IH]; intros st; rewrite matcher_star_lazy, K; simpl search;
    unfold strip_atoms at 1; destruct (atoms_match ic ws _) eqn:E.
  - simpl. now rewrite advance_by_0.
  - reflexivity.
  - simpl. now rewrite advance_by_0.
  - simpl cset_matches. cbv iota. rewrite IH.
    destruct (search (strip_atoms ic ws) s) as [[body r]|]; [|reflexivity].
    simpl. now rewrite advance_by_advance.
Qed.

(** A word none of whose units can be [>] lies before the first [>]. *)
Lemma indexOf_gt_after_atoms ic ws :
  (forall a, In a ws -> cset_matches ic a 62 = false) ->
  forall s, atoms_match ic ws s = true ->
  indexOf [62%N] s
  = match indexOf [62%N] (skipn (length ws) s) with
    | Some (attrs, rest) => Some (firstn (length ws) s ++ attrs, rest)
    | None => None
    end.
Proof.
  induction ws as [|a ws IH]; intros Hws s Hm.
  - simpl. now destruct (indexOf [62%N] s) as [[x y]|].
  - destruct s as [|u s]; [discriminate|]. simpl in Hm.
    apply andb_true_iff in Hm. destruct Hm as [Hu Hm].
    rewrite indexOf_gt_cons.
    destruct (u =? 62)%N eqn:E.
    + apply N.eqb_eq in E. subst u. rewrite (Hws a) in Hu by now left. discriminate.
    + simpl. rewrite (IH (fun b Hb => Hws b (or_intror Hb)) s Hm).
      now destruct (indexOf [62%N] (skipn (length ws) s)) as [[x y]|].
Qed.

Lemma atoms_match_length ic ws : forall s,
  atoms_match ic ws s = true -> length (firstn (length ws) s) = length ws.
Proof.
  induction ws as [|a ws IH]; intros s H; [reflexivity|].
  destruct s as [|u s]; [discriminate|]. simpl in *.
  apply andb_true_iff in H. destruct H as [_ H]. now rewrite IH.
Qed.

(** [[^>]*word[^>]*>]: an opening tag, up to its [>], that holds the
    word somewhere. *)
Lemma matcher_tag_with_word ic ws p :
  (forall a, In a ws -> cset_matches ic a 62 = false) ->
  forall s st,
  matcher ic (Star true not_gt :: map One ws ++ Star true not_gt :: One (CChar 62) :: p) s st
  = if word_in_tag ic ws s
    then match indexOf [62%N] s with
         | Some (attrs, rest) => matcher ic p rest (advance_by (S (length attrs)) st)
         | None => None
         end
    else None.
Proof.
  intros Hws.
  assert (K : forall s st,
    matcher ic (map One ws ++ Star true not_gt :: One (CChar 62) :: p) s st
    = if atoms_match ic ws s
      then match indexOf [62%N] s with
           | Some (attrs, rest) => matcher ic p rest (advance_by (S (length attrs)) st)
           | None => None
           end
      else None).
  { intros s st. rewrite matcher_atoms.
    destruct (atoms_match ic ws s) eqn:E; [|reflexivity].
    rewrite matcher_until_gt, (indexOf_gt_after_atoms ic ws Hws s E).
    destruct (indexOf [62%N] (skipn (length ws) s)) as [[attrs rest]|]; [|reflexivity].
    rewrite advance_by_add, length_app, (atoms_match_length ic ws s E).
    now rewrite Nat.add_succ_r. }
  induction s as [|u s IH]; intros st.
  - rewrite matcher_star_greedy_nil, K. simpl.
    now destruct (atoms_match ic ws []).
  - rewrite matcher_star_greedy_cons, not_gt_matches, K. simpl word_in_tag.
    rewrite indexOf_gt_cons.
    destruct (u =? 62)%N eqn:E; simpl; [reflexivity|].
    rewrite IH.
    destruct (indexOf [62%N] s) as [[attrs rest]|].
    + simpl. rewrite advance_by_advance.
      destruct (word_in_tag ic ws s); simpl.
      * rewrite orb_true_r.
        now destruct (matcher ic p rest (advance_by (S (S (length attrs))) st)),
                     (atoms_match ic ws (u :: s)).
      * now rewrite orb_false_r.
    + destruct (word_in_tag ic ws s); simpl.
      * rewrite orb_true_r. now destruct (atoms_match ic ws (u :: s)).
      * now rewrite orb_false_r.
Qed.

(** ** The three patterns without the matcher *)

Lemma strip_atoms_sound ic ws s x y :
  strip_atoms ic ws s = Some (x, y) ->
  s = x ++ y /\ length x = length ws /\ atoms_match ic ws s = true.
Proof.
  unfold strip_atoms. destruct (atoms_match ic ws s) eqn:E; [|discriminate].
  intros H. inversion H; subst. split; [now rewrite firstn_skipn|].
  split; [now apply atoms_match_length with (ic:=ic) | reflexivity].
Qed.

Lemma strip_prefix_sound p s rest : strip_prefix p s = Some rest -> s = p ++ rest.
Proof.
  unfold strip_prefix. destruct (startsWith p s) eqn:E; [|discriminate].
  intros H. inversion H; subst. clear H. revert s E.
  induction p as [|x p IH]; intros s E; [reflexivity|].
  destruct s as [|u s]; [discriminate|]. simpl in *.
  apply andb_true_iff in E. destruct E as [E1 E2].
  apply N.eqb_eq in E1. subst. f_equal. now apply IH.
Qed.

Lemma indexOf_sound p s before after :
  indexOf p s = Some (before, after) -> s = before ++ p ++ after.
Proof.
  unfold indexOf. intros H. apply search_sound in H.
  destruct H as (s' & Hs & Hp & _). apply strip_prefix_sound in Hp. now subst.
Qed.

Lemma firstn_length_app {A} (x y : list A) : firstn (length x) (x ++ y) = x.
Proof. induction x; simpl; [now destruct y | now f_equal]. Qed.

Lemma skipn_length_app {A} (x y : list A) : skipn (length x) (x ++ y) = y.
Proof. induction x; simpl; trivial. Qed.

(** The parts of a match read off a state that consumed [x] and holds
    the group [g] inside it. *)
Lemma match_at_parts (x1 g x2 y : jsstring) (st : mstate) :
  consumed st = length (x1 ++ g ++ x2) ->
  group_span st = Some (length x1, length x1 + length g) ->
  match_at ((x1 ++ g ++ x2) ++ y) st = RMatch [] (x1 ++ g ++ x2) g y.
Proof.
  intros Hc Hg. unfold match_at. rewrite Hc, Hg.
  rewrite firstn_length_app, skipn_length_app.
  replace (length x1 + length g - length x1) with (length g) by lia.
  rewrite <- !app_assoc, skipn_length_app, firstn_length_app. reflexivity.
Qed.

Lemma match_at_plain (x y : jsstring) (st : mstate) :
  consumed st = length x ->
  group_span st = None ->
  match_at (x ++ y) st = RMatch [] x [] y.
Proof.
  intros Hc Hg. unfold match_at. rewrite Hc, Hg.
  now rewrite firstn_length_app, skipn_length_app.
Qed.

Lemma style_source :
  source style_block_re
  = map One (word "<style") ++ Star true not_gt :: One (CChar 62)
      :: GroupOpen :: Star false CAll :: GroupClose :: map One (word "</style>").
Proof. reflexivity. Qed.

Lemma link_source :
  source stylesheet_link_re
  = map One (word "<link") ++ Star true not_gt :: map One rel_word
      ++ Star true not_gt :: One (CChar 62) :: [].
Proof. reflexivity. Qed.

Lemma critical_source :
  source critical_style_re
  = map One (word "<style") ++ Star true not_gt :: map One (word "data-href")
      ++ Star true not_gt :: One (CChar 62)
      :: GroupOpen :: Star false CAll :: GroupClose :: map One (word "</style>").
Proof. reflexivity. Qed.

(** The tail shared by the two style patterns, after the [>] of the
    opening tag. *)
Lemma matcher_body_close (x1 s2 : jsstring) (st : mstate) :
  consumed st = length x1 -> group_span st = None ->
  option_map (match_at (x1 ++ s2))
    (matcher true (GroupOpen :: Star false CAll :: GroupClose
                     :: map One (word "</style>")) s2 st)
  = match search (strip_atoms true (word "</style>")) s2 with
    | Some (body, (cl, rest)) => Some (RMatch [] (x1 ++ body ++ cl) body rest)
    | None => None
    end.
Proof.
  intros Hc Hg.
  change (matcher true (GroupOpen :: Star false CAll :: GroupClose
                          :: map One (word "</style>")) s2 st)
    with (matcher true (Star false CAll :: GroupClose
                          :: map One (word "</style>")) s2 (open_group st)).
  rewrite matcher_lazy_until.
  destruct (search (strip_atoms true (word "</style>")) s2) as [[body [cl rest]]|] eqn:E;
    [|reflexivity].
  apply search_sound in E. destruct E as (s' & Hs & Hcl & _).
  apply strip_atoms_sound in Hcl. destruct Hcl as (Hs' & Hlen & _).
  subst s2 s'. simpl option_map. f_equal.
  replace (x1 ++ body ++ cl ++ rest) with ((x1 ++ body ++ cl) ++ rest)
    by now rewrite <- !app_assoc.
  apply match_at_parts.
  - simpl. rewrite Hc, !length_app, Hlen.
    change (length (word "</style>")) with 8. lia.
  - simpl. rewrite Hc. reflexivity.
Qed.

Lemma attempt_style (s : jsstring) : attempt style_block_re s = style_at s.
Proof.
  unfold attempt, style_at. rewrite style_source. simpl ignoreCase.
  rewrite matcher_atoms. unfold strip_atoms at 1.
  destruct (atoms_match true (word "<style") s) eqn:E; [|reflexivity].
  rewrite matcher_until_gt.
  destruct (indexOf [62%N] (skipn (length (word "<style")) s))
    as [[attrs s2]|] eqn:Eg; [|reflexivity].
  pose proof (atoms_match_length true _ s E) as Hlen.
  apply indexOf_sound in Eg.
  set (op := firstn (length (word "<style")) s) in *.
  assert (Hs : s = (op ++ attrs ++ [62%N]) ++ s2).
  { rewrite <- (firstn_skipn (length (word "<style")) s), Eg.
    fold op. now rewrite <- !app_assoc. }
  rewrite Hs at 1.
  rewrite (matcher_body_close (op ++ attrs ++ [62%N]) s2).
  - destruct (search (strip_atoms true (word "</style>")) s2) as [[body [cl rest]]|];
      [|reflexivity].
    now rewrite <- !app_assoc.
  - simpl. rewrite !length_app, Hlen. simpl. lia.
  - reflexivity.
Qed.

Lemma rel_word_rejects_gt : forall a, In a rel_word -> cset_matches true a 62 = false.
Proof.
  intros a Ha.
  assert (H : forallb (fun a => negb (cset_matches true a 62)) rel_word = true)
    by (vm_compute; reflexivity).
  rewrite forallb_forall in H. specialize (H a Ha). now apply negb_true_iff in H.
Qed.

Lemma marker_rejects_gt :
  forall a, In a (word "data-href") -> cset_matches true a 62 = false.
Proof.
  intros a Ha.
  assert (H : forallb (fun a => negb (cset_matches true a 62)) (word "data-href") = true)
    by (vm_compute; reflexivity).
  rewrite forallb_forall in H. specialize (H a Ha). now apply negb_true_iff in H.
Qed.

Lemma attempt_link (s : jsstring) : attempt stylesheet_link_re s = link_at s.
Proof.
  unfold attempt, link_at. rewrite link_source. simpl ignoreCase.
  rewrite matcher_atoms. unfold strip_atoms at 1.
  destruct (atoms_match true (word "<link") s) eqn:E; [|reflexivity].
  rewrite (matcher_tag_with_word true rel_word [] rel_word_rejects_gt).
  destruct (word_in_tag true rel_word _); [|reflexivity].
  destruct (indexOf [62%N] (skipn (length (word "<link")) s))
    as [[attrs rest]|] eqn:Eg; [|reflexivity].
  pose proof (atoms_match_length true _ s E) as Hlen.
  apply indexOf_sound in Eg.
  set (op := firstn (length (word "<link")) s) in *.
  assert (Hs : s = (op ++ attrs ++ [62%N]) ++ rest).
  { rewrite <- (firstn_skipn (length (word "<link")) s), Eg.
    fold op. now rewrite <- !app_assoc. }
  rewrite Hs at 1. simpl matcher. simpl option_map. f_equal.
  apply match_at_plain; [|reflexivity].
  simpl. rewrite !length_app, Hlen. simpl. lia.
Qed.

Lemma attempt_critical (s : jsstring) : attempt critical_style_re s = marked_at s.
Proof.
  unfold attempt, marked_at. rewrite critical_source. simpl ignoreCase.
  rewrite matcher_atoms. unfold strip_atoms at 1.
  destruct (atoms_match true (word "<style") s) eqn:E; [|reflexivity].
  rewrite (matcher_tag_with_word true (word "data-href") _ marker_rejects_gt).
  destruct (word_in_tag true (word "data-href") _); [|reflexivity].
  rewrite <- attempt_style. unfold attempt. rewrite style_source. simpl ignoreCase.
  rewrite matcher_atoms, E, matcher_until_gt. reflexivity.
Qed.

(** ** Successive matches *)

Lemma attempt_sound (r : regex) (s : jsstring) (m : rmatch) :
  attempt r s = Some m -> m_before m = [] /\ s = m_text m ++ m_after m.
Proof.
  unfold attempt. destruct (matcher _ _ s mstart) as [st|]; [|discriminate].
  intros H. inversion H; subst. simpl. split; [reflexivity|].
  now rewrite firstn_skipn.
Qed.

Lemma exec_sound (r : regex) (s : jsstring) (m : rmatch) :
  exec r s = Some m -> s = m_before m ++ m_text m ++ m_after m.
Proof.
  unfold exec. destruct (search (attempt r) s) as [[before m0]|] eqn:E; [|discriminate].
  intros H. inversion H; subst. simpl.
  apply search_sound in E. destruct E as (s' & Hs & Ha & _).
  apply attempt_sound in Ha. destruct Ha as [_ Ha]. now rewrite Hs, Ha.
Qed.

Lemma exec_found (r : regex) (gap s' : jsstring) (m : rmatch) :
  attempt r s' = Some m ->
  (forall b1 b2, gap = b1 ++ b2 -> b2 <> [] -> attempt r (b2 ++ s') = None) ->
  exec r (gap ++ s') = Some (RMatch gap (m_text m) (m_group m) (m_after m)).
Proof.
  intros Ha Hgap. unfold exec. now rewrite (search_complete (attempt r) gap s' m Ha Hgap).
Qed.

Lemma exec_none (r : regex) (s : jsstring) :
  exec r s = None <-> forall b s', s = b ++ s' -> attempt r s' = None.
Proof.
  unfold exec. rewrite <- search_none.
  destruct (search (attempt r) s) as [[b m]|]; split; intros H; congruence.
Qed.

Lemma exec_never_empty (r : regex) (s : jsstring) (m : rmatch) :
  never_empty r -> exec r s = Some m -> m_text m <> [].
Proof.
  intros Hr. unfold exec.
  destruct (search (attempt r) s) as [[before m0]|] eqn:E; [|discriminate].
  intros H. inversion H; subst. simpl.
  apply search_sound in E. destruct E as (s' & _ & Ha & _). now apply (Hr s').
Qed.

Lemma scan_fuel (r : regex) : forall f1 f2 gap s,
  length s < f1 -> length s < f2 -> scan f1 r gap s = scan f2 r gap s.
Proof.
  induction f1 as [|f1 IH]; intros f2 gap s H1 H2; [lia|].
  destruct f2 as [|f2]; [lia|]. simpl.
  destruct (exec r s) as [m|] eqn:E; [|reflexivity].
  apply exec_sound in E.
  assert (Hlen : length s = length (m_before m) + length (m_text m) + length (m_after m))
    by (rewrite E at 1; rewrite !length_app; lia).
  destruct (m_text m) as [|t ts], (m_after m) as [|u rest]; simpl in Hlen.
  - reflexivity.
  - rewrite (IH f2 [u] rest) by lia. reflexivity.
  - rewrite (IH f2 [] []) by (simpl; lia). reflexivity.
  - rewrite (IH f2 [] (u :: rest)) by (simpl; lia). reflexivity.
Qed.

Lemma scan_unfold (r : regex) (s : jsstring) (fuel : nat) :
  never_empty r -> length s < fuel ->
  scan fuel r [] s
  = match exec r s with
    | None => ([], s)
    | Some m =>
        let (ms, tl) := scan (S (length (m_after m))) r [] (m_after m) in
        (m :: ms, tl)
    end.
Proof.
  intros Hr Hf. destruct fuel as [|fuel]; [lia|]. simpl.
  destruct (exec r s) as [m|] eqn:E; [|reflexivity].
  pose proof (exec_never_empty r s m Hr E) as Hne.
  apply exec_sound in E.
  assert (Hlen : length s = length (m_before m) + length (m_text m) + length (m_after m))
    by (rewrite E at 1; rewrite !length_app; lia).
  destruct m as [before text group after]. simpl in *.
  destruct text as [|t ts]; [now elim Hne|]. simpl in Hlen.
  rewrite (scan_fuel r fuel (S (length after)) [] after) by lia.
  reflexivity.
Qed.

Lemma RegExp_replace_unfold (r : regex) (f : rmatch -> jsstring) (s : jsstring) :
  global r = true -> never_empty r ->
  RegExp_replace r f s
  = match exec r s with
    | None => s
    | Some m => m_before m ++ f m ++ RegExp_replace r f (m_after m)
    end.
Proof.
  intros Hg Hr. unfold RegExp_replace. rewrite Hg.
  rewrite (scan_unfold r s (S (length s)) Hr) by lia.
  destruct (exec r s) as [m|]; [|reflexivity].
  destruct (scan (S (length (m_after m))) r [] (m_after m)) as [ms tl].
  simpl. now rewrite <- !app_assoc.
Qed.

Lemma matchAll_unfold (r : regex) (s : jsstring) :
  never_empty r ->
  matchAll r s
  = match exec r s with
    | None => []
    | Some m => m :: matchAll r (m_after m)
    end.
Proof.
  intros Hr. unfold matchAll. rewrite (scan_unfold r s (S (length s)) Hr) by lia.
  destruct (exec r s) as [m|]; [|reflexivity].
  now destruct (scan (S (length (m_after m))) r [] (m_after m)) as [ms tl].
Qed.

(** ** The scanners meet the propositions *)

Lemma ci_eq_length (a b : jsstring) : ci_eq a b -> length a = length b.
Proof. unfold ci_eq. intros H. apply (f_equal (@length N)) in H. now rewrite !length_map in H. Qed.

Lemma atoms_match_word (w x y : jsstring) :
  ci_eq x w -> atoms_match true (map CChar w) (x ++ y) = true.
Proof.
  revert x. induction w as [|c w IH]; intros x H; [reflexivity|].
  destruct x as [|u x]; [discriminate|]. unfold ci_eq in H. simpl in H.
  inversion H. simpl. unfold char_matches. rewrite H1, N.eqb_refl. simpl. now apply IH.
Qed.

Lemma word_atoms_match (w s : jsstring) :
  atoms_match true (map CChar w) s = true -> ci_eq (firstn (length w) s) w.
Proof.
  revert s. induction w as [|c w IH]; intros s H; [reflexivity|].
  destruct s as [|u s]; [discriminate|]. simpl in H.
  apply andb_true_iff in H. destruct H as [H1 H2].
  unfold char_matches in H1. apply N.eqb_eq in H1.
  unfold ci_eq. simpl. rewrite <- H1. f_equal. now apply IH.
Qed.

Lemma atoms_match_app ic ws1 ws2 x y :
  length x = length ws1 ->
  atoms_match ic (ws1 ++ ws2) (x ++ y) = atoms_match ic ws1 x && atoms_match ic ws2 y.
Proof.
  revert x. induction ws1 as [|a ws1 IH]; intros x H.
  - destruct x; [reflexivity | discriminate].
  - destruct x as [|u x]; [discriminate|]. simpl in *.
    rewrite IH by lia. now rewrite andb_assoc.
Qed.

Lemma atoms_match_short ic ws x y :
  length ws <= length x -> atoms_match ic ws (x ++ y) = atoms_match ic ws x.
Proof.
  revert x. induction ws as [|a ws IH]; intros x H; [reflexivity|].
  destruct x as [|u x]; [simpl in H; lia|]. simpl in *. rewrite IH by lia. reflexivity.
Qed.

Lemma strip_atoms_word (w x y : jsstring) :
  ci_eq x w -> strip_atoms true (map CChar w) (x ++ y) = Some (x, y).
Proof.
  intros H. unfold strip_atoms. rewrite (atoms_match_word w x y H).
  rewrite length_map, <- (ci_eq_length x w H).
  now rewrite firstn_length_app, skipn_length_app.
Qed.

Lemma indexOf_gt_found (attrs rest : jsstring) :
  ~ In 62%N attrs -> indexOf [62%N] (attrs ++ [62%N] ++ rest) = Some (attrs, rest).
Proof.
  induction attrs as [|u attrs IH]; intros H.
  - simpl. now rewrite indexOf_gt_cons.
  - simpl. rewrite indexOf_gt_cons.
    destruct (u =? 62)%N eqn:E.
    + apply N.eqb_eq in E. subst. elim H. now left.
    + simpl in IH. rewrite IH; [reflexivity|]. intros Hin. apply H. now right.
Qed.

Lemma indexOf_gt_attrs (s attrs rest : jsstring) :
  indexOf [62%N] s = Some (attrs, rest) -> ~ In 62%N attrs.
Proof.
  revert attrs. induction s as [|u s IH]; intros attrs H.
  - discriminate.
  - rewrite indexOf_gt_cons in H. destruct (u =? 62)%N eqn:E.
    + inversion H; subst. intros [].
    + destruct (indexOf [62%N] s) as [[a r]|]; [|discriminate].
      inversion H; subst. intros [Hin|Hin].
      * subst. now rewrite N.eqb_refl in E.
      * now apply (IH a eq_refl).
Qed.

Lemma style_at_complete (op attrs body cl rest : jsstring) :
  style_block op attrs body cl ->
  style_at (op ++ attrs ++ [62%N] ++ body ++ cl ++ rest)
  = Some (RMatch [] (op ++ attrs ++ [62%N] ++ body ++ cl) body rest).
Proof.
  intros (Hop & Hattrs & Hcl & Hmin). unfold style_at, word.
  rewrite (strip_atoms_word (js "<style") op _ Hop).
  rewrite (indexOf_gt_found attrs _ Hattrs).
  rewrite (search_complete (strip_atoms true (map CChar (js "</style>")))
             body (cl ++ rest) (cl, rest)).
  - reflexivity.
  - now apply strip_atoms_word.
  - intros b1 b2 Hb Hne. unfold strip_atoms.
    destruct (atoms_match true (map CChar (js "</style>")) (b2 ++ cl ++ rest)) eqn:E;
      [|reflexivity].
    exfalso. apply (Hmin b1 b2 Hb Hne).
    rewrite app_assoc in E. rewrite atoms_match_short in E.
    + apply word_atoms_match in E.
      exists (firstn (length (js "</style>")) (b2 ++ cl)),
             (skipn (length (js "</style>")) (b2 ++ cl)).
      split; [now rewrite firstn_skipn | exact E].
    + rewrite length_map, length_app, (ci_eq_length cl _ Hcl). lia.
Qed.

Lemma style_at_sound (s : jsstring) (m : rmatch) :
  style_at s = Some m -> style_block_begins s /\ m_text m <> [].
Proof.
  unfold style_at, word.
  destruct (strip_atoms true (map CChar (js "<style")) s) as [[op s1]|] eqn:E1;
    [|discriminate].
  destruct (indexOf [62%N] s1) as [[attrs s2]|] eqn:E2; [|discriminate].
  destruct (search (strip_atoms true (map CChar (js "</style>"))) s2)
    as [[body [cl rest]]|] eqn:E3; [|discriminate].
  intros H. inversion H; subst; clear H. simpl.
  pose proof (indexOf_gt_attrs _ _ _ E2) as Hattrs.
  apply indexOf_sound in E2.
  apply search_sound in E3. destruct E3 as (s' & Hs2 & Hcl & _).
  apply strip_atoms_sound in E1. destruct E1 as (Hs & Hlen & Hop).
  apply strip_atoms_sound in Hcl. destruct Hcl as (Hs' & Hlen' & Hclm).
  split.
  - exists op, attrs, body, cl, rest. subst. repeat split; trivial.
    + apply word_atoms_match in Hop. rewrite length_map in Hlen.
      rewrite <- Hlen in Hop. now rewrite firstn_length_app in Hop.
    + apply word_atoms_match in Hclm. rewrite length_map in Hlen'.
      rewrite <- Hlen' in Hclm. now rewrite firstn_length_app in Hclm.
  - destruct op; [discriminate Hlen | discriminate].
Qed.

Lemma atoms_match_firstn ic ws : forall s,
  atoms_match ic ws s = true -> atoms_match ic ws (firstn (length ws) s) = true.
Proof.
  induction ws as [|a ws IH]; intros s H; [reflexivity|].
  destruct s as [|u s]; [discriminate|]. simpl in *.
  apply andb_true_iff in H. destruct H as [H1 H2]. now rewrite H1, IH.
Qed.

Lemma word_in_tag_intro ic ws (a1 x : jsstring) :
  ~ In 62%N a1 -> atoms_match ic ws x = true -> word_in_tag ic ws (a1 ++ x) = true.
Proof.
  intros Ha Hx. induction a1 as [|u a1 IH]; simpl.
  - destruct x as [|v x]; simpl; [exact Hx|].
    destruct (v =? 62)%N; [exact Hx|]. now rewrite Hx.
  - destruct (u =? 62)%N eqn:E.
    + apply N.eqb_eq in E. subst. elim Ha. now left.
    + rewrite IH; [apply orb_true_r|]. intros Hin. apply Ha. now right.
Qed.

Lemma word_in_tag_elim ic ws :
  ws <> [] ->
  (forall a, In a ws -> cset_matches ic a 62 = false) ->
  forall s attrs rest,
  word_in_tag ic ws s = true -> indexOf [62%N] s = Some (attrs, rest) ->
  exists a1 x a2, attrs = a1 ++ x ++ a2 /\ length x = length ws
                  /\ atoms_match ic ws x = true.
Proof.
  intros Hne Hws.
  assert (Here : forall s attrs rest,
    atoms_match ic ws s = true -> indexOf [62%N] s = Some (attrs, rest) ->
    exists x a2, attrs = x ++ a2 /\ length x = length ws /\ atoms_match ic ws x = true).
  { intros s attrs rest Hm Hi.
    rewrite (indexOf_gt_after_atoms ic ws Hws s Hm) in Hi.
    destruct (indexOf [62%N] (skipn (length ws) s)) as [[a2 r]|]; [|discriminate].
    inversion Hi; subst. exists (firstn (length ws) s), a2.
    split; [reflexivity|]. split; [now apply atoms_match_length with (ic:=ic)|].
    now apply atoms_match_firstn. }
  induction s as [|u s IH]; intros attrs rest Hw Hi; [discriminate|].
  simpl in Hw. rewrite indexOf_gt_cons in Hi.
  destruct (u =? 62)%N eqn:E.
  - apply N.eqb_eq in E. subst u. destruct ws as [|a ws]; [now elim Hne|].
    simpl in Hw. rewrite (Hws a) in Hw by now left. discriminate.
  - destruct (indexOf [62%N] s) as [[a r]|] eqn:Ei; [|discriminate].
    inversion Hi; subst; clear Hi.
    apply orb_true_iff in Hw. destruct Hw as [Hw|Hw].
    + assert (Hi : indexOf [62%N] (u :: s) = Some (u :: a, rest))
        by (rewrite indexOf_gt_cons, E, Ei; reflexivity).
      destruct (Here _ _ _ Hw Hi) as (x & a2 & H1 & H2 & H3).
      exists [], x, a2. now repeat split.
    + destruct (IH a rest Hw eq_refl) as (a1 & x & a2 & H1 & H2 & H3).
      exists (u :: a1), x, a2. subst. now repeat split.
Qed.

Lemma canonicalize_not_upper (u c : N) :
  (c < 65 \/ 90 < c)%N -> canonicalize u = c -> u = c.
Proof.
  unfold canonicalize. intros Hc.
  destruct ((97 <=? u) && (u <=? 122))%N eqn:E; [|trivial].
  apply andb_true_iff in E. destruct E as [E1 E2].
  apply N.leb_le in E1, E2. lia.
Qed.

Lemma quote_matches (q : N) : cset_matches true quote q = true <-> is_quote q.
Proof.
  unfold is_quote, quote, cset_matches. cbn [existsb xorb]. unfold char_matches.
  change (canonicalize 34) with 34%N. change (canonicalize 39) with 39%N.
  rewrite orb_false_r, orb_true_iff, !N.eqb_eq. split.
  - intros [H|H]; symmetry in H; apply canonicalize_not_upper in H; try lia; auto.
  - intros [H|H]; subst; auto.
Qed.

Lemma atoms_match_split ic ws1 ws2 x :
  atoms_match ic (ws1 ++ ws2) x = true ->
  length (firstn (length ws1) x) = length ws1
  /\ atoms_match ic ws1 (firstn (length ws1) x) = true
  /\ atoms_match ic ws2 (skipn (length ws1) x) = true.
Proof.
  revert x. induction ws1 as [|a ws1 IH]; intros x H.
  - simpl. repeat split. exact H.
  - destruct x as [|u x]; [discriminate|]. simpl in *.
    apply andb_true_iff in H. destruct H as [H1 H2].
    destruct (IH x H2) as (A & B & C). rewrite A, H1, B. now repeat split.
Qed.

Lemma rel_word_intro (r w tail : jsstring) (q1 q2 : N) :
  ci_eq r (js "rel=") -> is_quote q1 -> ci_eq w (js "stylesheet") -> is_quote q2 ->
  atoms_match true rel_word (r ++ [q1] ++ w ++ [q2] ++ tail) = true.
Proof.
  intros Hr Hq1 Hw Hq2. unfold rel_word, word.
  rewrite atoms_match_app by (now rewrite length_map; apply ci_eq_length).
  rewrite <- (app_nil_r r) at 1. rewrite atoms_match_word by exact Hr.
  rewrite atoms_match_app by reflexivity.
  rewrite atoms_match_app by (now rewrite length_map; apply ci_eq_length).
  rewrite <- (app_nil_r w) at 1. rewrite atoms_match_word by exact Hw.
  simpl. apply quote_matches in Hq1, Hq2. simpl in Hq1, Hq2.
  now rewrite Hq1, Hq2.
Qed.

Lemma rel_word_elim (x : jsstring) :
  length x = length rel_word -> atoms_match true rel_word x = true ->
  exists r q1 w q2,
    x = r ++ [q1] ++ w ++ [q2]
    /\ ci_eq r (js "rel=") /\ is_quote q1 /\ ci_eq w (js "stylesheet") /\ is_quote q2.
Proof.
  intros Hlen H. unfold rel_word, word in H.
  apply atoms_match_split in H. destruct H as (L1 & M1 & H).
  apply atoms_match_split in H. destruct H as (L2 & M2 & H).
  apply atoms_match_split in H. destruct H as (L3 & M3 & M4).
  set (r := firstn (length (map CChar (js "rel="))) x) in *.
  set (x1 := skipn (length (map CChar (js "rel="))) x) in *.
  set (x2 := skipn (length [quote]) x1) in *.
  set (w := firstn (length (map CChar (js "stylesheet"))) x2) in *.
  set (x3 := skipn (length (map CChar (js "stylesheet"))) x2) in *.
  assert (Hx : x = r ++ x1) by (unfold r, x1; now rewrite firstn_skipn).
  assert (Hx1 : x1 = firstn (length [quote]) x1 ++ x2)
    by (unfold x2; now rewrite firstn_skipn).
  assert (Hx2 : x2 = w ++ x3) by (unfold w, x3; now rewrite firstn_skipn).
  apply word_atoms_match in M1, M3.
  rewrite firstn_all2 in M1 by (fold r; rewrite L1, length_map; lia).
  rewrite firstn_all2 in M3 by (fold w; rewrite L3, length_map; lia).
  destruct (firstn (length [quote]) x1) as [|q1 [|? ?]] eqn:Eq1; try discriminate L2.
  assert (Hl3 : length x3 = 1).
  { apply (f_equal (@length N)) in Hx, Hx1, Hx2. rewrite !length_app in *.
    rewrite L1 in Hx. rewrite L3 in Hx2. simpl in Hx1.
    rewrite Hlen in Hx. unfold rel_word, word in Hx. rewrite !length_app in Hx.
    simpl length in *. lia. }
  destruct x3 as [|q2 [|? ?]]; try discriminate Hl3.
  exists r, q1, w, q2. rewrite Hx, Hx1, Hx2. split; [reflexivity|].
  simpl in M2, M4. rewrite andb_true_r in M2, M4.
  repeat split; trivial; now apply quote_matches.
Qed.

Lemma link_at_complete (op attrs rest : jsstring) :
  stylesheet_link op attrs ->
  link_at (op ++ attrs ++ [62%N] ++ rest)
  = Some (RMatch [] (op ++ attrs ++ [62%N]) [] rest).
Proof.
  intros (Hop & Hattrs & a1 & r & q1 & w & q2 & a2 & Ha & Hr & Hq1 & Hw & Hq2).
  unfold link_at, word.
  rewrite (strip_atoms_word (js "<link") op _ Hop).
  rewrite (indexOf_gt_found attrs _ Hattrs).
  replace (word_in_tag true rel_word (attrs ++ [62%N] ++ rest)) with true; [reflexivity|].
  symmetry. subst attrs. rewrite <- !app_assoc.
  apply word_in_tag_intro.
  - intros Hin. apply Hattrs. apply in_or_app. now left.
  - now apply rel_word_intro.
Qed.

Lemma link_at_sound (s : jsstring) (m : rmatch) :
  link_at s = Some m -> stylesheet_link_begins s /\ m_text m <> [].
Proof.
  unfold link_at, word.
  destruct (strip_atoms true (map CChar (js "<link")) s) as [[op s1]|] eqn:E1;
    [|discriminate].
  destruct (word_in_tag true rel_word s1) eqn:Ew; [|discriminate].
  destruct (indexOf [62%N] s1) as [[attrs rest]|] eqn:E2; [|discriminate].
  intros H. inversion H; subst; clear H. simpl.
  pose proof (indexOf_gt_attrs _ _ _ E2) as Hattrs.
  destruct (word_in_tag_elim true rel_word ltac:(discriminate) rel_word_rejects_gt
              s1 attrs rest Ew E2) as (a1 & x & a2 & Ha & Hlen & Hx).
  destruct (rel_word_elim x Hlen Hx) as (r & q1 & w & q2 & Hxe & Hr & Hq1 & Hw & Hq2).
  apply indexOf_sound in E2.
  apply strip_atoms_sound in E1. destruct E1 as (Hs & Hl & Hop).
  split.
  - exists op, attrs, rest. subst s s1. split; [reflexivity|].
    split; [|split; [exact Hattrs|]].
    + apply word_atoms_match in Hop. rewrite length_map in Hl.
      rewrite <- Hl in Hop. now rewrite firstn_length_app in Hop.
    + exists a1, r, q1, w, q2, a2. subst attrs x. rewrite <- !app_assoc.
      now repeat split.
  - destruct op; [discriminate Hl | discriminate].
Qed.

Lemma marker_elim (attrs : jsstring) (a1 x a2 : jsstring) :
  attrs = a1 ++ x ++ a2 -> length x = length (word "data-href") ->
  atoms_match true (word "data-href") x = true -> holds_marker attrs.
Proof.
  intros Ha Hlen Hx. exists a1, x, a2. split; [exact Ha|].
  apply word_atoms_match in Hx. unfold word in Hlen. rewrite length_map in Hlen.
  now rewrite <- Hlen, firstn_all in Hx.
Qed.

Lemma marked_at_complete (op attrs body cl rest : jsstring) :
  style_block op attrs body cl -> holds_marker attrs ->
  marked_at (op ++ attrs ++ [62%N] ++ body ++ cl ++ rest)
  = Some (RMatch [] (op ++ attrs ++ [62%N] ++ body ++ cl) body rest).
Proof.
  intros Hb (a1 & w & a2 & Ha & Hw). unfold marked_at.
  rewrite (style_at_complete op attrs body cl rest Hb).
  destruct Hb as (Hop & Hattrs & _). unfold word.
  rewrite (strip_atoms_word (js "<style") op _ Hop).
  replace (word_in_tag true (map CChar (js "data-href")) _) with true; [reflexivity|].
  symmetry. subst attrs. rewrite <- !app_assoc.
  apply word_in_tag_intro.
  - intros Hin. apply Hattrs. apply in_or_app. now left.
  - now apply atoms_match_word.
Qed.

Lemma marked_at_sound (s : jsstring) (m : rmatch) :
  marked_at s = Some m -> marked_block_begins s /\ style_at s = Some m.
Proof.
  unfold marked_at.
  destruct (strip_atoms true (word "<style") s) as [[op s1]|] eqn:E1; [|discriminate].
  destruct (word_in_tag true (word "data-href") s1) eqn:Ew; [|discriminate].
  intros H. split; [|exact H].
  unfold style_at in H. rewrite E1 in H.
  destruct (indexOf [62%N] s1) as [[attrs s2]|] eqn:E2; [|discriminate].
  destruct (search (strip_atoms true (word "</style>")) s2)
    as [[body [cl rest]]|] eqn:E3; [|discriminate].
  pose proof (indexOf_gt_attrs _ _ _ E2) as Hattrs.
  destruct (word_in_tag_elim true (word "data-href") ltac:(discriminate)
              marker_rejects_gt s1 attrs s2 Ew E2) as (a1 & x & a2 & Ha & Hlen & Hx).
  apply indexOf_sound in E2.
  apply search_sound in E3. destruct E3 as (s' & Hs2 & Hcl & _).
  apply strip_atoms_sound in E1. destruct E1 as (Hs & Hl & Hop).
  apply strip_atoms_sound in Hcl. destruct Hcl as (Hs' & Hl' & Hclm).
  exists op, attrs, body, cl, rest. subst s s1 s2 s'.
  split; [reflexivity|]. unfold word in *. rewrite length_map in Hl, Hl'.
  repeat split; trivial.
  - apply word_atoms_match in Hop. rewrite <- Hl in Hop.
    now rewrite firstn_length_app in Hop.
  - now apply (marker_elim attrs a1 x a2).
  - apply word_atoms_match in Hclm. rewrite <- Hl' in Hclm.
    now rewrite firstn_length_app in Hclm.
Qed.

(** ** The steps of the sanitizer *)

Lemma never_empty_style : never_empty style_block_re.
Proof. intros s m H. rewrite attempt_style in H. now apply style_at_sound in H. Qed.

Lemma never_empty_link : never_empty stylesheet_link_re.
Proof. intros s m H. rewrite attempt_link in H. now apply link_at_sound in H. Qed.

Lemma exec_style_block (gap op attrs body cl rest : jsstring) :
  style_block op attrs body cl ->
  (forall b1 b2, gap = b1 ++ b2 -> b2 <> [] ->
     ~ style_block_begins (b2 ++ op ++ attrs ++ [62%N] ++ body ++ cl ++ rest)) ->
  exec style_block_re (gap ++ op ++ attrs ++ [62%N] ++ body ++ cl ++ rest)
  = Some (RMatch gap (op ++ attrs ++ [62%N] ++ body ++ cl) body rest).
Proof.
  intros Hb Hgap.
  apply (exec_found style_block_re gap _
           (RMatch [] (op ++ attrs ++ [62%N] ++ body ++ cl) body rest)).
  - rewrite attempt_style. now apply style_at_complete.
  - intros b1 b2 Hg Hne. rewrite attempt_style.
    destruct (style_at _) as [m|] eqn:E; [|reflexivity].
    apply style_at_sound in E. elim (Hgap b1 b2 Hg Hne). apply E.
Qed.

Lemma exec_style_none (html : jsstring) :
  (forall a b, html = a ++ b -> ~ style_block_begins b) ->
  exec style_block_re html = None.
Proof.
  intros H. apply exec_none. intros b s' Hs. rewrite attempt_style.
  destruct (style_at s') as [m|] eqn:E; [|reflexivity].
  apply style_at_sound in E. elim (H b s' Hs). apply E.
Qed.

Lemma strip_styles_block (gap op attrs body cl rest : jsstring) :
  style_block op attrs body cl ->
  (forall b1 b2, gap = b1 ++ b2 -> b2 <> [] ->
     ~ style_block_begins (b2 ++ op ++ attrs ++ [62%N] ++ body ++ cl ++ rest)) ->
  strip_styles (gap ++ op ++ attrs ++ [62%N] ++ body ++ cl ++ rest)
  = gap ++ placeholder ++ strip_styles rest.
Proof.
  intros Hb Hgap. unfold strip_styles.
  rewrite RegExp_replace_unfold by (reflexivity || apply never_empty_style).
  now rewrite (exec_style_block gap op attrs body cl rest Hb Hgap).
Qed.

Lemma strip_styles_none (html : jsstring) :
  (forall a b, html = a ++ b -> ~ style_block_begins b) ->
  strip_styles html = html.
Proof.
  intros H. unfold strip_styles.
  rewrite RegExp_replace_unfold by (reflexivity || apply never_empty_style).
  now rewrite (exec_style_none html H).
Qed.

Lemma strip_links_link (gap op attrs rest : jsstring) :
  stylesheet_link op attrs ->
  (forall b1 b2, gap = b1 ++ b2 -> b2 <> [] ->
     ~ stylesheet_link_begins (b2 ++ op ++ attrs ++ [62%N] ++ rest)) ->
  strip_links (gap ++ op ++ attrs ++ [62%N] ++ rest) = gap ++ strip_links rest.
Proof.
  intros Hl Hgap. unfold strip_links.
  rewrite RegExp_replace_unfold by (reflexivity || apply never_empty_link).
  rewrite (exec_found stylesheet_link_re gap _
             (RMatch [] (op ++ attrs ++ [62%N]) [] rest)).
  - reflexivity.
  - rewrite attempt_link. now apply link_at_complete.
  - intros b1 b2 Hg Hne. rewrite attempt_link.
    destruct (link_at _) as [m|] eqn:E; [|reflexivity].
    apply link_at_sound in E. elim (Hgap b1 b2 Hg Hne). apply E.
Qed.

Lemma strip_links_none (html : jsstring) :
  (forall a b, html = a ++ b -> ~ stylesheet_link_begins b) ->
  strip_links html = html.
Proof.
  intros H. unfold strip_links.
  rewrite RegExp_replace_unfold by (reflexivity || apply never_empty_link).
  replace (exec stylesheet_link_re html) with (@None rmatch); [reflexivity|].
  symmetry. apply exec_none. intros b s' Hs. rewrite attempt_link.
  destruct (link_at s') as [m|] eqn:E; [|reflexivity].
  apply link_at_sound in E. elim (H b s' Hs). apply E.
Qed.

(** ** The output extractor *)

Lemma new_styles_flat (out : jsstring) :
  new_styles out
  = flat_map (fun m => if includes placeholder_word (m_text m) then [] else m_group m)
      (matchAll style_block_re out).
Proof.
  unfold new_styles.
  assert (H : forall ms acc,
    fold_left (fun criticalCss m =>
                 if negb (includes placeholder_word (m_text m))
                 then criticalCss ++ m_group m else criticalCss) ms acc
    = acc ++ flat_map (fun m => if includes placeholder_word (m_text m)
                                then [] else m_group m) ms).
  { induction ms as [|m ms IH]; intros acc; simpl.
    - now rewrite app_nil_r.
    - rewrite IH. destruct (includes placeholder_word (m_text m)); simpl.
      + reflexivity.
      + now rewrite app_assoc. }
  now rewrite H.
Qed.

Lemma new_styles_block (gap op attrs body cl rest : jsstring) :
  style_block op attrs body cl ->
  (forall b1 b2, gap = b1 ++ b2 -> b2 <> [] ->
     ~ style_block_begins (b2 ++ op ++ attrs ++ [62%N] ++ body ++ cl ++ rest)) ->
  new_styles (gap ++ op ++ attrs ++ [62%N] ++ body ++ cl ++ rest)
  = (if includes placeholder_word (op ++ attrs ++ [62%N] ++ body ++ cl)
     then [] else body) ++ new_styles rest.
Proof.
  intros Hb Hgap. rewrite !new_styles_flat.
  rewrite matchAll_unfold by apply never_empty_style.
  now rewrite (exec_style_block gap op attrs body cl rest Hb Hgap).
Qed.

Lemma new_styles_none (out : jsstring) :
  (forall a b, out = a ++ b -> ~ style_block_begins b) -> new_styles out = [].
Proof.
  intros H. rewrite new_styles_flat.
  rewrite matchAll_unfold by apply never_empty_style.
  now rewrite (exec_style_none out H).
Qed.

Lemma extract_marked (gap op attrs body cl rest : jsstring) :
  style_block op attrs body cl -> holds_marker attrs ->
  (forall b1 b2, gap = b1 ++ b2 -> b2 <> [] ->
     ~ marked_block_begins (b2 ++ op ++ attrs ++ [62%N] ++ body ++ cl ++ rest)) ->
  extract (gap ++ op ++ attrs ++ [62%N] ++ body ++ cl ++ rest) = body.
Proof.
  intros Hb Hm Hgap. unfold extract, String_match.
  rewrite (exec_found critical_style_re gap _
             (RMatch [] (op ++ attrs ++ [62%N] ++ body ++ cl) body rest)).
  - reflexivity.
  - rewrite attempt_critical. now apply marked_at_complete.
  - intros b1 b2 Hg Hne. rewrite attempt_critical.
    destruct (marked_at _) as [m|] eqn:E; [|reflexivity].
    apply marked_at_sound in E. elim (Hgap b1 b2 Hg Hne). apply E.
Qed.

Lemma extract_unmarked (out : jsstring) :
  (forall a b, out = a ++ b -> ~ marked_block_begins b) ->
  extract out = new_styles out.
Proof.
  intros H. unfold extract, String_match.
  replace (exec critical_style_re out) with (@None rmatch); [reflexivity|].
  symmetry. apply exec_none. intros b s' Hs. rewrite attempt_critical.
  destruct (marked_at s') as [m|] eqn:E; [|reflexivity].
  apply marked_at_sound in E. elim (H b s' Hs). apply E.
Qed.

Lemma is_blank_trim (css : jsstring) : is_blank css = true <-> trim css = [].
Proof.
  unfold is_blank. destruct css as [|u css]; [now split|].
  rewrite Nat.eqb_eq. split; intros H.
  - now apply length_zero_iff_nil.
  - now rewrite H.
Qed.

(** ** Plain search and substitution *)

Lemma startsWith_self (p rest : jsstring) : startsWith p (p ++ rest) = true.
Proof.
  induction p as [|x p IH]; [reflexivity|]. simpl. unfold unit_eqb.
  now rewrite N.eqb_refl, IH.
Qed.

Lemma startsWith_spec (p s : jsstring) :
  startsWith p s = true <-> exists rest, s = p ++ rest.
Proof.
  split.
  - intros H. exists (skipn (length p) s). apply strip_prefix_sound.
    unfold strip_prefix. now rewrite H.
  - intros (rest & ->). apply startsWith_self.
Qed.

Lemma strip_prefix_self (p rest : jsstring) : strip_prefix p (p ++ rest) = Some rest.
Proof. unfold strip_prefix. now rewrite startsWith_self, skipn_length_app. Qed.

Lemma indexOf_found (p before after : jsstring) :
  (forall b1 b2 y, before = b1 ++ b2 -> b2 <> [] -> b2 ++ p ++ after <> p ++ y) ->
  indexOf p (before ++ p ++ after) = Some (before, after).
Proof.
  intros H. unfold indexOf. apply search_complete.
  - apply strip_prefix_self.
  - intros b1 b2 Hb Hne. unfold strip_prefix.
    destruct (startsWith p (b2 ++ p ++ after)) eqn:E; [|reflexivity].
    apply startsWith_spec in E. destruct E as (y & Hy). now elim (H b1 b2 y Hb Hne).
Qed.

Lemma indexOf_absent (p s : jsstring) :
  (forall a b, s <> a ++ p ++ b) -> indexOf p s = None.
Proof.
  intros H. unfold indexOf. apply search_none. intros b s' Hs. unfold strip_prefix.
  destruct (startsWith p s') eqn:E; [|reflexivity].
  apply startsWith_spec in E. destruct E as (y & Hy). subst s'. now elim (H b y).
Qed.

Lemma indexOf_present (p s before after : jsstring) :
  indexOf p s = Some (before, after) ->
  s = before ++ p ++ after
  /\ forall b1 b2 y, before = b1 ++ b2 -> b2 <> [] -> b2 ++ p ++ after <> p ++ y.
Proof.
  intros H. split; [now apply indexOf_sound|].
  unfold indexOf in H. apply search_sound in H.
  destruct H as (s' & Hs & Hp & Hfirst). apply strip_prefix_sound in Hp. subst s'.
  intros b1 b2 y Hb Hne Hy. specialize (Hfirst b1 b2 Hb Hne).
  unfold strip_prefix in Hfirst. rewrite Hy, startsWith_self in Hfirst. discriminate.
Qed.

Lemma includes_inside (w a b c : jsstring) :
  includes w b = true -> includes w (a ++ b ++ c) = true.
Proof.
  unfold includes, indexOf. intros H.
  destruct (search (strip_prefix w) b) as [[before after]|] eqn:E; [|discriminate].
  apply search_sound in E. destruct E as (s' & Hb & Hp & _).
  apply strip_prefix_sound in Hp.
  destruct (search (strip_prefix w) (a ++ b ++ c)) as [[x y]|] eqn:E2; [reflexivity|].
  exfalso. rewrite search_none in E2.
  specialize (E2 (a ++ before) (s' ++ c)).
  rewrite Hb, Hp in E2. rewrite <- !app_assoc in E2. specialize (E2 eq_refl).
  now rewrite strip_prefix_self in E2.
Qed.

Lemma GetSubstitution_plain (m b a t : jsstring) :
  ~ In 36%N t -> GetSubstitution m b a t = t.
Proof.
  induction t as [|u t IH]; intros H; [reflexivity|]. simpl.
  destruct (u =? 36)%N eqn:E.
  - apply N.eqb_eq in E. subst. elim H. now left.
  - rewrite IH; [reflexivity|]. intros Hin. apply H. now right.
Qed.

(** A template followed by text without a dollar sign, whose first unit
    cannot complete a pattern. *)
Lemma GetSubstitution_suffix (m b a y : jsstring) :
  ~ In 36%N y ->
  match y with
  | [] => True
  | v :: _ => v <> 36%N /\ v <> 38%N /\ v <> 96%N /\ v <> 39%N
  end ->
  forall h, GetSubstitution m b a (h ++ y) = GetSubstitution m b a h ++ y.
Proof.
  intros Hy Hv.
  assert (H : forall n h, length h <= n ->
                GetSubstitution m b a (h ++ y) = GetSubstitution m b a h ++ y).
  { induction n as [|n IH]; intros h Hn.
    - destruct h; [|simpl in Hn; lia]. simpl. now apply GetSubstitution_plain.
    - destruct h as [|u t]; [simpl; now apply GetSubstitution_plain|].
      simpl in Hn. simpl app.
      change (GetSubstitution m b a (u :: t ++ y))
        with (if (u =? 36)%N then
                match t ++ y with
                | v :: t' =>
                    if (v =? 36)%N then 36%N :: GetSubstitution m b a t'
                    else if (v =? 38)%N then m ++ GetSubstitution m b a t'
                    else if (v =? 96)%N then b ++ GetSubstitution m b a t'
                    else if (v =? 39)%N then a ++ GetSubstitution m b a t'
                    else u :: GetSubstitution m b a (t ++ y)
                | [] => [u]
                end
              else u :: GetSubstitution m b a (t ++ y)).
      change (GetSubstitution m b a (u :: t))
        with (if (u =? 36)%N then
                match t with
                | v :: t' =>
                    if (v =? 36)%N then 36%N :: GetSubstitution m b a t'
                    else if (v =? 38)%N then m ++ GetSubstitution m b a t'
                    else if (v =? 96)%N then b ++ GetSubstitution m b a t'
                    else if (v =? 39)%N then a ++ GetSubstitution m b a t'
                    else u :: GetSubstitution m b a t
                | [] => [u]
                end
              else u :: GetSubstitution m b a t).
      destruct (u =? 36)%N.
      + destruct t as [|v t'].
        * cbn [app]. destruct y as [|v y']; [reflexivity|].
          destruct Hv as (H1 & H2 & H3 & H4).
          rewrite !(proj2 (N.eqb_neq _ _)) by assumption.
          rewrite GetSubstitution_plain by exact Hy. reflexivity.
        * cbn [app]. simpl in Hn.
          destruct (v =? 36)%N; [rewrite (IH t') by lia; reflexivity|].
          destruct (v =? 38)%N; [rewrite (IH t') by lia; now rewrite app_assoc|].
          destruct (v =? 96)%N; [rewrite (IH t') by lia; now rewrite app_assoc|].
          destruct (v =? 39)%N; [rewrite (IH t') by lia; now rewrite app_assoc|].
          change (v :: t' ++ y) with ((v :: t') ++ y).
          rewrite (IH (v :: t')) by (simpl; lia). reflexivity.
      + rewrite (IH t) by lia. reflexivity. }
  intros h. now apply (H (length h)).
Qed.

Lemma link_template_expanded (href m b a : jsstring) :
  GetSubstitution m b a (link_template href)
  = link_tag (GetSubstitution m b a href) ++ [10%N] ++ js "</head>".
Proof.
  unfold link_template, link_tag.
  set (tail := dquote ++ js ">" ++ [10%N] ++ js "</head>").
  assert (E : forall h,
    (js "<link rel=" ++ dquote ++ js "stylesheet" ++ dquote ++ js " href="
     ++ dquote ++ h ++ dquote ++ js ">") ++ [10%N] ++ js "</head>"
    = (js "<link rel=" ++ dquote ++ js "stylesheet" ++ dquote ++ js " href=" ++ dquote)
      ++ h ++ tail).
  { intros h. unfold tail. now rewrite <- !app_assoc. }
  rewrite !E.
  assert (P : forall x t, ~ In 36%N x ->
              GetSubstitution m b a (x ++ t) = x ++ GetSubstitution m b a t).
  { induction x as [|u x IH]; intros t H; [reflexivity|]. simpl.
    destruct (u =? 36)%N eqn:Eu.
    - apply N.eqb_eq in Eu. subst. elim H. now left.
    - rewrite IH; [reflexivity|]. intros Hin. apply H. now right. }
  rewrite P.
  - f_equal. apply GetSubstitution_suffix.
    + vm_compute. intros H. repeat (destruct H as [H|H]; [discriminate|]). exact H.
    + vm_compute. repeat split; discriminate.
  - vm_compute. intros H. repeat (destruct H as [H|H]; [discriminate|]). exact H.
Qed.

Lemma inject_link_absent (href h : jsstring) :
  (forall a b, h <> a ++ js "</head>" ++ b) -> inject_link href h = h.
Proof.
  intros H. unfold inject_link, String_replace. now rewrite (indexOf_absent _ _ H).
Qed.

Lemma inject_link_first (href before after : jsstring) :
  (forall b1 b2 y, before = b1 ++ b2 -> b2 <> [] ->
     b2 ++ js "</head>" ++ after <> js "</head>" ++ y) ->
  inject_link href (before ++ js "</head>" ++ after)
  = before ++ link_tag (GetSubstitution (js "</head>") before after href)
      ++ [10%N] ++ js "</head>" ++ after.
Proof.
  intros H. unfold inject_link, String_replace.
  rewrite (indexOf_found _ _ _ H), link_template_expanded.
  now rewrite <- !app_assoc.
Qed.

(** ** Checking the propositions on a given text *)

Lemma clear_before {A} (here : jsstring -> option A) (gap s' : jsstring) (a : A) :
  search here (gap ++ s') = Some (gap, a) ->
  forall b1 b2, gap = b1 ++ b2 -> b2 <> [] -> here (b2 ++ s') = None.
Proof.
  intros H. apply search_sound in H. destruct H as (s'' & Hs & _ & Hfirst).
  apply app_inv_head in Hs. now subst s''.
Qed.

Lemma style_block_begins_found (s : jsstring) :
  style_block_begins s -> style_at s <> None.
Proof.
  intros (op & attrs & body & cl & rest & Hs & Hop & Hattrs & Hcl). subst s.
  unfold style_at, word.
  rewrite (strip_atoms_word (js "<style") op _ Hop).
  rewrite (indexOf_gt_found attrs _ Hattrs).
  destruct (search (strip_atoms true (map CChar (js "</style>"))) (body ++ cl ++ rest))
    as [[b [c r]]|] eqn:E; [discriminate|].
  rewrite search_none in E. specialize (E body (cl ++ rest) eq_refl).
  now rewrite (strip_atoms_word (js "</style>") cl rest Hcl) in E.
Qed.

Lemma stylesheet_link_begins_found (s : jsstring) :
  stylesheet_link_begins s -> link_at s <> None.
Proof.
  intros (op & attrs & rest & Hs & Hl). subst s.
  now rewrite (link_at_complete op attrs rest Hl).
Qed.

Lemma marked_block_begins_found (s : jsstring) :
  marked_block_begins s -> marked_at s <> None.
Proof.
  intros (op & attrs & body & cl & rest & Hs & Hop & Hattrs & Hm & Hcl).
  assert (Hb : style_at s <> None).
  { apply style_block_begins_found. now exists op, attrs, body, cl, rest. }
  subst s. unfold marked_at. unfold word at 1.
  rewrite (strip_atoms_word (js "<style") op _ Hop).
  replace (word_in_tag true (word "data-href") _) with true; [exact Hb|].
  symmetry. destruct Hm as (a1 & w & a2 & Ha & Hw). subst attrs.
  rewrite <- !app_assoc. apply word_in_tag_intro.
  - intros Hin. apply Hattrs. apply in_or_app. now left.
  - now apply atoms_match_word.
Qed.

Lemma no_style_block_before (gap s' : jsstring) (m : rmatch) :
  search style_at (gap ++ s') = Some (gap, m) ->
  forall b1 b2, gap = b1 ++ b2 -> b2 <> [] -> ~ style_block_begins (b2 ++ s').
Proof.
  intros H b1 b2 Hb Hne Hbegins. apply style_block_begins_found in Hbegins.
  now rewrite (clear_before style_at gap s' m H b1 b2 Hb Hne) in Hbegins.
Qed.

Lemma no_link_before (gap s' : jsstring) (m : rmatch) :
  search link_at (gap ++ s') = Some (gap, m) ->
  forall b1 b2, gap = b1 ++ b2 -> b2 <> [] -> ~ stylesheet_link_begins (b2 ++ s').
Proof.
  intros H b1 b2 Hb Hne Hbegins. apply stylesheet_link_begins_found in Hbegins.
  now rewrite (clear_before link_at gap s' m H b1 b2 Hb Hne) in Hbegins.
Qed.

Lemma no_marked_block_before (gap s' : jsstring) (m : rmatch) :
  search marked_at (gap ++ s') = Some (gap, m) ->
  forall b1 b2, gap = b1 ++ b2 -> b2 <> [] -> ~ marked_block_begins (b2 ++ s').
Proof.
  intros H b1 b2 Hb Hne Hbegins. apply marked_block_begins_found in Hbegins.
  now rewrite (clear_before marked_at gap s' m H b1 b2 Hb Hne) in Hbegins.
Qed.

Lemma no_style_block_anywhere (s : jsstring) :
  search style_at s = None -> forall a b, s = a ++ b -> ~ style_block_begins b.
Proof.
  intros H a b Hs Hbegins. apply style_block_begins_found in Hbegins.
  rewrite search_none in H. now rewrite (H a b Hs) in Hbegins.
Qed.

Lemma no_link_anywhere (s : jsstring) :
  search link_at s = None -> forall a b, s = a ++ b -> ~ stylesheet_link_begins b.
Proof.
  intros H a b Hs Hbegins. apply stylesheet_link_begins_found in Hbegins.
  rewrite search_none in H. now rewrite (H a b Hs) in Hbegins.
Qed.

Lemma no_marked_block_anywhere (s : jsstring) :
  search marked_at s = None -> forall a b, s = a ++ b -> ~ marked_block_begins b.
Proof.
  intros H a b Hs Hbegins. apply marked_block_begins_found in Hbegins.
  rewrite search_none in H. now rewrite (H a b Hs) in Hbegins.
Qed.

Lemma style_block_intro (op attrs body cl : jsstring) :
  str_eqb (map canonicalize op) (map canonicalize (js "<style")) = true ->
  forallb (fun u => negb (u =? 62)%N) attrs = true ->
  search (strip_atoms true (word "</style>")) (body ++ cl) = Some (body, (cl, [])) ->
  style_block op attrs body cl.
Proof.
  assert (Heq : forall a b, str_eqb a b = true -> a = b).
  { induction a as [|x a IH]; intros [|y b] H; try discriminate; [reflexivity|].
    simpl in H. apply andb_true_iff in H. destruct H as [H1 H2].
    apply N.eqb_eq in H1. subst. f_equal. now apply IH. }
  intros Hop Hattrs Hs. split; [now apply Heq|]. split.
  - intros Hin. rewrite forallb_forall in Hattrs. specialize (Hattrs _ Hin).
    now rewrite N.eqb_refl in Hattrs.
  - pose proof (clear_before _ body cl (cl, []) Hs) as Hclear.
    apply search_sound in Hs. destruct Hs as (s' & Hs & Hcl & _).
    apply app_inv_head in Hs. subst s'.
    apply strip_atoms_sound in Hcl. destruct Hcl as (_ & Hlen & Hm).
    split.
    + apply word_atoms_match in Hm. unfold word in Hlen. rewrite length_map in Hlen.
      now rewrite <- Hlen, firstn_all in Hm.
    + intros b1 b2 Hb Hne (x & y & Hxy & Hci).
      specialize (Hclear b1 b2 Hb Hne). unfold strip_atoms, word in Hclear.
      rewrite Hxy, (atoms_match_word (js "</style>") x y Hci) in Hclear. discriminate.
Qed.

(* ================================================================== *)
(** * The sanitizer *)
(* ================================================================== *)

Lemma sanitize_demo_page (href : jsstring) :
  ~ In 36%N href -> sanitize href demo_page = sanitized_demo href.
Proof.
  intros H. unfold sanitize.
  assert (E : strip_links (strip_styles demo_page)
              = (js "<html><head>" ++ placeholder) ++ js "</head>"
                ++ js "<body><h1>Hi</h1></body></html>") by (vm_compute; reflexivity).
  rewrite E, inject_link_first.
  - rewrite GetSubstitution_plain by exact H. unfold sanitized_demo.
    now rewrite <- !app_assoc.
  - intros b1 b2 y Hb Hne Hy.
    assert (Hi : indexOf (js "</head>")
                   ((js "<html><head>" ++ placeholder) ++ js "</head>"
                    ++ js "<body><h1>Hi</h1></body></html>")
                 = Some (js "<html><head>" ++ placeholder,
                         js "<body><h1>Hi</h1></body></html>"))
      by (vm_compute; reflexivity).
    apply indexOf_present in Hi. destruct Hi as [_ Hi].
    exact (Hi b1 b2 y Hb Hne Hy).
Qed.

(** C6, as amended.  Sanitizing applies three transforms to the text, in
    this order.  (1) Each style block found from left to right (an
    opening [<style], attributes without [>], a [>], the shortest body
    and a closing [</style>], letters in any case) is replaced by the
    placeholder comment; text in which no style block begins is left as
    it is.  (2) Each link found from left to right (an opening [<link]
    and, before its first [>], [rel=] followed by [stylesheet] between
    double or single quotes) is removed; text in which no such link
    begins is left as it is.  (3) When the text holds [</head>] and the
    style sheet's URL holds no dollar sign, the new link, a line feed
    and [</head>] take the place of the first [</head>]; text without
    [</head>] is left as it is.  In particular
    the page [<html><head><style>a{color:red}</style><link
    rel="stylesheet" href="x.css"></head>...] loses both the style block
    and the link and gets exactly the new link before [</head>]. *)
Theorem sanitize_transforms :
  (forall href html,
      sanitize href html = inject_link href (strip_links (strip_styles html)))
  /\ (forall gap op attrs body cl rest,
      style_block op attrs body cl ->
      (forall b1 b2, gap = b1 ++ b2 -> b2 <> [] ->
         ~ style_block_begins (b2 ++ op ++ attrs ++ [62%N] ++ body ++ cl ++ rest)) ->
      strip_styles (gap ++ op ++ attrs ++ [62%N] ++ body ++ cl ++ rest)
      = gap ++ placeholder ++ strip_styles rest)
  /\ (forall html,
      (forall a b, html = a ++ b -> ~ style_block_begins b) ->
      strip_styles html = html)
  /\ (forall gap op attrs rest,
      stylesheet_link op attrs ->
      (forall b1 b2, gap = b1 ++ b2 -> b2 <> [] ->
         ~ stylesheet_link_begins (b2 ++ op ++ attrs ++ [62%N] ++ rest)) ->
      strip_links (gap ++ op ++ attrs ++ [62%N] ++ rest) = gap ++ strip_links rest)
  /\ (forall html,
      (forall a b, html = a ++ b -> ~ stylesheet_link_begins b) ->
      strip_links html = html)
  /\ (forall href before after,
      ~ In 36%N href ->
      (forall b1 b2 y, before = b1 ++ b2 -> b2 <> [] ->
         b2 ++ js "</head>" ++ after <> js "</head>" ++ y) ->
      inject_link href (before ++ js "</head>" ++ after)
      = before ++ link_tag href ++ [10%N] ++ js "</head>" ++ after)
  /\ (forall href html,
      (forall a b, html <> a ++ js "</head>" ++ b) -> inject_link href html = html)
  /\ (forall href, ~ In 36%N href -> sanitize href demo_page = sanitized_demo href).
Proof.
  split; [reflexivity|].
  split; [exact strip_styles_block|].
  split; [exact strip_styles_none|].
  split; [exact strip_links_link|].
  split; [exact strip_links_none|].
  split; [|split; [exact inject_link_absent | exact sanitize_demo_page]].
  intros href before after Hd Hfirst.
  rewrite inject_link_first by exact Hfirst.
  now rewrite GetSubstitution_plain by exact Hd.
Qed.

Lemma sanitize_transforms_witness :
  strip_styles demo_page
  = js "<html><head>" ++ placeholder
    ++ strip_styles (js "<link rel=" ++ dquote ++ js "stylesheet" ++ dquote
                     ++ js " href=" ++ dquote ++ js "x.css" ++ dquote
                     ++ js "></head><body><h1>Hi</h1></body></html>")
  /\ strip_links (js "<html><head>" ++ js "<LINK"
                  ++ js " href='x.css' REL='StyleSheet'" ++ [62%N] ++ js "</head>")
     = js "<html><head>" ++ strip_links (js "</head>")
  /\ strip_links (js "</head>") = js "</head>"
  /\ sanitize (js "/dist/assets/app.css") demo_page
     = sanitized_demo (js "/dist/assets/app.css").
Proof.
  destruct sanitize_transforms as (_ & Hstyle & _ & Hlink & Hnolink & _ & _ & Hdemo).
  split; [|split; [|split]].
  - apply (Hstyle (js "<html><head>") (js "<style") [] (js "a{color:red}")
             (js "</style>")).
    + apply style_block_intro; vm_compute; reflexivity.
    + apply (no_style_block_before (js "<html><head>")
               (js "<style" ++ [] ++ [62%N] ++ js "a{color:red}" ++ js "</style>"
                ++ js "<link rel=" ++ dquote ++ js "stylesheet" ++ dquote
                ++ js " href=" ++ dquote ++ js "x.css" ++ dquote
                ++ js "></head><body><h1>Hi</h1></body></html>")
               (RMatch [] (js "<style>a{color:red}</style>") (js "a{color:red}")
                  (js "<link rel=" ++ dquote ++ js "stylesheet" ++ dquote
                   ++ js " href=" ++ dquote ++ js "x.css" ++ dquote
                   ++ js "></head><body><h1>Hi</h1></body></html>"))).
      vm_compute. reflexivity.
  - apply (Hlink (js "<html><head>") (js "<LINK") (js " href='x.css' REL='StyleSheet'")
             (js "</head>")).
    + split; [reflexivity|]. split.
      * vm_compute. intros H. repeat (destruct H as [H|H]; [discriminate|]). exact H.
      * exists (js " href='x.css' "), (js "REL="), 39%N, (js "StyleSheet"), 39%N, [].
        repeat split; try reflexivity; right; reflexivity.
    + apply (no_link_before (js "<html><head>")
               (js "<LINK" ++ js " href='x.css' REL='StyleSheet'" ++ [62%N]
                ++ js "</head>")
               (RMatch [] (js "<LINK href='x.css' REL='StyleSheet'>") []
                  (js "</head>"))).
      vm_compute. reflexivity.
  - apply Hnolink. apply no_link_anywhere. vm_compute. reflexivity.
  - apply Hdemo.
    vm_compute. intros H. repeat (destruct H as [H|H]; [discriminate|]). exact H.
Defined.

(** C6, the statement of the specification fails in three places.  A
    style sheet named [a$$b.css] is linked as [a$b.css], as the replacement text of line
    103 is a template in which [$$] stands for one dollar sign; a
    document with the style block and the link of the example but without
    [</head>] gets no new link; and a link written [rel=stylesheet],
    without quotes, is not removed. *)
Lemma sanitize_not_as_specified :
  (includes (link_tag dollar_href) (sanitize dollar_href demo_page) = false
   /\ sanitize dollar_href demo_page = sanitized_demo (js "/dist/assets/a$b.css"))
  /\ (includes (js "<link") (sanitize (js "/dist/assets/app.css") headless_page) = false
      /\ sanitize (js "/dist/assets/app.css") headless_page = placeholder)
  /\ strip_links unquoted_link_page = unquoted_link_page.
Proof. vm_compute. repeat split. Qed.

(* ================================================================== *)
(** * The page after the engine *)
(* ================================================================== *)

Section AfterEngine.

Context {W : Type} (host : Host W).

Lemma process_page_fetched (config : Config) (cssInfo : CssAssetInfo) (p : PageSpec)
    (st : state W) (resp : response) (html out : jsstring) (w1 w2 : W) :
  let url := baseUrl config ++ uri p in
  let options := beasties_options host config in
  let document := sanitize (href cssInfo) html in
  let outputPath :=
    path_join host [outputDir config; template p ++ js "_critical.min.css"] in
  host_fetch host url (world st) = (Ok resp, w1) ->
  (200 <= status resp <= 299)%N ->
  text resp = Ok html ->
  host_process host options document w1 = (Ok out, w2) ->
  let st2 := State w2 (trace st ++ [EvFetch url; EvProcess options document]) in
  process_page host config cssInfo p st
  = if is_blank (extract out)
    then (Ok (Result p false None (Some no_critical_message)), st2)
    else
      try_catch
        (mkdir host (path_dirname host outputPath) ;;;
         writeFile host outputPath (trim (extract out)) ;;;
         ret (Result p true
                (Some (kb_toFixed2 (byteLength (trim (extract out))))) None))
        (fun message => ret (Result p false None (Some message))) st2.
Proof.
  intros url options document outputPath Hf Hs Ht Hp st2.
  assert (Hok : ok resp = true).
  { unfold ok. destruct Hs as [H1 H2]. apply N.leb_le in H1, H2. now rewrite H1, H2. }
  assert (Hfetch : fetchHtml host url st
                   = (Ok html, State w1 (trace st ++ [EvFetch url]))).
  { unfold fetchHtml, bind, fetch, call. rewrite Hf, Hok, Ht. reflexivity. }
  assert (Hengine : process host options document (State w1 (trace st ++ [EvFetch url]))
                    = (Ok out, st2)).
  { unfold process, call. simpl world. rewrite Hp. unfold st2. simpl trace.
    now rewrite <- app_assoc. }
  unfold process_page. fold url. fold outputPath. unfold try_catch at 1.
  unfold bind at 1. rewrite Hfetch. fold document. fold options.
  unfold bind at 1. rewrite Hengine.
  destruct (is_blank (extract out)); reflexivity.
Qed.

End AfterEngine.

Section Recovery.

Context {W : Type} (host : Host W).

(** Once the page is fetched, the engine is called with the sanitized
    document whatever it holds. *)
Lemma process_page_reaches_engine (config : Config) (cssInfo : CssAssetInfo)
    (p : PageSpec) (st : state W) (resp : response) (html : jsstring) (w1 : W) :
  let url := baseUrl config ++ uri p in
  host_fetch host url (world st) = (Ok resp, w1) ->
  (200 <= status resp <= 299)%N ->
  text resp = Ok html ->
  exists r st' more,
    process_page host config cssInfo p st = (Ok r, st')
    /\ trace st' = trace st ++ EvFetch url
         :: EvProcess (beasties_options host config) (sanitize (href cssInfo) html)
         :: more.
Proof.
  intros url Hf Hs Ht.
  destruct (host_process host (beasties_options host config)
              (sanitize (href cssInfo) html) w1) as [[out|e] w2] eqn:Hp.
  - rewrite (process_page_fetched host config cssInfo p st resp html out w1 w2
               Hf Hs Ht Hp).
    destruct (is_blank (extract out)).
    + eexists. eexists. exists []. split; reflexivity.
    + unfold try_catch, bind, mkdir, writeFile, call, ret. simpl world. simpl trace.
      repeat match goal with
             | |- context [host_mkdir ?h ?a ?w] =>
                 destruct (host_mkdir h a w) as [[[]|?] ?]
             | |- context [host_writeFile ?h ?a ?b ?w] =>
                 destruct (host_writeFile h a b w) as [[[]|?] ?]
             end;
        eexists; eexists; eexists; (split; [reflexivity|]); simpl;
        rewrite <- !app_assoc; reflexivity.
  - assert (Hok : ok resp = true).
    { unfold ok. destruct Hs as [H1 H2]. apply N.leb_le in H1, H2. now rewrite H1, H2. }
    unfold process_page, try_catch, bind, fetchHtml, bind, fetch, call,
      of_outcome, process, call, ret.
    fold url. rewrite Hf, Hok, Ht. simpl. rewrite Hp.
    eexists. eexists. exists []. split; [reflexivity|]. simpl.
    now rewrite <- app_assoc.
Qed.

End Recovery.

(** ** Where the link goes *)

(** C9, as amended.  Let [stripped] be the fetched HTML after the style
    blocks are replaced and the style sheet links removed.  If
    [stripped] holds no [</head>], sanitizing returns [stripped]: no link
    is injected.  If it does, the text up to the first [</head>] is kept,
    then come the new link, a line feed and [</head>], then the text
    after that first occurrence, unchanged; the URL written in the link
    is the style sheet's, as it is when it holds no dollar sign.  No
    error is raised either way: once the page is fetched, the engine is
    called with the sanitized document. *)
Theorem link_injection_point (sheet html : jsstring) :
  let stripped := strip_links (strip_styles html) in
  ((forall a b, stripped <> a ++ js "</head>" ++ b) -> sanitize sheet html = stripped)
  /\ (forall before after,
        stripped = before ++ js "</head>" ++ after ->
        (forall b1 b2 y, before = b1 ++ b2 -> b2 <> [] ->
           b2 ++ js "</head>" ++ after <> js "</head>" ++ y) ->
        sanitize sheet html
        = before ++ link_tag (GetSubstitution (js "</head>") before after sheet)
            ++ [10%N] ++ js "</head>" ++ after)
  /\ (~ In 36%N sheet ->
      forall matched before after, GetSubstitution matched before after sheet = sheet)
  /\ (forall W (host : Host W) config cssInfo p st resp w1,
        sheet = href cssInfo ->
        host_fetch host (baseUrl config ++ uri p) (world st) = (Ok resp, w1) ->
        (200 <= status resp <= 299)%N ->
        text resp = Ok html ->
        exists r st' more,
          process_page host config cssInfo p st = (Ok r, st')
          /\ trace st' = trace st ++ EvFetch (baseUrl config ++ uri p)
               :: EvProcess (beasties_options host config) (sanitize sheet html)
               :: more).
Proof.
  intros stripped. unfold sanitize. fold stripped.
  split; [apply inject_link_absent|].
  split; [intros before after -> Hfirst; now apply inject_link_first|].
  split; [intros H matched before after; now apply GetSubstitution_plain|].
  intros W host config cssInfo p st resp w1 -> Hf Hs Ht.
  exact (process_page_reaches_engine host config cssInfo p st resp html w1 Hf Hs Ht).
Qed.

Lemma link_injection_point_witness :
  sanitize (js "/dist/assets/app.css") demo_page
  = (js "<html><head>" ++ placeholder)
    ++ link_tag (GetSubstitution (js "</head>") (js "<html><head>" ++ placeholder)
                   (js "<body><h1>Hi</h1></body></html>") (js "/dist/assets/app.css"))
    ++ [10%N] ++ js "</head>" ++ js "<body><h1>Hi</h1></body></html>".
Proof.
  apply (proj1 (proj2 (link_injection_point (js "/dist/assets/app.css") demo_page))).
  - vm_compute. reflexivity.
  - assert (Hi : indexOf (js "</head>")
                   ((js "<html><head>" ++ placeholder) ++ js "</head>"
                    ++ js "<body><h1>Hi</h1></body></html>")
                 = Some (js "<html><head>" ++ placeholder,
                         js "<body><h1>Hi</h1></body></html>"))
      by (vm_compute; reflexivity).
    apply indexOf_present in Hi. exact (proj2 Hi).
Defined.

(** C9, the statement of the specification fails: what counts is the
    text after the first two steps, not the fetched HTML.  A fetched page without any
    [</head>] gets a link when removing a style sheet link joins
    [</he] and [ad>]; a fetched page whose only [</head>] stands inside
    a style block gets none. *)
Lemma link_injection_not_as_specified :
  (includes (js "</head>") split_head_page = false
   /\ sanitize (js "/dist/assets/app.css") split_head_page
      <> strip_links (strip_styles split_head_page)
   /\ sanitize (js "/dist/assets/app.css") split_head_page
      = js "<html><head>" ++ link_tag (js "/dist/assets/app.css") ++ [10%N]
        ++ js "</head><body></body></html>")
  /\ (includes (js "</head>") head_in_style_page = true
      /\ includes (js "<link") (sanitize (js "/dist/assets/app.css") head_in_style_page)
         = false
      /\ sanitize (js "/dist/assets/app.css") head_in_style_page
         = js "<html><head>" ++ placeholder ++ js "<body></body></html>").
Proof.
  split; (split; [vm_compute; reflexivity|]); split;
    try (vm_compute; reflexivity).
  vm_compute. discriminate.
Qed.

(** ** What is taken from the output *)

Lemma trimStart_padded (lead s : jsstring) :
  forallb is_whitespace lead = true -> trimStart (lead ++ s) = trimStart s.
Proof.
  induction lead as [|u lead IH]; intros H; [reflexivity|].
  simpl in *. apply andb_true_iff in H. destruct H as [Hu Hl].
  rewrite Hu. now apply IH.
Qed.

Lemma trimStart_tight (s : jsstring) :
  (forall u rest, s = u :: rest -> is_whitespace u = false) -> trimStart s = s.
Proof.
  destruct s as [|u s]; intros H; [reflexivity|].
  simpl. now rewrite (H u s eq_refl).
Qed.

(** Trimming takes the white space off both ends and nothing else. *)
Lemma trim_padded (lead core tail : jsstring) :
  forallb is_whitespace lead = true -> forallb is_whitespace tail = true ->
  tight core ->
  trim (lead ++ core ++ tail) = core.
Proof.
  intros Hl Ht [Hfirst Hlast]. unfold trim, trimEnd.
  rewrite (trimStart_padded lead _ Hl).
  destruct core as [|u core].
  - simpl. assert (E : trimStart tail = []).
    { clear - Ht. induction tail as [|a tail IH]; [reflexivity|].
      simpl in *. apply andb_true_iff in Ht. destruct Ht as [Ha Ht].
      rewrite Ha. now apply IH. }
    rewrite E. reflexivity.
  - rewrite (trimStart_tight ((u :: core) ++ tail)).
    + rewrite rev_app_distr.
      rewrite trimStart_padded by (rewrite forallb_forall in *; intros x Hx;
                                   apply Ht; now apply in_rev).
      rewrite trimStart_tight; [apply rev_involutive|].
      intros v rest Hr.
      apply (Hlast (rev rest) v).
      rewrite <- (rev_involutive (u :: core)), Hr. reflexivity.
    + intros v rest Hr. simpl in Hr. inversion Hr; subst.
      exact (Hfirst v core eq_refl).
Qed.

(** A test for [tight]. *)
Lemma tight_intro (s : jsstring) :
  match s with
  | [] => true
  | u :: _ => negb (is_whitespace u) && negb (is_whitespace (last s u))
  end = true ->
  tight s.
Proof.
  destruct s as [|u s]; intros H.
  - split; [discriminate|]. intros [|? ?] ? E; discriminate.
  - apply andb_true_iff in H. destruct H as [H1 H2].
    apply negb_true_iff in H1, H2. split.
    + intros v rest E. now inversion E; subst.
    + intros front v E. rewrite E in H2. now rewrite last_last in H2.
Qed.

(** C7, as amended.  The critical CSS is recovered from the output of
    the engine as follows.  If a style block whose opening tag holds the
    text [data-href], in any case of letters and anywhere before its
    [>], begins somewhere, the body of the leftmost one is the result;
    otherwise the result is the bodies, appended from left to right, of
    the style blocks whose text, tags included, does not hold the word
    [existing-style-placeholder] (and nothing when there is no style
    block).  The result is trimmed: of a text made of white space, a
    text that neither begins nor ends with white space, and white space
    again, the middle part is kept.  If the trimmed result is empty, the
    page is recorded as [{success: false, error: "No critical CSS
    extracted"}], nothing is written (the trace holds the fetch and the
    call of the engine only) and the loop goes on with the next page;
    otherwise the trimmed result is what is written to the output
    file. *)
Theorem critical_css_recovery :
  (forall gap op attrs body cl rest,
      style_block op attrs body cl -> holds_marker attrs ->
      (forall b1 b2, gap = b1 ++ b2 -> b2 <> [] ->
         ~ marked_block_begins (b2 ++ op ++ attrs ++ [62%N] ++ body ++ cl ++ rest)) ->
      extract (gap ++ op ++ attrs ++ [62%N] ++ body ++ cl ++ rest) = body)
  /\ (forall out,
      (forall a b, out = a ++ b -> ~ marked_block_begins b) ->
      extract out = new_styles out)
  /\ (forall gap op attrs body cl rest,
      style_block op attrs body cl ->
      (forall b1 b2, gap = b1 ++ b2 -> b2 <> [] ->
         ~ style_block_begins (b2 ++ op ++ attrs ++ [62%N] ++ body ++ cl ++ rest)) ->
      new_styles (gap ++ op ++ attrs ++ [62%N] ++ body ++ cl ++ rest)
      = (if includes placeholder_word (op ++ attrs ++ [62%N] ++ body ++ cl)
         then [] else body) ++ new_styles rest)
  /\ (forall out,
      (forall a b, out = a ++ b -> ~ style_block_begins b) -> new_styles out = [])
  /\ (forall lead core tail,
      forallb is_whitespace lead = true -> forallb is_whitespace tail = true ->
      tight core ->
      trim (lead ++ core ++ tail) = core)
  /\ (forall W (host : Host W) config cssInfo p rest acc st resp html out w1 w2,
      let url := baseUrl config ++ uri p in
      let options := beasties_options host config in
      let document := sanitize (href cssInfo) html in
      let outputPath :=
        path_join host [outputDir config; template p ++ js "_critical.min.css"] in
      let st2 := State w2 (trace st ++ [EvFetch url; EvProcess options document]) in
      host_fetch host url (world st) = (Ok resp, w1) ->
      (200 <= status resp <= 299)%N ->
      text resp = Ok html ->
      host_process host options document w1 = (Ok out, w2) ->
      (trim (extract out) = [] ->
         let record := Result p false None (Some (js "No critical CSS extracted")) in
         process_page host config cssInfo p st = (Ok record, st2)
         /\ process_pages host config cssInfo (p :: rest) acc st
            = process_pages host config cssInfo rest (acc ++ [record]) st2)
      /\ (trim (extract out) <> [] ->
          forall w3 w4,
          host_mkdir host (path_dirname host outputPath) w2 = (Ok tt, w3) ->
          host_writeFile host outputPath (trim (extract out)) w3 = (Ok tt, w4) ->
          process_page host config cssInfo p st
          = (Ok (Result p true
                   (Some (kb_toFixed2 (byteLength (trim (extract out))))) None),
             State w4 (trace st ++ [EvFetch url; EvProcess options document;
                                    EvMkdir (path_dirname host outputPath);
                                    EvWriteFile outputPath (trim (extract out))])))).
Proof.
  split; [exact extract_marked|].
  split; [exact extract_unmarked|].
  split; [exact new_styles_block|].
  split; [exact new_styles_none|].
  split; [exact trim_padded|].
  intros W host config cssInfo p rest acc st resp html out w1 w2
         url options document outputPath st2 Hf Hs Ht Hp.
  pose proof (process_page_fetched host config cssInfo p st resp html out w1 w2
                Hf Hs Ht Hp) as Hpage.
  split.
  - intros Hblank record. apply is_blank_trim in Hblank. rewrite Hblank in Hpage.
    split; [exact Hpage|]. simpl. unfold bind at 1. now rewrite Hpage.
  - intros Hcss w3 w4 Hm Hw.
    assert (Hblank : is_blank (extract out) = false).
    { destruct (is_blank (extract out)) eqn:E; [|reflexivity].
      apply is_blank_trim in E. now elim Hcss. }
    rewrite Hblank in Hpage. rewrite Hpage.
    unfold try_catch, bind, mkdir, writeFile, call, ret. simpl world. simpl trace.
    fold url. fold outputPath. rewrite Hm. cbv beta iota. simpl world.
    rewrite Hw. simpl trace. rewrite <- !app_assoc. reflexivity.
Qed.

Lemma critical_css_recovery_witness :
  (extract demo_output = js " h1{color:blue} "
   /\ trim (js " h1{color:blue} ") = js "h1{color:blue}"
   /\ process_page (scenario_host demo) demo_config demo_css
        (Page (js "/") (js "index")) (State tt [])
      = (Ok demo_index_record,
         State tt [EvFetch (js "https://site.test/");
                   EvProcess (beasties_options (scenario_host demo) demo_config)
                     (sanitize (href demo_css) demo_page);
                   EvMkdir (js "/site/web/dist/criticalcss");
                   EvWriteFile demo_index_file demo_index_css]))
  /\ (extract blank_marked_output = js " " ++ [10%N] ++ js " "
      /\ trim (js " " ++ [10%N] ++ js " ") = [])
  /\ (extract unmarked_output = new_styles unmarked_output
      /\ new_styles unmarked_output
         = js "h1{color:blue}" ++ new_styles (js "</head></html>")
      /\ new_styles (js "</head></html>") = [])
  /\ process_page (scenario_host demo) demo_config demo_css
       (Page (js "/about") (js "about/index")) (State tt [])
     = (Ok demo_about_record,
        State tt [EvFetch (js "https://site.test/about");
                  EvProcess (beasties_options (scenario_host demo) demo_config)
                    (sanitize (href demo_css)
                       (js "<html><head></head><body></body></html>"))]).
Proof.
  destruct critical_css_recovery
    as (Hmarked & Hunmarked & Hblock & Hnone & Htrim & Hpage).
  assert (Hdemo : extract demo_output = js " h1{color:blue} ").
  { apply (Hmarked (js "<html><head>") (js "<style")
             (js " data-href=" ++ dquote ++ js "/dist/assets/app.css" ++ dquote)
             (js " h1{color:blue} ") (js "</style>")
             (js "</head><body><h1>Hi</h1></body></html>")).
    + apply style_block_intro; vm_compute; reflexivity.
    + exists (js " "), (js "data-href"),
        (js "=" ++ dquote ++ js "/dist/assets/app.css" ++ dquote).
      split; reflexivity.
    + apply (no_marked_block_before (js "<html><head>") _
               (RMatch [] (js "<style data-href=" ++ dquote ++ js "/dist/assets/app.css"
                           ++ dquote ++ js "> h1{color:blue} </style>")
                  (js " h1{color:blue} ")
                  (js "</head><body><h1>Hi</h1></body></html>"))).
      vm_compute. reflexivity. }
  assert (Htrimmed : trim (js " h1{color:blue} ") = js "h1{color:blue}").
  { apply (Htrim (js " ") (js "h1{color:blue}") (js " ")); try reflexivity.
    apply tight_intro. vm_compute. reflexivity. }
  split; [split; [exact Hdemo | split; [exact Htrimmed|]]|].
  - destruct (Hpage unit (scenario_host demo) demo_config demo_css
                (Page (js "/") (js "index")) [] [] (State tt [])
                (Response 200 (js "OK") (Ok demo_page)) demo_page demo_output tt tt)
      as [_ Hwritten].
    + reflexivity.
    + split; apply N.leb_le; reflexivity.
    + reflexivity.
    + vm_compute. reflexivity.
    + rewrite Hdemo, Htrimmed in Hwritten.
      apply (Hwritten ltac:(discriminate) tt tt); reflexivity.
  - split; [split|split; [split; [|split]|]].
    + apply (Hmarked (js "<html><head>") (js "<style")
               (js " data-href='/dist/assets/app.css'")
               (js " " ++ [10%N] ++ js " ") (js "</style>")
               (js "</head></html>")).
      * apply style_block_intro; vm_compute; reflexivity.
      * exists (js " "), (js "data-href"), (js "='/dist/assets/app.css'").
        split; reflexivity.
      * apply (no_marked_block_before (js "<html><head>") _
                 (RMatch [] (js "<style data-href='/dist/assets/app.css'> " ++ [10%N]
                             ++ js " </style>")
                    (js " " ++ [10%N] ++ js " ")
                    (js "</head></html>"))).
        vm_compute. reflexivity.
    + apply (Htrim (js " " ++ [10%N] ++ js " ") [] []); try reflexivity.
      apply tight_intro. reflexivity.
    + apply Hunmarked. apply no_marked_block_anywhere. vm_compute. reflexivity.
    + apply (Hblock (js "<html><head>") (js "<style") [] (js "h1{color:blue}")
               (js "</style>") (js "</head></html>")).
      * apply style_block_intro; vm_compute; reflexivity.
      * apply (no_style_block_before (js "<html><head>")
                 (js "<style" ++ [] ++ [62%N] ++ js "h1{color:blue}" ++ js "</style>"
                  ++ js "</head></html>")
                 (RMatch [] (js "<style>h1{color:blue}</style>") (js "h1{color:blue}")
                    (js "</head></html>"))).
        vm_compute. reflexivity.
    + apply Hnone. apply no_style_block_anywhere. vm_compute. reflexivity.
    + destruct (Hpage unit (scenario_host demo) demo_config demo_css
                  (Page (js "/about") (js "about/index")) [] [] (State tt [])
                  (Response 200 (js "OK")
                     (Ok (js "<html><head></head><body></body></html>")))
                  (js "<html><head></head><body></body></html>")
                  (sanitize (href demo_css)
                     (js "<html><head></head><body></body></html>")) tt tt)
        as [Hblank _].
      * reflexivity.
      * split; apply N.leb_le; reflexivity.
      * reflexivity.
      * vm_compute. reflexivity.
      * apply (proj1 (Hblank ltac:(vm_compute; reflexivity))).
Defined.

(** C7, the statement of the specification fails, in both of its cases.
    In [<style>a{}</style><style title='data-href'>b{}</style>] the only
    attribute is [title], so no block carries the marker attribute and
    the two contents together, [a{}b{}], are the critical CSS; the
    program finds the text [data-href] in the second opening tag and
    returns [b{}].  In an output whose only style block is
    [.existing-style-placeholder{color:red}] that block is not the
    placeholder, so its content is the critical CSS; the program drops
    it for the word it holds and returns nothing. *)
Lemma critical_css_recovery_not_as_specified :
  (attribute_names (js " title='data-href'") = [js "title"]
   /\ spec_extract marker_in_value_output = js "a{}b{}"
   /\ trim (extract marker_in_value_output) = js "b{}")
  /\ (spec_extract word_in_css_output = js ".existing-style-placeholder{color:red}"
      /\ trim (extract word_in_css_output) = []).
Proof.
  repeat split; vm_compute; reflexivity.
Qed.

(** ** The placeholder word *)



(* ================================================================== *)
(** * The calls of a run *)
(* ================================================================== *)

Section Calls.

Context {W : Type} (host : Host W).

(** The body of the loop returns a record and makes one of the five
    sequences of calls of [page_run]. *)
Lemma process_page_run (config : Config) (cssInfo : CssAssetInfo) (p : PageSpec)
    (st : state W) :
  exists r calls st',
    process_page host config cssInfo p st = (Ok r, st')
    /\ trace st' = trace st ++ calls
    /\ page_run host config cssInfo p r calls.
Proof.
  unfold process_page, fetchHtml, fetch, process, mkdir, writeFile.
  unfold try_catch, bind, call, of_outcome, throw, ret.
  fold (page_url config p). fold (output_path host config p).
  destruct (host_fetch host (page_url config p) (world st)) as [[resp|e] w1];
    [|do 3 eexists; split; [reflexivity|]; split; [reflexivity|]; constructor].
  destruct (negb (ok resp));
    [do 3 eexists; split; [reflexivity|]; split; [reflexivity|]; constructor|].
  destruct (text resp) as [html|e];
    [|do 3 eexists; split; [reflexivity|]; split; [reflexivity|]; constructor].
  cbn [world trace].
  destruct (host_process host _ _ w1) as [[out|e] w2];
    [|do 3 eexists; split; [reflexivity|]; split;
       [cbn [trace]; rewrite <- app_assoc; reflexivity | apply not_extracted]].
  destruct (is_blank (extract out)) eqn:Eb;
    [do 3 eexists; split; [reflexivity|]; split;
       [cbn [trace]; rewrite <- app_assoc; reflexivity | apply not_extracted]|].
  cbn [world trace].
  destruct (host_mkdir host _ w2) as [[[]|e] w3];
    [|do 3 eexists; split; [reflexivity|]; split;
       [cbn [trace]; rewrite <- !app_assoc; reflexivity | apply no_directory]].
  cbn [world trace].
  destruct (host_writeFile host _ _ w3) as [[[]|e] w4];
    do 3 eexists; (split; [reflexivity|]); (split;
      [cbn [trace]; rewrite <- !app_assoc; reflexivity|]).
  - now apply written_out.
  - now apply not_written.
Qed.

(** The loop returns one record per page and makes the calls of the
    pages one after the other. *)
Lemma process_pages_run (config : Config) (cssInfo : CssAssetInfo)
    (ps : list PageSpec) :
  forall (acc : list PageResult) (st : state W),
  exists (runs : list (PageResult * list event)) st',
    process_pages host config cssInfo ps acc st = (Ok (acc ++ map fst runs), st')
    /\ trace st' = trace st ++ flat_map snd runs
    /\ Forall2 (fun p run => page_run host config cssInfo p (fst run) (snd run))
         ps runs.
Proof.
  induction ps as [|p ps IH]; intros acc st; simpl.
  - exists [], st. simpl. rewrite !app_nil_r. repeat split. constructor.
  - unfold bind.
    destruct (process_page_run config cssInfo p st) as (r & calls & st1 & E & Ht & Hr).
    rewrite E.
    destruct (IH (acc ++ [r]) st1) as (runs & st2 & E2 & Ht2 & Hruns).
    exists ((r, calls) :: runs), st2. rewrite E2, <- app_assoc. simpl.
    split; [reflexivity|]. split.
    + rewrite Ht2, Ht, <- app_assoc. reflexivity.
    + constructor; assumption.
Qed.

(** The locator reads the manifest, lists the assets directory when the
    manifest gave nothing, and throws nothing but the error of line 47,
    after both. *)
Lemma getBuiltCssInfo_calls (config : Config) (st : state W) :
  let manifestFile := path_resolve host (projectRoot config) (manifestPath config) in
  let assetsDir := path_resolve host (projectRoot config) (js "web/dist/assets") in
  exists r reads st',
    getBuiltCssInfo host config st = (r, st')
    /\ trace st' = trace st ++ reads
    /\ ((reads = [EvReadFile manifestFile]
         /\ exists cssFile, r = Ok (located host config cssFile))
        \/ (reads = [EvReadFile manifestFile; EvReaddir assetsDir]
            /\ ((exists name, endsWith (js ".css") name = true
                   /\ r = Ok (located host config (js "assets/" ++ name)))
                \/ r = Throw no_css_message))).
Proof.
  intros manifestFile assetsDir.
  destruct (host_readFile host manifestFile (world st)) as [file w2] eqn:Hf.
  destruct (host_readdir host assetsDir w2) as [listing w3] eqn:Hd.
  rewrite (getBuiltCssInfo_eq host config st Hf Hd).
  destruct (manifest_yields host config file) as [cssFile|].
  - do 3 eexists. split; [reflexivity|]. split; [reflexivity|].
    left. split; [reflexivity|]. now exists cssFile.
  - do 3 eexists. split; [reflexivity|]. split; [reflexivity|].
    right. split; [reflexivity|].
    destruct listing as [files|e]; [|now right].
    destruct (find (endsWith (js ".css")) files) as [name|] eqn:E; [|now right].
    left. exists name. apply find_some in E. now split.
Qed.

End Calls.

Section RunShape.

Context {W : Type} (host : Host W).

(** A run either stops at the [mkdir] of line 70, or stops in the
    locator with the error of line 47, or returns a summary after the
    calls of its pages. *)
Lemma generateCriticalCss_calls (config : Config) (st : state W) :
  let manifestFile := path_resolve host (projectRoot config) (manifestPath config) in
  let assetsDir := path_resolve host (projectRoot config) (js "web/dist/assets") in
  exists r st',
    generateCriticalCss host config st = (r, st')
    /\ ((exists e, r = Throw e
           /\ fst (host_mkdir host (outputDir config) (world st)) = Throw e
           /\ trace st' = trace st ++ [EvMkdir (outputDir config)])
        \/ (r = Throw no_css_message
            /\ trace st' = trace st ++ [EvMkdir (outputDir config);
                                        EvReadFile manifestFile; EvReaddir assetsDir])
        \/ (exists cssInfo reads (runs : list (PageResult * list event)),
              r = Ok (Summary (map fst runs)
                        (length (filter (fun r => success r) (map fst runs)))
                        (length (filter (fun r => negb (success r)) (map fst runs))))
              /\ trace st' = trace st ++ EvMkdir (outputDir config) :: reads
                               ++ flat_map snd runs
              /\ (reads = [EvReadFile manifestFile]
                  \/ reads = [EvReadFile manifestFile; EvReaddir assetsDir])
              /\ Forall2 (fun p run => page_run host config cssInfo p (fst run) (snd run))
                   (pages config) runs)).
Proof.
  intros manifestFile assetsDir.
  unfold generateCriticalCss, bind, mkdir, call, ret.
  destruct (host_mkdir host (outputDir config) (world st)) as [[[]|e] w1] eqn:Hm.
  - destruct (getBuiltCssInfo_calls host config
                (State w1 (trace st ++ [EvMkdir (outputDir config)])))
      as (r & reads & st2 & E & Ht & Hr).
    rewrite E. cbn [trace] in Ht.
    destruct Hr as [[Hreads (cssFile & ->)] | [Hreads [(name & _ & ->) | ->]]].
    + destruct (process_pages_run host config (located host config cssFile)
                  (pages config) [] st2) as (runs & st3 & E3 & Ht3 & Hruns).
      rewrite E3. do 2 eexists. split; [reflexivity|]. right. right.
      exists (located host config cssFile), reads, runs.
      split; [reflexivity|]. split.
      * rewrite Ht3, Ht, <- !app_assoc. reflexivity.
      * split; [now left | exact Hruns].
    + destruct (process_pages_run host config
                  (located host config (js "assets/" ++ name))
                  (pages config) [] st2) as (runs & st3 & E3 & Ht3 & Hruns).
      rewrite E3. do 2 eexists. split; [reflexivity|]. right. right.
      exists (located host config (js "assets/" ++ name)), reads, runs.
      split; [reflexivity|]. split.
      * rewrite Ht3, Ht, <- !app_assoc. reflexivity.
      * split; [now right | exact Hruns].
    + do 2 eexists. split; [reflexivity|]. right. left.
      split; [reflexivity|]. rewrite Ht, Hreads, <- app_assoc. reflexivity.
  - do 2 eexists. split; [reflexivity|]. left. exists e.
    split; [reflexivity|]. split; reflexivity.
Qed.

Lemma fetched_app (a b : list event) : fetched (a ++ b) = fetched a ++ fetched b.
Proof. apply flat_map_app. Qed.

Lemma written_app (a b : list event) : written (a ++ b) = written a ++ written b.
Proof. apply flat_map_app. Qed.

Lemma processed_app (a b : list event) : processed (a ++ b) = processed a ++ processed b.
Proof. apply flat_map_app. Qed.

Lemma engine_calls_app (a b : list event) :
  engine_calls (a ++ b) = engine_calls a ++ engine_calls b.
Proof. apply flat_map_app. Qed.

(** The URLs the pages of a loop fetch. *)
Lemma fetched_runs (config : Config) (cssInfo : CssAssetInfo) (ps : list PageSpec)
    (runs : list (PageResult * list event)) :
  Forall2 (fun p run => page_run host config cssInfo p (fst run) (snd run)) ps runs ->
  fetched (flat_map snd runs) = map (page_url config) ps.
Proof.
  induction 1 as [|p [r calls] ps runs Hp _ IH]; [reflexivity|].
  simpl. rewrite fetched_app, IH. simpl in Hp.
  destruct Hp; reflexivity.
Qed.

End RunShape.

(** ** [trim] *)

Lemma trimStart_fixed (s : jsstring) : trimStart (trimStart s) = trimStart s.
Proof.
  induction s as [|u s IH]; [reflexivity|]. simpl.
  destruct (is_whitespace u) eqn:E; [exact IH|]. simpl. now rewrite E.
Qed.

Lemma trimStart_nil (s : jsstring) :
  trimStart s = [] <-> forallb is_whitespace s = true.
Proof.
  induction s as [|u s IH]; [now split|]. simpl.
  destruct (is_whitespace u); [exact IH|]. now split.
Qed.

Lemma trimStart_snoc (s : jsstring) (u : N) :
  is_whitespace u = false -> trimStart (s ++ [u]) = trimStart s ++ [u].
Proof.
  intros Hu. induction s as [|a s IH]; simpl.
  - now rewrite Hu.
  - destruct (is_whitespace a); [exact IH | reflexivity].
Qed.

Lemma trimEnd_cons (u : N) (s : jsstring) :
  is_whitespace u = false -> trimEnd (u :: s) = u :: trimEnd s.
Proof.
  intros Hu. unfold trimEnd. simpl. rewrite (trimStart_snoc _ _ Hu).
  now rewrite rev_app_distr.
Qed.

Lemma trimEnd_fixed (s : jsstring) : trimEnd (trimEnd s) = trimEnd s.
Proof. unfold trimEnd. now rewrite rev_involutive, trimStart_fixed. Qed.

(** Trimming a trimmed text changes nothing. *)
Lemma trim_fixed (s : jsstring) : trim (trim s) = trim s.
Proof.
  unfold trim.
  assert (H : forall t, trimStart t = t -> trimStart (trimEnd t) = trimEnd t).
  { intros [|u t] Ht; [reflexivity|].
    simpl in Ht. destruct (is_whitespace u) eqn:Eu.
    - exfalso. assert (Hl : length (trimStart t) <= length t).
      { clear. induction t as [|a t IH]; simpl; [lia|].
        destruct (is_whitespace a); simpl; lia. }
      rewrite Ht in Hl. simpl in Hl. lia.
    - rewrite (trimEnd_cons _ _ Eu). simpl. now rewrite Eu. }
  rewrite (H (trimStart s) (trimStart_fixed s)). apply trimEnd_fixed.
Qed.

Lemma forallb_rev {A} (f : A -> bool) (l : list A) :
  forallb f (rev l) = forallb f l.
Proof.
  induction l as [|x l IH]; [reflexivity|]. simpl.
  rewrite forallb_app, IH. simpl. rewrite andb_true_r. apply andb_comm.
Qed.

Lemma trim_nil (s : jsstring) : trim s = [] <-> forallb is_whitespace s = true.
Proof.
  unfold trim, trimEnd. split.
  - intros H. apply (f_equal (@rev N)) in H. rewrite rev_involutive in H. simpl in H.
    apply trimStart_nil in H. rewrite forallb_rev in H.
    destruct (trimStart s) as [|u t] eqn:E; [now apply trimStart_nil|].
    exfalso. assert (Hu : is_whitespace u = false).
    { clear H. induction s as [|a s IH]; [discriminate|]. simpl in E.
      destruct (is_whitespace a) eqn:Ea; [now apply IH|].
      inversion E; subst. exact Ea. }
    simpl in H. now rewrite Hu in H.
  - intros H. apply trimStart_nil in H. now rewrite H.
Qed.

Section RunFacts.

Context {W : Type} (host : Host W).

(** What one page contributes to the writes and to the engine calls. *)
Lemma page_run_facts (config : Config) (cssInfo : CssAssetInfo) (p : PageSpec)
    (r : PageResult) (calls : list event) :
  page_run host config cssInfo p r calls ->
  page r = p
  /\ (exists more, calls = EvFetch (page_url config p) :: more)
  /\ ((success r = true /\ error r = None
       /\ exists content,
            size r = Some (kb_toFixed2 (byteLength content))
            /\ written calls = [(output_path host config p, content)])
      \/ (success r = false /\ size r = None /\ exists e, error r = Some e))
  /\ (forall path content, In (path, content) (written calls) ->
        path = output_path host config p /\ content <> [] /\ trim content = content)
  /\ (forall before path content after,
        calls = before ++ EvWriteFile path content :: after ->
        exists before', before = before' ++ [EvMkdir (path_dirname host path)])
  /\ length (engine_calls calls) <= 1
  /\ (forall options html, In (options, html) (engine_calls calls) ->
        options = beasties_options host config).
Proof.
  assert (Hsplit : forall (a b c d : event) before x after,
            [a; b; c; d] = before ++ x :: after ->
            (before = [] /\ x = a) \/ (before = [a] /\ x = b)
            \/ (before = [a; b] /\ x = c) \/ (before = [a; b; c] /\ x = d)).
  { intros a b c d before x after H.
    destruct before as [|e1 [|e2 [|e3 [|e4 [|e5 before]]]]]; simpl in H;
      inversion H; subst; auto 6. }
  assert (Htrim : forall css, is_blank css = false ->
            trim css <> [] /\ trim (trim css) = trim css).
  { intros css Hb. split; [|apply trim_fixed].
    intros Ht. apply is_blank_trim in Ht. congruence. }
  intros H. destruct H as [e | html e | html e | html css e Hb | html css Hb];
    (split; [reflexivity|]); (split; [eexists; reflexivity|]); simpl.
  - split; [right; repeat split; now exists e|].
    split; [intros ? ? []|]. split; [|split; [lia | intros ? ? []]].
    intros [|? [|]] ? ? ? Hc; inversion Hc.
  - split; [right; repeat split; now exists e|].
    split; [intros ? ? []|]. split; [|split; [lia|]].
    + intros [|? [|? [|]]] ? ? ? Hc; inversion Hc.
    + intros ? ? [Hi|[]]. now inversion Hi.
  - split; [right; repeat split; now exists e|].
    split; [intros ? ? []|]. split; [|split; [lia|]].
    + intros [|? [|? [|? [|]]]] ? ? ? Hc; inversion Hc.
    + intros ? ? [Hi|[]]. now inversion Hi.
  - split; [right; repeat split; now exists e|].
    split; [|split; [|split; [lia|]]].
    + intros ? ? [Hi|[]]. inversion Hi; subst. split; [reflexivity|]. now apply Htrim.
    + intros before path content after Hc.
      destruct (Hsplit _ _ _ _ _ _ _ Hc) as [[_ Hx]|[[_ Hx]|[[_ Hx]|[-> Hx]]]];
        try discriminate.
      inversion Hx; subst. now eexists [_; _].
    + intros ? ? [Hi|[]]. now inversion Hi.
  - split; [left; repeat split; now eexists|].
    split; [|split; [|split; [lia|]]].
    + intros ? ? [Hi|[]]. inversion Hi; subst. split; [reflexivity|]. now apply Htrim.
    + intros before path content after Hc.
      destruct (Hsplit _ _ _ _ _ _ _ Hc) as [[_ Hx]|[[_ Hx]|[[_ Hx]|[-> Hx]]]];
        try discriminate.
      inversion Hx; subst. now eexists [_; _].
    + intros ? ? [Hi|[]]. now inversion Hi.
Qed.

End RunFacts.

Section RunLemmas.

Context {W : Type} (host : Host W).

Lemma Forall2_In_r {A B} (R : A -> B -> Prop) (l : list A) (l' : list B) (b : B) :
  Forall2 R l l' -> In b l' -> exists a, In a l /\ R a b.
Proof.
  induction 1 as [|x y l l' Hxy _ IH]; intros Hin; [destruct Hin|].
  destruct Hin as [<-|Hin].
  - exists x. split; [now left | exact Hxy].
  - destruct (IH Hin) as (a & Ha & HR). exists a. split; [now right | exact HR].
Qed.

(** A record of the results comes from the run of one configured page. *)
Lemma result_of_a_page (config : Config) (cssInfo : CssAssetInfo)
    (runs : list (PageResult * list event)) (r : PageResult) :
  Forall2 (fun p run => page_run host config cssInfo p (fst run) (snd run))
    (pages config) runs ->
  In r (map fst runs) ->
  exists p calls, In p (pages config) /\ In (r, calls) runs
                  /\ page_run host config cssInfo p r calls.
Proof.
  intros Hruns Hin. apply in_map_iff in Hin. destruct Hin as ([r' calls] & Hr & Hin).
  simpl in Hr. subst r'.
  destruct (Forall2_In_r _ _ _ _ Hruns Hin) as (p & Hp & Hrun).
  now exists p, calls.
Qed.

Lemma in_flat_map_snd {A} (f : list event -> list A)
    (Hf : forall a b, f (a ++ b) = f a ++ f b) (Hnil : f [] = [])
    (runs : list (PageResult * list event)) (x : A) :
  In x (f (flat_map snd runs)) <-> exists run, In run runs /\ In x (f (snd run)).
Proof.
  induction runs as [|run runs IH]; simpl.
  - rewrite Hnil. split; [intros [] | intros (? & [] & _)].
  - rewrite Hf, in_app_iff, IH. split.
    + intros [H | (run' & Hin & H)]; [exists run; auto | exists run'; auto].
    + intros (run' & [<- | Hin] & H); [now left | right; now exists run'].
Qed.

Lemma follows_app (a b : list event) :
  write_follows_mkdir host a -> write_follows_mkdir host b -> no_write_head b ->
  write_follows_mkdir host (a ++ b).
Proof.
  intros Ha Hb Hh before path content after H.
  apply app_eq_app in H. destruct H as (l & [[-> H] | [-> H]]).
  - destruct l as [|x l]; simpl in H.
    + rewrite <- H in Hh. destruct Hh.
    + inversion H; subst. exact (Ha _ _ _ _ eq_refl).
  - destruct (Hb _ _ _ _ H) as (b' & ->). exists (a ++ b'). now rewrite app_assoc.
Qed.

Lemma follows_without_write (tr : list event) :
  written tr = [] -> write_follows_mkdir host tr.
Proof.
  intros H before path content after E. subst tr.
  rewrite written_app in H. simpl in H.
  destruct (written before); discriminate.
Qed.

Lemma follows_runs (config : Config) (cssInfo : CssAssetInfo) (ps : list PageSpec)
    (runs : list (PageResult * list event)) :
  Forall2 (fun p run => page_run host config cssInfo p (fst run) (snd run)) ps runs ->
  write_follows_mkdir host (flat_map snd runs) /\ no_write_head (flat_map snd runs).
Proof.
  induction 1 as [|p [r calls] ps runs Hp _ [IHg IHh]]; simpl.
  - split; [now apply follows_without_write | exact I].
  - simpl in Hp.
    destruct (page_run_facts host config cssInfo p r calls Hp)
      as (_ & (more & Hcalls) & _ & _ & Hg & _).
    split; [now apply follows_app|]. now rewrite Hcalls.
Qed.

(** The file of a successful record. *)
Lemma success_file (config : Config) (st st' : state W) (summary : RunSummary)
    (r : PageResult) :
  generateCriticalCss host config st = (Ok summary, st') ->
  In r (results summary) ->
  success r = true ->
  exists content,
    In (output_path host config (page r), content) (written (trace st'))
    /\ size r = Some (kb_toFixed2 (byteLength content)).
Proof.
  intros H Hin Hs.
  destruct (generateCriticalCss_calls host config st) as (o & st1 & E & Hcases).
  rewrite H in E. inversion E; subst o st1; clear E.
  destruct Hcases as [(e & He & _)
                      | [(He & _)
                      | (cssInfo & reads & runs & Hsum & Ht & Hreads & Hruns)]];
    try discriminate.
  inversion Hsum; subst summary; clear Hsum. simpl in Hin.
  destruct (result_of_a_page config cssInfo runs r Hruns Hin)
    as (p & calls & _ & Hrun & Hpr).
  destruct (page_run_facts host config cssInfo p r calls Hpr)
    as (Hpage & _ & [(_ & _ & content & Hsize & Hw) | (Hf & _)] & _); [|congruence].
  exists content. split; [|exact Hsize].
  rewrite Ht, written_app. apply in_or_app. right.
  change (EvMkdir (outputDir config) :: reads ++ flat_map snd runs)
    with ([EvMkdir (outputDir config)] ++ reads ++ flat_map snd runs).
  rewrite !written_app. apply in_or_app. right. apply in_or_app. right.
  apply (in_flat_map_snd written written_app eq_refl).
  exists (r, calls). split; [exact Hrun|]. simpl. rewrite Hw, Hpage. now left.
Qed.

End RunLemmas.

(* ================================================================== *)
(** * The locator and the options of the engine *)
(* ================================================================== *)

Lemma str_eqb_eq (a b : jsstring) : str_eqb a b = true <-> a = b.
Proof.
  revert b. induction a as [|x a IH]; intros [|y b]; simpl; split; intros H;
    try discriminate; try reflexivity.
  - apply andb_true_iff in H. destruct H as [H1 H2]. apply N.eqb_eq in H1.
    apply IH in H2. now subst.
  - inversion H; subst. unfold unit_eqb. rewrite N.eqb_refl. now apply IH.
Qed.

Lemma str_eqb_refl (a : jsstring) : str_eqb a a = true.
Proof. now apply str_eqb_eq. Qed.

Lemma str_eqb_neq (a b : jsstring) : a <> b -> str_eqb a b = false.
Proof.
  intros H. destruct (str_eqb a b) eqn:E; [|reflexivity].
  apply str_eqb_eq in E. contradiction.
Qed.

Lemma assoc_absent (key : jsstring) (o : object) :
  ~ In key (map fst o) -> assoc key o = None.
Proof.
  induction o as [|[k v] o IH]; intros H; [reflexivity|]. simpl in *.
  rewrite str_eqb_neq by (intros E; apply H; now left).
  apply IH. intros Hin. apply H. now right.
Qed.

(** Reading a property after it, or another one, was set. *)
Lemma assoc_obj_set (key k : jsstring) (v : json) (o : object) :
  assoc key (obj_set k v o) = if str_eqb k key then Some v else assoc key o.
Proof.
  induction o as [|[k' x] o IH]; simpl.
  - reflexivity.
  - destruct (str_eqb k' k) eqn:E1; simpl.
    + apply str_eqb_eq in E1. subst k'.
      destruct (str_eqb k key); reflexivity.
    + rewrite IH. destruct (str_eqb k' key) eqn:E2; [|reflexivity].
      apply str_eqb_eq in E2. subst k'.
      destruct (str_eqb k key) eqn:E3; [|reflexivity].
      apply str_eqb_eq in E3. subst k. now rewrite str_eqb_refl in E1.
Qed.

(** [{ ...base, ...extra }] read at a key: the property of [extra] when
    it has one, that of [base] otherwise. *)
Lemma assoc_obj_spread (key : jsstring) (extra : object) :
  given_once extra ->
  forall base,
    assoc key (obj_spread base extra)
    = match assoc key extra with
      | Some v => Some v
      | None => assoc key base
      end.
Proof.
  unfold obj_spread, given_once.
  induction extra as [|[k v] extra IH]; intros Hnd base; [reflexivity|].
  simpl in *. inversion Hnd as [|? ? Hk Hnd']; subst.
  rewrite (IH Hnd'), assoc_obj_set.
  destruct (str_eqb k key) eqn:E.
  - apply str_eqb_eq in E. subst k. now rewrite (assoc_absent _ _ Hk).
  - reflexivity.
Qed.

Section LocatorFacts.

Context {W : Type} (host : Host W).

(** X1.  The locator reads the manifest file first.  When the manifest
    gives it a file, it returns that file and makes no other call; only
    when the manifest gives it none does it list the assets directory,
    and that is then its one other call.  Whatever the two reads and
    [JSON.parse] throw, the only error it passes on is the one of line
    47, and then the manifest gave no file and both reads were made. *)
Theorem locator_reads_and_errors (config : Config) (st : state W) :
  let manifestFile := path_resolve host (projectRoot config) (manifestPath config) in
  let assetsDir := path_resolve host (projectRoot config) (js "web/dist/assets") in
  let file := fst (host_readFile host manifestFile (world st)) in
  let result := getBuiltCssInfo host config st in
  (forall cssFile, manifest_yields host config file = Some cssFile ->
     fst result = Ok (located host config cssFile)
     /\ trace (snd result) = trace st ++ [EvReadFile manifestFile])
  /\ (manifest_yields host config file = None ->
      trace (snd result) = trace st ++ [EvReadFile manifestFile; EvReaddir assetsDir])
  /\ forall e, fst result = Throw e ->
       e = no_css_message
       /\ manifest_yields host config file = None
       /\ trace (snd result) = trace st ++ [EvReadFile manifestFile; EvReaddir assetsDir].
Proof.
  intros manifestFile assetsDir file result. unfold result, file.
  destruct (host_readFile host manifestFile (world st)) as [content w2] eqn:Hf.
  destruct (host_readdir host assetsDir w2) as [listing w3] eqn:Hd.
  rewrite (getBuiltCssInfo_eq host config st Hf Hd). cbn [fst].
  destruct (manifest_yields host config content) as [cssFile|].
  - split; [|split]; [|discriminate|discriminate].
    intros f Hy. inversion Hy; subst. now split.
  - split; [discriminate|]. split; [reflexivity|].
    intros e He. cbn [fst snd trace] in *.
    destruct listing as [files|e'].
    + destruct (find (endsWith (js ".css")) files); inversion He. now repeat split.
    + inversion He. now repeat split.
Qed.

(** X2.  The style sheet the locator returns lies under [web/dist] of
    the project and is linked under [/dist/], for one and the same file
    name, whatever [publicDir] and [publicPath] are configured; when the
    assets directory was listed, the file is [assets/<name>] where
    [name] is a name of the listing [readdir] returned, the first one of
    it that ends in [.css]. *)
Theorem located_sheet_is_under_dist (config : Config) (w : W) (info : CssAssetInfo) :
  let manifestFile := path_resolve host (projectRoot config) (manifestPath config) in
  let assetsDir := path_resolve host (projectRoot config) (js "web/dist/assets") in
  let result := getBuiltCssInfo host config (State w []) in
  fst result = Ok info ->
  exists cssFile,
    href info = js "/dist/" ++ cssFile
    /\ absolutePath info = path_join host [projectRoot config; js "web/dist"; cssFile]
    /\ (In (EvReaddir assetsDir) (trace (snd result)) ->
        exists files name,
          fst (host_readdir host assetsDir (snd (host_readFile host manifestFile w)))
          = Ok files
          /\ find (endsWith (js ".css")) files = Some name
          /\ In name files
          /\ endsWith (js ".css") name = true
          /\ cssFile = js "assets/" ++ name).
Proof.
  intros manifestFile assetsDir result. unfold result.
  destruct (host_readFile host manifestFile w) as [file w2] eqn:Hf. cbn [snd].
  destruct (host_readdir host assetsDir w2) as [listing w3] eqn:Hd.
  rewrite (getBuiltCssInfo_eq host config (State w []) Hf Hd). cbn [fst snd].
  destruct (manifest_yields host config file) as [cssFile|].
  - cbn [fst snd trace]. intros Hinfo. inversion Hinfo; subst info.
    exists cssFile. split; [reflexivity|]. split; [reflexivity|].
    intros [Hin|[]]. discriminate.
  - cbn [fst snd trace]. destruct listing as [files|e]; [|discriminate].
    destruct (find (endsWith (js ".css")) files) as [name|] eqn:E; [|discriminate].
    intros Hinfo. inversion Hinfo; subst info.
    exists (js "assets/" ++ name). split; [reflexivity|]. split; [reflexivity|].
    intros _. exists files, name. destruct (find_some _ _ E) as [Hin Hcss].
    repeat split; assumption || reflexivity.
Qed.

(** X3.  The options the engine is built with (lines 76-80): an option
    the configuration gives under [beasties] reaches the engine as
    given, [path] and [publicPath] included; the computed [path] and
    [publicPath] are used for the keys it does not give; and no other
    key is set. *)
Theorem configured_options_win (config : Config) (key : jsstring) :
  given_once (beasties config) ->
  assoc key (beasties_options host config)
  = match assoc key (beasties config) with
    | Some v => Some v
    | None =>
        if str_eqb (js "path") key
        then Some (JStr (path_resolve host (projectRoot config) (publicDir config)))
        else if str_eqb (js "publicPath") key
        then Some (JStr (publicPath config))
        else None
    end.
Proof.
  intros H. unfold beasties_options. now rewrite (assoc_obj_spread key _ H).
Qed.

End LocatorFacts.

Lemma locator_reads_and_errors_witness :
  (fst (getBuiltCssInfo (scenario_host demo) demo_config (State tt [])) = Ok demo_css
   /\ trace (snd (getBuiltCssInfo (scenario_host demo) demo_config (State tt [])))
      = [EvReadFile (js "/site/web/dist/.vite/manifest.json")])
  /\ trace (snd (getBuiltCssInfo (scenario_host nothing_built) demo_config (State tt [])))
     = [EvReadFile (js "/site/web/dist/.vite/manifest.json");
        EvReaddir (js "/site/web/dist/assets")].
Proof.
  split.
  - exact (proj1 (locator_reads_and_errors (scenario_host demo) demo_config
                    (State tt [])) (js "assets/app.css") eq_refl).
  - exact (proj1 (proj2 (locator_reads_and_errors (scenario_host nothing_built)
                           demo_config (State tt []))) eq_refl).
Defined.

Lemma located_sheet_is_under_dist_witness :
  exists cssFile,
    js "/dist/assets/main.css" = js "/dist/" ++ cssFile
    /\ exists files name,
         sc_listing no_manifest = Ok files
         /\ find (endsWith (js ".css")) files = Some name
         /\ In name files
         /\ endsWith (js ".css") name = true
         /\ cssFile = js "assets/" ++ name.
Proof.
  destruct (located_sheet_is_under_dist (scenario_host no_manifest) demo_config tt
              (CssInfo (js "/site/web/dist/assets/main.css") (js "/dist/assets/main.css")))
    as (cssFile & Hhref & _ & Hlisted).
  - vm_compute. reflexivity.
  - exists cssFile. split; [exact Hhref|]. apply Hlisted.
    vm_compute. right. left. reflexivity.
Defined.

Lemma configured_options_win_witness :
  assoc (js "preload") (beasties_options (scenario_host demo) demo_config)
  = Some (JStr (js "none"))
  /\ assoc (js "path") (beasties_options (scenario_host demo) demo_config)
     = Some (JStr (js "/site/web")).
Proof.
  assert (H : given_once (beasties demo_config)).
  { constructor; [intros [] | constructor]. }
  split.
  - exact (configured_options_win (scenario_host demo) demo_config (js "preload") H).
  - exact (configured_options_win (scenario_host demo) demo_config (js "path") H).
Defined.

(* ================================================================== *)
(** * One page *)
(* ================================================================== *)

Section OnePage.

Context {W : Type} (host : Host W).

(** X4.  The record of a page is a success exactly when every step of the
    body of the loop went through: the fetch answered with a status from
    200 to 299 and a body that could be read, the engine returned a
    document from which a text that is not blank was extracted, and the
    [mkdir] and the [writeFile] returned. *)
Theorem page_succeeds_when_every_step_does (config : Config) (cssInfo : CssAssetInfo)
    (p : PageSpec) (st : state W) :
  (exists r st', process_page host config cssInfo p st = (Ok r, st')
                 /\ success r = true)
  <->
  (exists resp html out w1 w2 w3 w4,
      host_fetch host (baseUrl config ++ uri p) (world st) = (Ok resp, w1)
      /\ (200 <= status resp <= 299)%N
      /\ text resp = Ok html
      /\ host_process host (beasties_options host config)
           (sanitize (href cssInfo) html) w1 = (Ok out, w2)
      /\ is_blank (extract out) = false
      /\ host_mkdir host (path_dirname host (output_path host config p)) w2
         = (Ok tt, w3)
      /\ host_writeFile host (output_path host config p) (trim (extract out)) w3
         = (Ok tt, w4)).
Proof.
  unfold process_page, fetchHtml, fetch, process, mkdir, writeFile.
  unfold try_catch, bind, call, of_outcome, throw, ret, ok.
  fold (output_path host config p).
  split.
  - intros (r & st' & H & Hs).
    destruct (host_fetch host _ (world st)) as [[resp|e] w1] eqn:Hf;
      [|inversion H; subst; discriminate].
    destruct ((200 <=? status resp)%N && (status resp <=? 299)%N) eqn:Eok;
      simpl in H; [|inversion H; subst; discriminate].
    destruct (text resp) as [html|e] eqn:Et; [|inversion H; subst; discriminate].
    cbn [world trace] in H.
    destruct (host_process host _ _ w1) as [[out|e] w2] eqn:Hp;
      [|inversion H; subst; discriminate].
    destruct (is_blank (extract out)) eqn:Eb; [inversion H; subst; discriminate|].
    cbn [world trace] in H.
    destruct (host_mkdir host _ w2) as [[[]|e] w3] eqn:Hm;
      [|inversion H; subst; discriminate].
    cbn [world trace] in H.
    destruct (host_writeFile host _ _ w3) as [[[]|e] w4] eqn:Hw;
      [|inversion H; subst; discriminate].
    exists resp, html, out, w1, w2, w3, w4.
    apply andb_true_iff in Eok. destruct Eok as [H1 H2].
    apply N.leb_le in H1, H2. repeat split; assumption || reflexivity.
  - intros (resp & html & out & w1 & w2 & w3 & w4 & Hf & [H1 H2] & Ht & Hp & Hb & Hm & Hw).
    apply N.leb_le in H1, H2.
    rewrite Hf, H1, H2. simpl. rewrite Ht. cbn [world trace].
    rewrite Hp, Hb. cbn [world trace]. rewrite Hm. cbn [world trace]. rewrite Hw.
    do 2 eexists. split; reflexivity.
Qed.

End OnePage.

Lemma page_succeeds_when_every_step_does_witness :
  exists r st',
    process_page (scenario_host demo) demo_config demo_css
      (Page (js "/") (js "index")) (State tt []) = (Ok r, st')
    /\ success r = true.
Proof.
  apply (proj2 (page_succeeds_when_every_step_does (scenario_host demo) demo_config
                  demo_css (Page (js "/") (js "index")) (State tt []))).
  exists (Response 200 (js "OK") (Ok demo_page)), demo_page, demo_output, tt, tt, tt, tt.
  split; [reflexivity|].
  split; [split; apply N.leb_le; reflexivity|].
  split; [reflexivity|].
  split; [vm_compute; reflexivity|].
  split; [vm_compute; reflexivity|].
  split; reflexivity.
Defined.

Section BlankText.

Context {W : Type} (host : Host W).

(** X5.  The test of line 122 holds exactly of a text made of white space
    only, the empty text included.  When the text extracted from the
    output of the engine is such a text, the page gets the record of the
    soft failure "No critical CSS extracted" and nothing more is done
    for it: no directory is made and no file written.  When it holds one
    unit that is not white space, the directory of the output file is
    made next and, once it is, the trimmed text is written to the
    output file. *)
Theorem blank_is_white_space_only :
  (forall criticalCss, is_blank criticalCss = forallb is_whitespace criticalCss)
  /\ (forall (config : Config) (cssInfo : CssAssetInfo) (p : PageSpec) (st : state W)
        (resp : response) (html out : jsstring) (w1 w2 : W),
      let url := baseUrl config ++ uri p in
      let options := beasties_options host config in
      let document := sanitize (href cssInfo) html in
      let outputPath := output_path host config p in
      let st2 := State w2 (trace st ++ [EvFetch url; EvProcess options document]) in
      host_fetch host url (world st) = (Ok resp, w1) ->
      (200 <= status resp <= 299)%N ->
      text resp = Ok html ->
      host_process host options document w1 = (Ok out, w2) ->
      (forallb is_whitespace (extract out) = true ->
         process_page host config cssInfo p st
         = (Ok (Result p false None (Some (js "No critical CSS extracted"))), st2))
      /\ (forallb is_whitespace (extract out) = false ->
          exists r st',
            process_page host config cssInfo p st = (Ok r, st')
            /\ (trace st' = trace st2 ++ [EvMkdir (path_dirname host outputPath)]
                \/ trace st' = trace st2 ++ [EvMkdir (path_dirname host outputPath);
                                             EvWriteFile outputPath (trim (extract out))])
            /\ (fst (host_mkdir host (path_dirname host outputPath) w2) = Ok tt ->
                trace st' = trace st2 ++ [EvMkdir (path_dirname host outputPath);
                                          EvWriteFile outputPath (trim (extract out))]))).
Proof.
  assert (Hblank : forall criticalCss,
            is_blank criticalCss = forallb is_whitespace criticalCss).
  { intros criticalCss. destruct (forallb is_whitespace criticalCss) eqn:E.
    - apply is_blank_trim. now apply trim_nil.
    - destruct (is_blank criticalCss) eqn:Eb; [|reflexivity].
      apply is_blank_trim, trim_nil in Eb. congruence. }
  split; [exact Hblank|].
  intros config cssInfo p st resp html out w1 w2 url options document outputPath st2
         Hf Hs Ht Hp.
  pose proof (process_page_fetched host config cssInfo p st resp html out w1 w2
                Hf Hs Ht Hp) as Hpage.
  cbv zeta in Hpage. rewrite Hblank in Hpage.
  split; intros Hws; rewrite Hws in Hpage; [exact Hpage|].
  rewrite Hpage. unfold try_catch, bind, mkdir, writeFile, call, ret.
  fold (output_path host config p). fold outputPath. cbn [world trace].
  destruct (host_mkdir host (path_dirname host outputPath) w2) as [[[]|e] w3].
  - cbn [world trace].
    destruct (host_writeFile host outputPath (trim (extract out)) w3) as [[[]|e] w4];
      do 2 eexists; (split; [reflexivity|]); unfold st2; cbn [trace fst];
      rewrite <- !app_assoc; (split; [now right | intros _; reflexivity]).
  - do 2 eexists. split; [reflexivity|]. unfold st2. cbn [trace fst].
    rewrite <- !app_assoc. split; [now left | discriminate].
Qed.

End BlankText.

Lemma blank_is_white_space_only_witness :
  process_page (scenario_host demo) demo_config demo_css
    (Page (js "/about") (js "about/index")) (State tt [])
  = (Ok (Result (Page (js "/about") (js "about/index")) false None
           (Some (js "No critical CSS extracted"))),
     State tt [EvFetch (js "https://site.test/about");
               EvProcess (beasties_options (scenario_host demo) demo_config)
                 (sanitize (href demo_css)
                    (js "<html><head></head><body></body></html>"))])
  /\ exists r st',
       process_page (scenario_host demo) demo_config demo_css
         (Page (js "/") (js "index")) (State tt []) = (Ok r, st')
       /\ trace st'
          = [EvFetch (js "https://site.test/");
             EvProcess (beasties_options (scenario_host demo) demo_config)
               (sanitize (href demo_css) demo_page);
             EvMkdir (js "/site/web/dist/criticalcss");
             EvWriteFile demo_index_file demo_index_css].
Proof.
  split.
  - apply (proj1 (proj2 (blank_is_white_space_only (scenario_host demo)) demo_config
                    demo_css (Page (js "/about") (js "about/index")) (State tt [])
                    (Response 200 (js "OK")
                       (Ok (js "<html><head></head><body></body></html>")))
                    (js "<html><head></head><body></body></html>")
                    (sanitize (href demo_css)
                       (js "<html><head></head><body></body></html>")) tt tt
                    eq_refl (conj (proj1 (N.leb_le 200 200) eq_refl)
                                  (proj1 (N.leb_le 200 299) eq_refl))
                    eq_refl ltac:(vm_compute; reflexivity))).
    vm_compute. reflexivity.
  - destruct (proj2 (proj2 (blank_is_white_space_only (scenario_host demo)) demo_config
                       demo_css (Page (js "/") (js "index")) (State tt [])
                       (Response 200 (js "OK") (Ok demo_page)) demo_page demo_output
                       tt tt
                       eq_refl (conj (proj1 (N.leb_le 200 200) eq_refl)
                                     (proj1 (N.leb_le 200 299) eq_refl))
                       eq_refl ltac:(vm_compute; reflexivity))
                ltac:(vm_compute; reflexivity))
      as (r & st' & Hpage & _ & Hwritten).
    exists r, st'. split; [exact Hpage|].
    rewrite (Hwritten eq_refl). vm_compute. reflexivity.
Defined.

(* ================================================================== *)
(** * The run as a whole *)
(* ================================================================== *)

Section RunTheorems.

Context {W : Type} (host : Host W).

(** X6.  A run that returns fetches every configured page once, in the
    order of the configuration, at the address made of the base URL
    followed by the page's [uri] with nothing in between; it fetches
    nothing else. *)
Theorem one_fetch_per_page (config : Config)
    (st st' : state W) (summary : RunSummary) :
  generateCriticalCss host config st = (Ok summary, st') ->
  fetched (trace st')
  = fetched (trace st) ++ map (fun p => baseUrl config ++ uri p) (pages config).
Proof.
  intros H.
  destruct (generateCriticalCss_calls host config st) as (r & st1 & E & Hcases).
  rewrite H in E. inversion E; subst r st1; clear E.
  destruct Hcases as [(e & He & _)
                      | [(He & _)
                      | (cssInfo & reads & runs & _ & Ht & Hreads & Hruns)]];
    try discriminate.
  rewrite Ht, fetched_app. f_equal.
  change (EvMkdir (outputDir config) :: reads ++ flat_map snd runs)
    with ([EvMkdir (outputDir config)] ++ reads ++ flat_map snd runs).
  rewrite !fetched_app, (fetched_runs host config cssInfo _ _ Hruns).
  destruct Hreads as [-> | ->]; reflexivity.
Qed.

(** X7.  Every record of a returned summary has one of two shapes: a
    success with a [size] and no [error], or a failure with an [error]
    and no [size]. *)
Theorem result_has_size_or_error (config : Config) (st st' : state W)
    (summary : RunSummary) (r : PageResult) :
  generateCriticalCss host config st = (Ok summary, st') ->
  In r (results summary) ->
  (success r = true /\ error r = None /\ exists text, size r = Some text)
  \/ (success r = false /\ size r = None /\ exists message, error r = Some message).
Proof.
  intros H Hin.
  destruct (generateCriticalCss_calls host config st) as (o & st1 & E & Hcases).
  rewrite H in E. inversion E; subst o st1; clear E.
  destruct Hcases as [(e & He & _)
                      | [(He & _)
                      | (cssInfo & reads & runs & Hs & _ & _ & Hruns)]];
    try discriminate.
  inversion Hs; subst summary; clear Hs. simpl in Hin.
  destruct (result_of_a_page host config cssInfo runs r Hruns Hin)
    as (p & calls & _ & _ & Hrun).
  destruct (page_run_facts host config cssInfo p r calls Hrun)
    as (_ & _ & [(Hs & He & content & Hsize & _) | Hfail] & _).
  - left. split; [exact Hs|]. split; [exact He|]. eexists. exact Hsize.
  - now right.
Qed.

(** X8.  Whatever a run writes, it writes to the file of a configured
    page, [outputDir/<template>_critical.min.css], and the text is not
    empty and is its own [trim]: no file is written empty, made of white
    space, or with white space at either end. *)
Theorem only_trimmed_css_is_written (config : Config) (w : W)
    (path content : jsstring) :
  In (path, content) (written (trace (snd (run host config w)))) ->
  exists p, In p (pages config)
            /\ path = path_join host [outputDir config;
                                      template p ++ js "_critical.min.css"]
            /\ content <> [] /\ trim content = content.
Proof.
  unfold run.
  destruct (generateCriticalCss_calls host config (State w [])) as (o & st1 & E & Hcases).
  rewrite E. simpl.
  destruct Hcases as [(e & _ & _ & Ht)
                      | [(_ & Ht)
                      | (cssInfo & reads & runs & _ & Ht & Hreads & Hruns)]];
    rewrite Ht; simpl; try (intros []).
  assert (Hw : written (reads ++ flat_map snd runs) = written (flat_map snd runs)).
  { rewrite written_app. destruct Hreads as [-> | ->]; reflexivity. }
  rewrite Hw. intros Hin.
  apply (in_flat_map_snd written written_app eq_refl) in Hin.
  destruct Hin as ([r calls] & Hrun & Hin). simpl in Hin.
  destruct (Forall2_In_r _ _ _ _ Hruns Hrun) as (p & Hp & Hpr). simpl in Hpr.
  destruct (page_run_facts host config cssInfo p r calls Hpr)
    as (_ & _ & _ & Hw' & _).
  destruct (Hw' path content Hin) as (Hpath & Hne & Htrim).
  exists p. repeat split; assumption.
Qed.

(** X9.  A record with [success: true] stands for a file: the run wrote
    the file of the record's page, and the [size] of the record is the
    UTF-8 length of the text written, in units of 1024 bytes with two
    decimals. *)
Theorem success_has_its_file (config : Config) (w : W) (st' : state W)
    (summary : RunSummary) (r : PageResult) :
  run host config w = (Ok summary, st') ->
  In r (results summary) ->
  success r = true ->
  exists content,
    In (path_join host [outputDir config;
                        template (page r) ++ js "_critical.min.css"], content)
       (written (trace st'))
    /\ size r = Some (kb_toFixed2 (byteLength content)).
Proof.
  unfold run. intros H Hin Hs.
  exact (success_file host config (State w []) st' summary r H Hin Hs).
Qed.

(** X10.  In the calls of a run, a [writeFile] comes right after the
    recursive [mkdir] of the directory of the file it writes, so a
    template such as [about/index] has its directory made first. *)
Theorem directory_is_made_before_the_file (config : Config) (w : W)
    (before after : list event) (path content : jsstring) :
  trace (snd (run host config w)) = before ++ EvWriteFile path content :: after ->
  exists before', before = before' ++ [EvMkdir (path_dirname host path)].
Proof.
  unfold run.
  destruct (generateCriticalCss_calls host config (State w [])) as (o & st1 & E & Hcases).
  rewrite E. simpl.
  assert (Hg : write_follows_mkdir host (trace st1)); [|intros H; exact (Hg _ _ _ _ H)].
  destruct Hcases as [(e & _ & _ & Ht)
                      | [(_ & Ht)
                      | (cssInfo & reads & runs & _ & Ht & Hreads & Hruns)]];
    rewrite Ht; simpl; try (now apply (follows_without_write host)).
  destruct (follows_runs host config cssInfo _ _ Hruns) as [Hgr Hhr].
  change (write_follows_mkdir host
            ([EvMkdir (outputDir config)] ++ reads ++ flat_map snd runs)).
  apply (follows_app host); [now apply (follows_without_write host) | |].
  - apply (follows_app host); [|assumption|assumption].
    apply (follows_without_write host). destruct Hreads as [-> | ->]; reflexivity.
  - destruct Hreads as [-> | ->]; exact I.
Qed.

(** X11.  A run throws in two places only, both before the loop: the
    [mkdir] of line 70, whose error it passes on, and the locator, whose
    only error is the one of line 47.  When it throws it has fetched no
    page, called the engine for none and written no file; nothing that
    happens to a page makes the run throw. *)
Theorem fatal_errors_come_before_the_pages (config : Config) (st st' : state W)
    (e : jsstring) :
  generateCriticalCss host config st = (Throw e, st') ->
  (fst (host_mkdir host (outputDir config) (world st)) = Throw e
   \/ e = no_css_message)
  /\ fetched (trace st') = fetched (trace st)
  /\ processed (trace st') = processed (trace st)
  /\ written (trace st') = written (trace st).
Proof.
  intros H.
  destruct (generateCriticalCss_calls host config st) as (o & st1 & E & Hcases).
  rewrite H in E. inversion E; subst o st1; clear E.
  destruct Hcases as [(e' & He & Hm & Ht)
                      | [(He & Ht)
                      | (cssInfo & reads & runs & Hs & _)]];
    try discriminate; inversion He; subst.
  - split; [now left|]. rewrite Ht, fetched_app, processed_app, written_app. simpl.
    now rewrite !app_nil_r.
  - split; [now right|]. rewrite Ht, fetched_app, processed_app, written_app. simpl.
    now rewrite !app_nil_r.
Qed.

(** X12.  The engine is called at most once per configured page, and every
    call carries the options of lines 76-80, the same for all pages. *)
Theorem engine_gets_the_same_options (config : Config) (w : W) :
  length (engine_calls (trace (snd (run host config w)))) <= length (pages config)
  /\ forall options html,
       In (options, html) (engine_calls (trace (snd (run host config w)))) ->
       options = beasties_options host config.
Proof.
  unfold run.
  destruct (generateCriticalCss_calls host config (State w [])) as (o & st1 & E & Hcases).
  rewrite E. simpl.
  destruct Hcases as [(e & _ & _ & Ht)
                      | [(_ & Ht)
                      | (cssInfo & reads & runs & _ & Ht & Hreads & Hruns)]];
    rewrite Ht; simpl; try (split; [lia | intros ? ? []]).
  assert (Hw : engine_calls (reads ++ flat_map snd runs)
               = engine_calls (flat_map snd runs)).
  { rewrite engine_calls_app. destruct Hreads as [-> | ->]; reflexivity. }
  rewrite Hw. split.
  - clear Ht Hw. induction Hruns as [|p [r calls] ps runs Hp _ IH]; [simpl; lia|].
    simpl. rewrite engine_calls_app, length_app. simpl in Hp.
    destruct (page_run_facts host config cssInfo p r calls Hp)
      as (_ & _ & _ & _ & _ & Hlen & _). lia.
  - intros options html Hin.
    apply (in_flat_map_snd engine_calls engine_calls_app eq_refl) in Hin.
    destruct Hin as ([r calls] & Hrun & Hin). simpl in Hin.
    destruct (Forall2_In_r _ _ _ _ Hruns Hrun) as (p & Hp & Hpr). simpl in Hpr.
    destruct (page_run_facts host config cssInfo p r calls Hpr)
      as (_ & _ & _ & _ & _ & _ & Ho).
    exact (Ho options html Hin).
Qed.

End RunTheorems.

Lemma one_fetch_per_page_witness :
  fetched (trace demo_final)
  = [js "https://site.test/"; js "https://site.test/about";
     js "https://site.test/missing"].
Proof.
  assert (Hrun : generateCriticalCss (scenario_host demo) demo_config (State tt [])
                 = (Ok demo_summary, demo_final)) by (vm_compute; reflexivity).
  exact (one_fetch_per_page (scenario_host demo) demo_config (State tt [])
           demo_final demo_summary Hrun).
Defined.

Lemma result_has_size_or_error_witness :
  (success demo_about_record = true /\ error demo_about_record = None
   /\ exists text, size demo_about_record = Some text)
  \/ (success demo_about_record = false /\ size demo_about_record = None
      /\ exists message, error demo_about_record = Some message).
Proof.
  assert (Hrun : generateCriticalCss (scenario_host demo) demo_config (State tt [])
                 = (Ok demo_summary, demo_final)) by (vm_compute; reflexivity).
  apply (result_has_size_or_error (scenario_host demo) demo_config (State tt [])
           demo_final demo_summary demo_about_record Hrun).
  right. left. reflexivity.
Defined.

Lemma only_trimmed_css_is_written_witness :
  exists p, In p (pages demo_config)
            /\ demo_index_file = js "/site/web/dist/criticalcss/"
                                   ++ template p ++ js "_critical.min.css"
            /\ demo_index_css <> [] /\ trim demo_index_css = demo_index_css.
Proof.
  apply (only_trimmed_css_is_written (scenario_host demo) demo_config tt
           demo_index_file demo_index_css).
  vm_compute. left. reflexivity.
Defined.

Lemma success_has_its_file_witness :
  exists content,
    In (demo_index_file, content) (written (trace demo_final))
    /\ size demo_index_record = Some (kb_toFixed2 (byteLength content)).
Proof.
  assert (Hrun : run (scenario_host demo) demo_config tt = (Ok demo_summary, demo_final))
    by (vm_compute; reflexivity).
  apply (success_has_its_file (scenario_host demo) demo_config tt demo_final
           demo_summary demo_index_record Hrun).
  - left. reflexivity.
  - reflexivity.
Defined.

Lemma directory_is_made_before_the_file_witness :
  exists before',
    firstn 5 (trace demo_final)
    = before' ++ [EvMkdir (js "/site/web/dist/criticalcss")].
Proof.
  apply (directory_is_made_before_the_file (scenario_host demo) demo_config tt
           (firstn 5 (trace demo_final)) (skipn 6 (trace demo_final))
           demo_index_file demo_index_css).
  vm_compute. reflexivity.
Defined.

Lemma fatal_errors_come_before_the_pages_witness :
  fetched (trace (snd (run (scenario_host nothing_built) demo_config tt))) = []
  /\ written (trace (snd (run (scenario_host nothing_built) demo_config tt))) = [].
Proof.
  destruct (fatal_errors_come_before_the_pages (scenario_host nothing_built) demo_config
              (State tt []) (snd (run (scenario_host nothing_built) demo_config tt))
              no_css_message)
    as (_ & Hf & _ & Hw).
  - vm_compute. reflexivity.
  - split; [exact Hf | exact Hw].
Defined.

Lemma engine_gets_the_same_options_witness :
  length (engine_calls (trace (snd (run (scenario_host demo) demo_config tt)))) <= 3.
Proof.
  exact (proj1 (engine_gets_the_same_options (scenario_host demo) demo_config tt)).
Defined.

(* ================================================================== *)
(** * Two runs *)
(* ================================================================== *)

Section Alike.

Context {W : Type} (host : Host W) (R : W -> W -> Prop).

Lemma alike_ret {A} (a : A) : alike R (@ret W A a).
Proof. intros st1 st2 H HR. now repeat split. Qed.

Lemma alike_throw {A} (e : jsstring) : alike R (@throw W A e).
Proof. intros st1 st2 H HR. now repeat split. Qed.

Lemma alike_of_outcome {A} (o : outcome A) : alike R (@of_outcome W A o).
Proof. intros st1 st2 H HR. now repeat split. Qed.

Lemma alike_bind {A B} (c : M W A) (k : A -> M W B) :
  alike R c -> (forall a, alike R (k a)) -> alike R (bind c k).
Proof.
  intros Hc Hk st1 st2 H HR. unfold bind.
  destruct (Hc st1 st2 H HR) as (Hr & Ht & Hw).
  destruct (c st1) as [[a1|e1] s1], (c st2) as [[a2|e2] s2]; simpl in *;
    try discriminate.
  - inversion Hr; subst. now apply Hk.
  - inversion Hr; subst. now repeat split.
Qed.

Lemma alike_try_catch {A} (c : M W A) (h : jsstring -> M W A) :
  alike R c -> (forall e, alike R (h e)) -> alike R (try_catch c h).
Proof.
  intros Hc Hh st1 st2 H HR. unfold try_catch.
  destruct (Hc st1 st2 H HR) as (Hr & Ht & Hw).
  destruct (c st1) as [[a1|e1] s1], (c st2) as [[a2|e2] s2]; simpl in *;
    try discriminate.
  - inversion Hr; subst. now repeat split.
  - inversion Hr; subst. now apply Hh.
Qed.

Lemma alike_call {A} (op : W -> outcome A * W) (ev : event) :
  same_answer R op -> alike R (call op ev).
Proof.
  intros Hop st1 st2 H HR. unfold call.
  destruct (Hop (world st1) (world st2) HR) as [Hr Hw].
  destruct (op (world st1)) as [r1 w1], (op (world st2)) as [r2 w2]; simpl in *.
  split; [exact Hr|]. split; [now rewrite H | exact Hw].
Qed.

Variable config : Config.

Hypothesis answers : indistinguishable host config R.

Lemma alike_process_page (cssInfo : CssAssetInfo) (p : PageSpec) :
  In p (pages config) -> alike R (process_page host config cssInfo p).
Proof.
  intros Hp. unfold process_page, fetchHtml.
  fold (page_url config p). fold (output_path host config p).
  apply alike_try_catch; [|intros; apply alike_ret].
  apply alike_bind.
  { apply alike_bind; [apply alike_call, (alike_fetch answers p Hp)|].
    intros r. destruct (negb (ok r)); [apply alike_throw | apply alike_of_outcome]. }
  intros html. apply alike_bind; [apply alike_call, (alike_process answers)|].
  intros out. destruct (is_blank (extract out)); [apply alike_ret|].
  apply alike_bind; [apply alike_call, (alike_mkdir answers p Hp)|]. intros _.
  apply alike_bind; [apply alike_call, (alike_writeFile answers p _ Hp)|]. intros _.
  apply alike_ret.
Qed.

Lemma alike_process_pages (cssInfo : CssAssetInfo) (ps : list PageSpec) :
  incl ps (pages config) ->
  forall acc, alike R (process_pages host config cssInfo ps acc).
Proof.
  induction ps as [|p ps IH]; intros Hincl acc; simpl.
  - apply alike_ret.
  - apply alike_bind.
    + apply alike_process_page. apply Hincl. now left.
    + intros r. apply IH. intros q Hq. apply Hincl. now right.
Qed.

Lemma alike_getBuiltCssInfo : alike R (getBuiltCssInfo host config).
Proof.
  unfold getBuiltCssInfo. apply alike_bind.
  - unfold from_manifest. apply alike_try_catch; [|intros; apply alike_ret].
    apply alike_bind; [apply alike_call, (alike_manifest answers)|].
    intros content. apply alike_bind; [apply alike_of_outcome|].
    intros manifest. apply alike_bind; [apply alike_of_outcome|].
    intros [f|]; apply alike_ret.
  - intros [info|]; [apply alike_ret|].
    apply alike_bind.
    + unfold from_assets. apply alike_try_catch; [|intros; apply alike_ret].
      apply alike_bind; [apply alike_call, (alike_assets answers)|].
      intros files. destruct (filter _ files); apply alike_ret.
    + intros [info|]; [apply alike_ret | apply alike_throw].
Qed.

Lemma alike_generateCriticalCss : alike R (generateCriticalCss host config).
Proof.
  unfold generateCriticalCss.
  apply alike_bind; [apply alike_call, (alike_mkdir_output answers)|]. intros _.
  apply alike_bind; [apply alike_getBuiltCssInfo|]. intros cssInfo.
  apply alike_bind; [apply alike_process_pages, incl_refl|]. intros rs.
  apply alike_ret.
Qed.

End Alike.

(** ** On a disk *)

Lemma disk_after_app (a b : list event) (d : disk) :
  disk_after (a ++ b) d = disk_after b (disk_after a d).
Proof. unfold disk_after. now rewrite written_app, fold_left_app. Qed.

Lemma keeps_disk_ret {A} (a : A) : keeps_disk (@ret disk A a).
Proof. intros st. exists []. now rewrite app_nil_r. Qed.

Lemma keeps_disk_throw {A} (e : jsstring) : keeps_disk (@throw disk A e).
Proof. intros st. exists []. now rewrite app_nil_r. Qed.

Lemma keeps_disk_of_outcome {A} (o : outcome A) : keeps_disk (@of_outcome disk A o).
Proof. intros st. exists []. now rewrite app_nil_r. Qed.

Lemma keeps_disk_bind {A B} (c : M disk A) (k : A -> M disk B) :
  keeps_disk c -> (forall a, keeps_disk (k a)) -> keeps_disk (bind c k).
Proof.
  intros Hc Hk st. unfold bind. destruct (Hc st) as (calls & Ht & Hw).
  destruct (c st) as [[a|e] st1]; simpl in *.
  - destruct (Hk a st1) as (calls' & Ht' & Hw').
    exists (calls ++ calls'). rewrite Ht', Hw', Ht, Hw, disk_after_app.
    now rewrite app_assoc.
  - now exists calls.
Qed.

Lemma keeps_disk_try_catch {A} (c : M disk A) (h : jsstring -> M disk A) :
  keeps_disk c -> (forall e, keeps_disk (h e)) -> keeps_disk (try_catch c h).
Proof.
  intros Hc Hh st. unfold try_catch. destruct (Hc st) as (calls & Ht & Hw).
  destruct (c st) as [[a|e] st1]; simpl in *.
  - now exists calls.
  - destruct (Hh e st1) as (calls' & Ht' & Hw').
    exists (calls ++ calls'). rewrite Ht', Hw', Ht, Hw, disk_after_app.
    now rewrite app_assoc.
Qed.

(** A call that is logged as [ev] and moves the disk as the writes of
    [ev] do. *)
Lemma keeps_disk_call {A} (op : disk -> outcome A * disk) (ev : event) :
  (forall d, snd (op d) = disk_after [ev] d) -> keeps_disk (call op ev).
Proof.
  intros Hop st. exists [ev]. unfold call. specialize (Hop (world st)).
  destruct (op (world st)) as [r d']. simpl in *. now split.
Qed.

Lemma disk_read_write (path content p : jsstring) (d : disk) :
  path <> p -> disk_read p (disk_write path content d) = disk_read p d.
Proof.
  intros Hne. induction d as [|[q c] d IH]; simpl.
  - now rewrite str_eqb_neq.
  - destruct (str_eqb q path) eqn:E; simpl.
    + apply str_eqb_eq in E. subst q. now rewrite str_eqb_neq.
    + now rewrite IH.
Qed.

Lemma disk_list_write (path content dir : jsstring) (d : disk) :
  name_in dir path = None -> disk_list dir (disk_write path content d) = disk_list dir d.
Proof.
  intros Hn. unfold disk_list. induction d as [|[q c] d IH]; simpl.
  - now rewrite Hn.
  - destruct (str_eqb q path) eqn:E; simpl.
    + reflexivity.
    + now rewrite IH.
Qed.

(** Reading a file after a write. *)
Lemma disk_read_written (path content p : jsstring) (d : disk) :
  disk_read p (disk_write path content d)
  = if str_eqb path p then Some content else disk_read p d.
Proof.
  destruct (str_eqb path p) eqn:E.
  - apply str_eqb_eq in E. subst p. induction d as [|[q c] d IH]; simpl.
    + now rewrite str_eqb_refl.
    + destruct (str_eqb q path) eqn:Eq; simpl; rewrite Eq; [reflexivity | exact IH].
  - apply disk_read_write. intros ->. now rewrite str_eqb_refl in E.
Qed.

(** Writing the same files a second time leaves every file as it is. *)
Lemma disk_after_twice (calls : list event) (d : disk) (path : jsstring) :
  disk_read path (disk_after calls (disk_after calls d))
  = disk_read path (disk_after calls d).
Proof.
  unfold disk_after. generalize (written calls). intros files.
  assert (H : forall d,
    disk_read path (fold_left (fun d file => disk_write (fst file) (snd file) d) files d)
    = match fold_left (fun last file =>
                         if str_eqb (fst file) path then Some (snd file) else last)
              files None with
      | Some content => Some content
      | None => disk_read path d
      end).
  { intros d0. induction files as [|[q c] files IH] using rev_ind; [reflexivity|].
    rewrite !fold_left_app. simpl. rewrite disk_read_written, IH.
    destruct (str_eqb q path); reflexivity. }
  rewrite (H (fold_left _ files d)), (H d).
  destruct (fold_left _ files None); reflexivity.
Qed.

(** The files a run writes are output files of configured pages. *)
Lemma written_by_a_run {W} (host : Host W) (config : Config) (w : W)
    (path content : jsstring) :
  In (path, content) (written (trace (snd (run host config w)))) ->
  is_output host config path.
Proof.
  unfold run.
  destruct (generateCriticalCss_calls host config (State w [])) as (o & st1 & E & Hcases).
  rewrite E. simpl.
  destruct Hcases as [(e & _ & _ & Ht)
                      | [(_ & Ht)
                      | (cssInfo & reads & runs & _ & Ht & Hreads & Hruns)]];
    rewrite Ht; simpl; try (intros []).
  assert (Hw : written (reads ++ flat_map snd runs) = written (flat_map snd runs)).
  { rewrite written_app. destruct Hreads as [-> | ->]; reflexivity. }
  rewrite Hw. intros Hin.
  apply (in_flat_map_snd written written_app eq_refl) in Hin.
  destruct Hin as ([r calls] & Hrun & Hin). simpl in Hin.
  destruct (Forall2_In_r _ _ _ _ Hruns Hrun) as (p & Hp & Hpr). simpl in Hpr.
  destruct (page_run_facts host config cssInfo p r calls Hpr)
    as (_ & _ & _ & Hw' & _).
  destruct (Hw' path content Hin) as (Hpath & _).
  now exists p.
Qed.

Section OnDisk.

Variable sc : scenario.
Variable engine : object -> jsstring -> disk -> outcome jsstring.
Variable config : Config.

Let host := disk_host sc engine.

Lemma keeps_disk_process_page (cssInfo : CssAssetInfo) (p : PageSpec) :
  keeps_disk (process_page host config cssInfo p).
Proof.
  unfold process_page, fetchHtml.
  apply keeps_disk_try_catch; [|intros; apply keeps_disk_ret].
  apply keeps_disk_bind.
  { apply keeps_disk_bind; [now apply keeps_disk_call|].
    intros r.
    destruct (negb (ok r)); [apply keeps_disk_throw | apply keeps_disk_of_outcome]. }
  intros html. apply keeps_disk_bind; [now apply keeps_disk_call|].
  intros out. destruct (is_blank (extract out)); [apply keeps_disk_ret|].
  apply keeps_disk_bind; [now apply keeps_disk_call|]. intros _.
  apply keeps_disk_bind; [now apply keeps_disk_call|]. intros _.
  apply keeps_disk_ret.
Qed.

Lemma keeps_disk_process_pages (cssInfo : CssAssetInfo) (ps : list PageSpec) :
  forall acc, keeps_disk (process_pages host config cssInfo ps acc).
Proof.
  induction ps as [|p ps IH]; intros acc; simpl.
  - apply keeps_disk_ret.
  - apply keeps_disk_bind; [apply keeps_disk_process_page|]. intros r. apply IH.
Qed.

Lemma keeps_disk_getBuiltCssInfo : keeps_disk (getBuiltCssInfo host config).
Proof.
  unfold getBuiltCssInfo. apply keeps_disk_bind.
  - unfold from_manifest. apply keeps_disk_try_catch; [|intros; apply keeps_disk_ret].
    apply keeps_disk_bind; [now apply keeps_disk_call|].
    intros content. apply keeps_disk_bind; [apply keeps_disk_of_outcome|].
    intros manifest. apply keeps_disk_bind; [apply keeps_disk_of_outcome|].
    intros [f|]; apply keeps_disk_ret.
  - intros [info|]; [apply keeps_disk_ret|].
    apply keeps_disk_bind.
    + unfold from_assets. apply keeps_disk_try_catch; [|intros; apply keeps_disk_ret].
      apply keeps_disk_bind; [now apply keeps_disk_call|].
      intros files. destruct (filter _ files); apply keeps_disk_ret.
    + intros [info|]; [apply keeps_disk_ret | apply keeps_disk_throw].
Qed.

Lemma keeps_disk_generateCriticalCss : keeps_disk (generateCriticalCss host config).
Proof.
  unfold generateCriticalCss.
  apply keeps_disk_bind; [now apply keeps_disk_call|]. intros _.
  apply keeps_disk_bind; [apply keeps_disk_getBuiltCssInfo|]. intros cssInfo.
  apply keeps_disk_bind; [apply keeps_disk_process_pages|]. intros rs.
  apply keeps_disk_ret.
Qed.

(** The disk a run leaves is the disk it started from after the writes
    of its trace. *)
Lemma disk_of_a_run (d : disk) :
  world (snd (run host config d)) = disk_after (trace (snd (run host config d))) d.
Proof.
  unfold run.
  destruct (keeps_disk_generateCriticalCss (State d [])) as (calls & Ht & Hw).
  now rewrite Hw, Ht.
Qed.

(** A run leaves a disk that differs from the one it started from by
    writes to output files. *)
Lemma disk_differs_by_outputs (d : disk) :
  differ_by_outputs host config d (world (snd (run host config d))).
Proof.
  rewrite disk_of_a_run.
  pose proof (written_by_a_run host config d) as Hpaths.
  unfold disk_after. revert Hpaths.
  generalize (written (trace (snd (run host config d)))). intros files.
  induction files as [|[path content] files IH] using rev_ind; intros Hpaths.
  - apply same_disk.
  - rewrite fold_left_app. simpl. apply output_on_the_right.
    + apply (Hpaths path content). apply in_or_app. right. now left.
    + apply IH. intros p c Hin. apply (Hpaths p c). apply in_or_app. now left.
Qed.

Hypothesis apart : outputs_apart host config.
Hypothesis engine_blind : engine_apart host config engine.

(** Two disks that differ by writes to output files answer alike to a
    run. *)
Lemma disks_indistinguishable :
  indistinguishable host config (differ_by_outputs host config).
Proof.
  assert (Hstay : forall A (r : outcome A) (d1 d2 : disk),
            differ_by_outputs host config d1 d2 ->
            fst (r, d1) = fst (r, d2)
            /\ differ_by_outputs host config (snd (r, d1)) (snd (r, d2))).
  { intros A r d1 d2 H. now split. }
  constructor.
  - intros d1 d2 H. apply Hstay, H.
  - intros d1 d2 H. cbn [host disk_host host_readFile fst snd].
    split; [|exact H].
    induction H as [d | path content d1 d2 Ho _ IH | path content d1 d2 Ho _ IH];
      [reflexivity | |];
      destruct (apart path Ho) as [Hm _]; cbn [host disk_host path_resolve] in Hm;
      rewrite (disk_read_write _ content _ _ Hm); exact IH.
  - intros d1 d2 H. cbn [host disk_host host_readdir fst snd].
    split; [|exact H].
    induction H as [d | path content d1 d2 Ho _ IH | path content d1 d2 Ho _ IH];
      [reflexivity | |];
      destruct (apart path Ho) as [_ Ha]; cbn [host disk_host path_resolve] in Ha;
      rewrite (disk_list_write _ content _ _ Ha); exact IH.
  - intros p Hp d1 d2 H. apply Hstay, H.
  - intros html d1 d2 H. cbn [host disk_host host_process fst snd].
    split; [|exact H].
    induction H as [d | path content d1 d2 Ho _ IH | path content d1 d2 Ho _ IH];
      [reflexivity | |];
      rewrite (engine_blind path content html _ Ho); exact IH.
  - intros p Hp d1 d2 H. apply Hstay, H.
  - intros p content Hp d1 d2 H. cbn [host disk_host host_writeFile fst snd].
    split; [reflexivity|].
    assert (Ho : is_output host config (output_path host config p)) by now exists p.
    apply output_on_the_left; [exact Ho|]. apply output_on_the_right; assumption.
Qed.

End OnDisk.


Lemma demo_outputs_apart : outputs_apart (disk_host demo sheet_engine) demo_config.
Proof.
  intros path (p & [<- | [<- | [<- | []]]] & ->);
    (split; [vm_compute; discriminate | vm_compute; reflexivity]).
Qed.

(** The engine of the demo reads files of the assets directory only. *)
Lemma sheet_engine_reads (options : object) (html path content root : jsstring)
    (d : disk) :
  assoc (js "path") options = Some (JStr root) ->
  (forall name, path <> root ++ js "/dist/assets/" ++ name) ->
  sheet_engine options html (disk_write path content d) = sheet_engine options html d.
Proof.
  intros Hroot Hpath. unfold sheet_engine. rewrite Hroot.
  destruct (indexOf (js "href=" ++ dquote ++ js "/dist/assets/") html)
    as [[before after]|]; [|reflexivity].
  destruct (indexOf dquote after) as [[name rest]|]; [|reflexivity].
  now rewrite (disk_read_write _ content _ d (Hpath name)).
Qed.

Lemma demo_engine_apart :
  engine_apart (disk_host demo sheet_engine) demo_config sheet_engine.
Proof.
  intros path content html d Ho.
  apply (sheet_engine_reads _ html path content (js "/site/web") d).
  - vm_compute. reflexivity.
  - intros name E.
    destruct Ho as (p & [<- | [<- | [<- | []]]] & ->);
      apply (f_equal (firstn 16)) in E; vm_compute in E; discriminate.
Qed.


(* ================================================================== *)
(** * What the first step of the sanitizer leaves *)
(* ================================================================== *)

Lemma first_occurrence (x : N) (l : list N) :
  In x l -> exists l1 l2, l = l1 ++ x :: l2 /\ ~ In x l1.
Proof.
  induction l as [|y l IH]; intros H; [destruct H|].
  destruct (N.eq_dec y x) as [->|Hne].
  - exists [], l. split; [reflexivity | intros []].
  - destruct H as [H|H]; [contradiction|].
    destruct (IH H) as (l1 & l2 & -> & Hn). exists (y :: l1), l2.
    split; [reflexivity|]. intros [E|E]; [contradiction | now apply Hn].
Qed.

Lemma canonicalize_is_gt (u : N) : canonicalize u = 62%N -> u = 62%N.
Proof.
  unfold canonicalize. destruct ((97 <=? u) && (u <=? 122))%N eqn:E; [|trivial].
  apply andb_true_iff in E. destruct E as [E1 E2]. apply N.leb_le in E1, E2. lia.
Qed.

(** The opening word of a style block holds no [>]. *)
Lemma opening_without_gt (op : jsstring) : ci_eq op (js "<style") -> ~ In 62%N op.
Proof.
  unfold ci_eq. intros H Hin.
  apply (in_map canonicalize) in Hin. rewrite H in Hin.
  vm_compute in Hin. repeat (destruct Hin as [Hin|Hin]; [discriminate|]). exact Hin.
Qed.

(** An opening word followed by anything and then by a style block
    begins a style block itself. *)
Lemma block_after_opening (op c s' : jsstring) :
  ci_eq op (js "<style") -> style_block_begins s' ->
  style_block_begins (op ++ c ++ s').
Proof.
  intros Hop (op' & attrs' & body' & cl' & rest' & -> & Hop' & Hattrs' & Hcl').
  destruct (in_dec N.eq_dec 62%N c) as [Hin|Hnin].
  - destruct (first_occurrence _ _ Hin) as (c1 & c2 & -> & Hc1).
    exists op, c1, (c2 ++ op' ++ attrs' ++ [62%N] ++ body'), cl', rest'.
    split; [now rewrite <- !app_assoc|]. now repeat split.
  - exists op, (c ++ op' ++ attrs'), body', cl', rest'.
    split; [now rewrite <- !app_assoc|]. repeat split; try assumption.
    intros Hin. apply in_app_or in Hin. destruct Hin as [Hin|Hin]; [contradiction|].
    apply in_app_or in Hin. destruct Hin as [Hin|Hin]; [|contradiction].
    now apply (opening_without_gt op').
Qed.

Lemma atoms_match_nth (ic : bool) (ws : list cset) :
  forall (s : jsstring) (i : nat) (a : cset),
    atoms_match ic ws s = true -> nth_error ws i = Some a ->
    exists u, nth_error s i = Some u /\ cset_matches ic a u = true.
Proof.
  induction ws as [|w ws IH]; intros s i a H Hi; [destruct i; discriminate|].
  destruct s as [|u s]; [discriminate|]. simpl in H.
  apply andb_true_iff in H. destruct H as [H1 H2].
  destruct i as [|i]; simpl in *.
  - inversion Hi; subst. now exists u.
  - now apply IH.
Qed.

(** An opening word cannot run into a [<] that follows the text it
    begins in. *)
Lemma opening_before_lt (b2 rest : jsstring) :
  b2 <> [] ->
  atoms_match true (word "<style") (b2 ++ 60%N :: rest) = true ->
  6 <= length b2.
Proof.
  intros Hne H.
  assert (Hn : forall i c, 1 <= i <= 5 -> length b2 = i ->
                 nth_error (word "<style") i = Some (CChar c) ->
                 char_matches true c 60 = true).
  { intros i c _ Hlen Hi.
    destruct (atoms_match_nth true _ _ i _ H Hi) as (u & Hu & Hm).
    rewrite nth_error_app2 in Hu by lia.
    rewrite Hlen, Nat.sub_diag in Hu. simpl in Hu. inversion Hu; subst. exact Hm. }
  destruct b2 as [|x1 [|x2 [|x3 [|x4 [|x5 [|x6 b2]]]]]]; simpl; try lia;
    try (now elim Hne).
  - specialize (Hn 1 115%N ltac:(lia) eq_refl eq_refl). discriminate.
  - specialize (Hn 2 116%N ltac:(lia) eq_refl eq_refl). discriminate.
  - specialize (Hn 3 121%N ltac:(lia) eq_refl eq_refl). discriminate.
  - specialize (Hn 4 108%N ltac:(lia) eq_refl eq_refl). discriminate.
  - specialize (Hn 5 101%N ltac:(lia) eq_refl eq_refl). discriminate.
Qed.

(** No style block begins inside the placeholder, whatever follows
    it. *)
Lemma no_block_in_placeholder (p1 p2 rest : jsstring) :
  placeholder = p1 ++ p2 -> p2 <> [] -> style_at (p2 ++ rest) = None.
Proof.
  intros Hp Hne.
  assert (Hhead : forall n, n < length placeholder ->
            match skipn n placeholder with
            | u :: v :: _ => negb (u =? 60)%N || negb (canonicalize v =? 83)%N
            | [u] => negb (u =? 60)%N
            | [] => false
            end = true).
  { intros n Hn. vm_compute in Hn.
    do 35 (destruct n as [|n]; [vm_compute; reflexivity|]). lia. }
  assert (Hp2 : p2 = skipn (length p1) placeholder)
    by (rewrite Hp; now rewrite skipn_app, skipn_all, Nat.sub_diag).
  assert (Hlen : length p1 < length placeholder).
  { rewrite Hp, length_app. destruct p2; [now elim Hne | simpl; lia]. }
  specialize (Hhead _ Hlen). rewrite <- Hp2 in Hhead.
  unfold style_at, strip_atoms.
  destruct (atoms_match true (word "<style") (p2 ++ rest)) eqn:E; [|reflexivity].
  exfalso.
  destruct (atoms_match_nth true _ _ 0 (CChar 60%N) E eq_refl) as (u & Hu & Hm0).
  destruct (atoms_match_nth true _ _ 1 (CChar 115%N) E eq_refl) as (v & Hv & Hm1).
  unfold cset_matches, char_matches in Hm0, Hm1.
  destruct p2 as [|a [|b p2]]; [now elim Hne | |]; simpl in Hu, Hv, Hhead.
  - inversion Hu; subst.
    apply N.eqb_eq in Hm0. change (canonicalize 60) with 60%N in Hm0.
    assert (u = 60%N).
    { unfold canonicalize in Hm0.
      destruct ((97 <=? u) && (u <=? 122))%N eqn:Eu; [|now symmetry].
      apply andb_true_iff in Eu. destruct Eu as [E1 E2]. apply N.leb_le in E1, E2. lia. }
    subst u. discriminate.
  - inversion Hu; subst. inversion Hv; subst.
    apply N.eqb_eq in Hm0, Hm1. change (canonicalize 60) with 60%N in Hm0.
    change (canonicalize 115) with 83%N in Hm1.
    assert (u = 60%N).
    { unfold canonicalize in Hm0.
      destruct ((97 <=? u) && (u <=? 122))%N eqn:Eu; [|now symmetry].
      apply andb_true_iff in Eu. destruct Eu as [E1 E2]. apply N.leb_le in E1, E2. lia. }
    subst u. rewrite <- Hm1, N.eqb_refl in Hhead. discriminate.
Qed.

(** No style block begins in the text before a match, once the match is
    replaced by the placeholder. *)
Lemma no_block_before_placeholder (b2 s' rest : jsstring) :
  b2 <> [] -> style_at s' <> None -> style_at (b2 ++ s') = None ->
  style_at (b2 ++ placeholder ++ rest) = None.
Proof.
  intros Hne Hs' Hnone.
  destruct (style_at (b2 ++ placeholder ++ rest)) as [m|] eqn:E; [|reflexivity].
  exfalso.
  assert (Hm : atoms_match true (word "<style") (b2 ++ placeholder ++ rest) = true).
  { unfold style_at, strip_atoms in E.
    destruct (atoms_match true (word "<style") (b2 ++ placeholder ++ rest));
      [reflexivity | discriminate]. }
  assert (Hlen : 6 <= length b2).
  { change (placeholder ++ rest) with (60%N :: skipn 1 placeholder ++ rest) in Hm.
    exact (opening_before_lt b2 _ Hne Hm). }
  rewrite atoms_match_short in Hm by exact Hlen.
  pose proof (word_atoms_match (js "<style") b2 Hm) as Hop.
  change (length (js "<style")) with 6 in Hop.
  assert (Hbegins : style_block_begins (b2 ++ s')).
  { rewrite <- (firstn_skipn 6 b2), <- app_assoc.
    apply block_after_opening; [exact Hop|].
    destruct (style_at s') as [m'|] eqn:E'; [|now elim Hs'].
    now apply (style_at_sound s' m'). }
  apply style_block_begins_found in Hbegins. contradiction.
Qed.

Lemma strip_styles_unfold (html : jsstring) :
  strip_styles html
  = match exec style_block_re html with
    | None => html
    | Some m => m_before m ++ placeholder ++ strip_styles (m_after m)
    end.
Proof.
  unfold strip_styles.
  now rewrite RegExp_replace_unfold by (reflexivity || apply never_empty_style).
Qed.

Lemma strip_styles_clean (n : nat) : forall html, length html <= n ->
  forall a b, strip_styles html = a ++ b -> style_at b = None.
Proof.
  induction n as [|n IH]; intros html Hlen a b H.
  - destruct html; [|simpl in Hlen; lia].
    rewrite strip_styles_unfold in H. simpl in H.
    apply eq_sym, app_eq_nil in H. destruct H as [_ ->]. reflexivity.
  - rewrite strip_styles_unfold in H.
    destruct (exec style_block_re html) as [m|] eqn:E.
    + unfold exec in E.
      destruct (search (attempt style_block_re) html) as [[before m0]|] eqn:Es;
        [|discriminate].
      inversion E; subst m; clear E. cbn [m_before m_after] in H.
      apply search_sound in Es. destruct Es as (s' & Hs & Ha & Hfirst).
      rewrite attempt_style in Ha.
      assert (Hne : m_text m0 <> []) by now apply (style_at_sound s' m0).
      assert (Hs' : s' = m_text m0 ++ m_after m0).
      { rewrite <- attempt_style in Ha. now apply attempt_sound in Ha. }
      assert (Hshort : length (m_after m0) <= n).
      { rewrite Hs, Hs', !length_app in Hlen.
        destruct (m_text m0); [now elim Hne | simpl in Hlen; lia]. }
      apply app_eq_app in H. destruct H as (l & [[-> H] | [-> H]]).
      * (* the split falls inside [before] *)
        destruct l as [|x l].
        -- simpl in H. subst b.
           apply (no_block_in_placeholder [] placeholder); [reflexivity | discriminate].
        -- subst b. apply (no_block_before_placeholder (x :: l) s'); [discriminate| |].
           ++ now rewrite Ha.
           ++ rewrite <- attempt_style. apply (Hfirst a (x :: l) eq_refl). discriminate.
      * (* the split falls after [before] *)
        apply app_eq_app in H. destruct H as (l' & [[Hp H] | [Hl H]]).
        -- destruct l' as [|y l'].
           ++ simpl in H. subst b. exact (IH _ Hshort [] _ eq_refl).
           ++ subst b. apply (no_block_in_placeholder l (y :: l'));
                [exact Hp | discriminate].
        -- exact (IH _ Hshort _ _ H).
    + subst html. rewrite exec_none in E. rewrite <- attempt_style.
      now apply (E a b).
Qed.

(** X13.  The text after lines 95-97 holds no style block: no position of
    it begins with [<style], attributes, [>], and a closing [</style>]
    further on (in any case of letters).  Replacing a block by the
    placeholder never makes a new one, so applying the step twice
    changes nothing more, and from the text as it is nothing is
    extracted: the placeholders are never taken for CSS. *)
Theorem no_style_block_is_left (html : jsstring) :
  (forall a b, strip_styles html = a ++ b -> ~ style_block_begins b)
  /\ strip_styles (strip_styles html) = strip_styles html
  /\ extract (strip_styles html) = [].
Proof.
  assert (H : forall a b, strip_styles html = a ++ b -> ~ style_block_begins b).
  { intros a b Hs Hb. apply style_block_begins_found in Hb.
    now rewrite (strip_styles_clean (length html) html (le_n _) a b Hs) in Hb. }
  split; [exact H|]. split.
  - now apply strip_styles_none.
  - rewrite extract_unmarked.
    + now apply new_styles_none.
    + intros a b Hs (op & attrs & body & cl & rest & Hb & Hop & Hattrs & _ & Hcl).
      apply (H a b Hs). now exists op, attrs, body, cl, rest.
Qed.

Lemma no_style_block_is_left_witness :
  strip_styles (strip_styles demo_page) = strip_styles demo_page
  /\ extract (strip_styles demo_page) = [].
Proof.
  exact (proj2 (no_style_block_is_left demo_page)).
Defined.

(* ================================================================== *)
(** * The command *)
(* ================================================================== *)

(** ** The pages it accepts *)

Lemma check_page_accepts (page : json) :
  check_page page = Ok true <-> acceptable_page page.
Proof.
  assert (Hs : forall v, not_a_string v = false <-> exists u us, v = Some (JStr (u :: us))).
  { intros [[| | |[|u us]| |]|]; simpl; split; intros H;
      try discriminate; try (destruct H as (? & ? & H); discriminate).
    - destruct b; discriminate.
    - destruct (negb (PrimFloat.eqb x 0) && PrimFloat.eqb x x)%bool; discriminate.
    - now exists u, us.
    - reflexivity. }
  split.
  - intros H. unfold check_page in H.
    destruct (not_a_string (Get page (js "uri"))) eqn:E1;
      [destruct page; discriminate|].
    destruct (not_a_string (Get page (js "template"))) eqn:E2;
      [destruct page; discriminate|].
    apply Hs in E1, E2. destruct E1 as (u & us & E1), E2 as (t & ts & E2).
    destruct page as [| | | s | items | props]; simpl in E1, E2;
      try discriminate.
    now exists props, u, us, t, ts.
  - intros (props & u & us & t & ts & -> & E1 & E2).
    unfold check_page. simpl. rewrite E1, E2. reflexivity.
Qed.

(** What the loop of lines 64-75 ends in: it goes through when every
    page is acceptable, exits at the first page that is neither
    acceptable nor [null], and throws at a [null] that only acceptable
    pages come before. *)
Lemma check_pages_cases (pages : list json) :
  (check_pages pages = Ok true /\ Forall acceptable_page pages)
  \/ (check_pages pages = Ok false /\ ~ Forall acceptable_page pages)
  \/ (exists e pre post,
        check_pages pages = Throw e /\ pages = pre ++ JNull :: post
        /\ Forall acceptable_page pre).
Proof.
  induction pages as [|page rest IH]; simpl.
  - left. split; [reflexivity | constructor].
  - destruct (check_page page) as [[|]|e] eqn:E.
    + apply check_page_accepts in E.
      destruct IH as [[H1 H2] | [[H1 H2] | (e & pre & post & H1 & H2 & H3)]].
      * left. split; [exact H1 | now constructor].
      * right. left. split; [exact H1|]. intros HF. inversion HF; subst. contradiction.
      * right. right. exists e, (page :: pre), post. subst rest.
        split; [exact H1|]. split; [reflexivity | now constructor].
    + right. left. split; [reflexivity|]. intros HF. inversion HF; subst.
      apply check_page_accepts in H1. congruence.
    + right. right. exists e, [], rest.
      assert (page = JNull).
      { unfold check_page in E. destruct page; try reflexivity;
          destruct (not_a_string _); try discriminate;
          destruct (not_a_string _); discriminate. }
      subst page. split; [reflexivity|]. split; [reflexivity | constructor].
Qed.

(** X14.  The loop of lines 64-75 lets a list of pages through exactly
    when every element is an object whose [uri] and [template] are
    strings that are not empty; an array, a string, a number or an
    object with an empty [uri] is refused.  The pages handed to the
    pipeline then all have a [uri] and a [template] that are not
    empty, so no file is ever named [_critical.min.css] alone. *)
Theorem check_pages_accepts (pages : list json) :
  (check_pages pages = Ok true <-> Forall acceptable_page pages)
  /\ (check_pages pages = Ok true ->
      forall p, In p (map page_spec pages) -> uri p <> [] /\ template p <> []).
Proof.
  assert (H : check_pages pages = Ok true <-> Forall acceptable_page pages).
  { destruct (check_pages_cases pages)
      as [[H1 H2] | [[H1 H2] | (e & pre & post & H1 & H2 & H3)]];
      rewrite H1; split; intros H; try discriminate; try reflexivity;
      try assumption; try contradiction.
    exfalso. subst pages. apply Forall_app in H. destruct H as [_ H].
    inversion H as [|? ? Hn _]; subst.
    destruct Hn as (props & ? & ? & ? & ? & Hn & _). discriminate. }
  split; [exact H|].
  intros Hok p Hin. apply H in Hok.
  apply in_map_iff in Hin. destruct Hin as (page & <- & Hin).
  rewrite Forall_forall in Hok.
  destruct (Hok page Hin) as (props & u & us & t & ts & -> & E1 & E2).
  unfold page_spec. simpl. rewrite E1, E2. simpl. split; discriminate.
Qed.

Lemma check_pages_accepts_witness :
  uri (Page (js "/") (js "index")) <> [] /\ template (Page (js "/") (js "index")) <> [].
Proof.
  apply (proj2 (check_pages_accepts [json_page "/" "index"]) eq_refl).
  left. reflexivity.
Defined.

(** ** The base URL *)

Lemma greedy_star_slashes (k : nat) : forall n,
  greedy_star (CChar 47%N) (term_matcher [EndOfInput]) (repeat 47%N k) n
  = Some (n + k).
Proof.
  induction k as [|k IH]; intros n; simpl.
  - f_equal. lia.
  - rewrite IH. f_equal. lia.
Qed.

Lemma greedy_star_stops (k : nat) (u : N) (rest : jsstring) : forall n,
  u <> 47%N ->
  greedy_star (CChar 47%N) (term_matcher [EndOfInput]) (repeat 47%N k ++ u :: rest) n
  = None.
Proof.
  intros n Hu. revert n. induction k as [|k IH]; intros n.
  - cbn [repeat app greedy_star cset_matches char_matches].
    now rewrite (proj2 (N.eqb_neq 47 u)) by (intros E; now apply Hu).
  - cbn [repeat app greedy_star cset_matches char_matches].
    rewrite N.eqb_refl, IH. reflexivity.
Qed.

(** A text is made of slashes, or has a first unit that is not one. *)
Lemma slashes_or_not (x : jsstring) :
  x = repeat 47%N (length x)
  \/ exists j v rest, x = repeat 47%N j ++ v :: rest /\ v <> 47%N.
Proof.
  induction x as [|u x IH]; [now left|].
  destruct (N.eq_dec u 47) as [->|Hu].
  - destruct IH as [IH | (j & v & rest & IH & Hv)].
    + left. simpl. now rewrite <- IH.
    + right. exists (S j), v, rest. simpl. now rewrite <- IH.
  - right. now exists 0, u, x.
Qed.

Lemma trailing_slashes_at_slashes (k : nat) :
  trailing_slashes_at (repeat 47%N (S k)) = Some [].
Proof.
  unfold trailing_slashes_at, trailing_slashes_re.
  cbn [repeat term_matcher cset_matches char_matches]. rewrite N.eqb_refl.
  rewrite greedy_star_slashes. cbn [option_map]. f_equal.
  change (47%N :: repeat 47%N k) with (repeat 47%N (S k)).
  apply skipn_all2. rewrite repeat_length. lia.
Qed.

Lemma trailing_slashes_at_none (x : jsstring) (u : N) (rest : jsstring) :
  u <> 47%N -> trailing_slashes_at (x ++ u :: rest) = None.
Proof.
  intros Hu.
  assert (H : exists j v r, x ++ u :: rest = repeat 47%N j ++ v :: r /\ v <> 47%N).
  { destruct (slashes_or_not x) as [Hx | (j & v & r & Hx & Hv)].
    - exists (length x), u, rest. now rewrite <- Hx.
    - exists j, v, (r ++ u :: rest). rewrite Hx, <- app_assoc. now split. }
  destruct H as (j & v & r & -> & Hv).
  unfold trailing_slashes_at, trailing_slashes_re.
  destruct j as [|j].
  - cbn [repeat app term_matcher cset_matches char_matches].
    now rewrite (proj2 (N.eqb_neq 47 v)) by (intros E; now apply Hv).
  - cbn [repeat app term_matcher cset_matches char_matches]. rewrite N.eqb_refl.
    now rewrite greedy_star_stops.
Qed.

Lemma endsWith_slash_last (x : jsstring) (u : N) :
  endsWith [47%N] (x ++ [u]) = false -> u <> 47%N.
Proof.
  unfold endsWith. rewrite rev_app_distr. simpl. unfold unit_eqb.
  intros H E. subst u. discriminate.
Qed.

Lemma normalizedUrl_of_slashes (s : jsstring) (k : nat) :
  endsWith (js "/") s = false ->
  normalizedUrl (s ++ repeat 47%N k) = s.
Proof.
  change (js "/") with [47%N]. intros Hs.
  assert (Hsuffix : forall b1 b2 tail, s = b1 ++ b2 -> b2 <> [] ->
            trailing_slashes_at (b2 ++ tail) = None).
  { intros b1 b2 tail Hb Hne.
    destruct (exists_last Hne) as (b' & u & ->).
    rewrite <- app_assoc. simpl. apply trailing_slashes_at_none.
    apply (endsWith_slash_last (b1 ++ b')). now rewrite <- app_assoc, <- Hb. }
  unfold normalizedUrl. destruct k as [|k].
  - simpl. rewrite app_nil_r.
    replace (search trailing_slashes_at s) with (@None (jsstring * jsstring));
      [reflexivity|].
    symmetry. apply search_none. intros b s' Hb.
    destruct s' as [|c s']; [reflexivity|].
    rewrite <- (app_nil_r (c :: s')). now apply (Hsuffix b).
  - rewrite (search_complete trailing_slashes_at s (repeat 47%N (S k)) []).
    + now rewrite app_nil_r.
    + apply trailing_slashes_at_slashes.
    + intros b1 b2 Hb Hne. now apply (Hsuffix b1).
Qed.

(** Every text is a text that does not end in a slash, followed by
    slashes. *)
Lemma ends_in_slashes (x : jsstring) :
  exists s k, x = s ++ repeat 47%N k /\ endsWith (js "/") s = false.
Proof.
  induction x as [|u x IH] using rev_ind.
  - now exists [], 0.
  - destruct (N.eq_dec u 47) as [->|Hu].
    + destruct IH as (s & k & -> & Hs). exists s, (S k). split; [|exact Hs].
      rewrite <- app_assoc. f_equal. change [47%N] with (repeat 47%N 1).
      rewrite <- repeat_app. f_equal. lia.
    + exists (x ++ [u]), 0. split; [now rewrite app_nil_r|].
      unfold endsWith. rewrite rev_app_distr.
      cbn [rev app startsWith js map list_ascii_of_string]. unfold unit_eqb.
      change (N_of_ascii "/") with 47%N.
      now rewrite (proj2 (N.eqb_neq 47 u)) by (intros E; now apply Hu).
Qed.

(** X15.  Line 92 removes the slashes a base URL ends in, all of them
    and nothing else: the normalised URL does not end in a slash and the
    base URL is the normalised one followed by slashes only.  So one
    more slash at the end of [CRITICAL_URL] changes nothing,
    normalising twice changes nothing, and a value made of slashes
    only, which passes the test of line 81, gives the empty base URL. *)
Theorem normalizedUrl_drops_the_slashes (baseUrl : jsstring) :
  endsWith (js "/") (normalizedUrl baseUrl) = false
  /\ (exists k, baseUrl = normalizedUrl baseUrl ++ repeat 47%N k)
  /\ normalizedUrl (baseUrl ++ js "/") = normalizedUrl baseUrl
  /\ normalizedUrl (normalizedUrl baseUrl) = normalizedUrl baseUrl
  /\ (forall k, baseUrl = repeat 47%N k -> normalizedUrl baseUrl = []).
Proof.
  destruct (ends_in_slashes baseUrl) as (s & k & -> & Hs).
  rewrite (normalizedUrl_of_slashes s k Hs).
  split; [exact Hs|]. split; [now exists k|]. split; [|split].
  - rewrite <- app_assoc. change (js "/") with (repeat 47%N 1).
    rewrite <- repeat_app. now apply normalizedUrl_of_slashes.
  - rewrite <- (app_nil_r s) at 1. now apply (normalizedUrl_of_slashes s 0).
  - intros j Hj. destruct s as [|u s _] using rev_ind; [reflexivity|]. exfalso.
    assert (Hin : In u (repeat 47%N j)).
    { rewrite <- Hj. rewrite <- app_assoc. apply in_or_app. right.
      now left. }
    apply repeat_spec in Hin. subst u.
    unfold endsWith in Hs. rewrite rev_app_distr in Hs. discriminate.
Qed.

Lemma normalizedUrl_drops_the_slashes_witness :
  normalizedUrl (js "///") = [].
Proof.
  exact (proj2 (proj2 (proj2 (proj2 (normalizedUrl_drops_the_slashes (js "///")))))
           3 eq_refl).
Defined.

(** ** The command as a whole *)

Lemma given_once_obj_set (k : jsstring) (v : json) (o : object) :
  given_once o -> given_once (obj_set k v o).
Proof.
  unfold given_once.
  assert (Hkeys : map fst (obj_set k v o) = map fst o
                  \/ (~ In k (map fst o) /\ map fst (obj_set k v o) = map fst o ++ [k])).
  { induction o as [|[k' x] o IH]; simpl.
    - right. split; [intros [] | reflexivity].
    - destruct (str_eqb k' k) eqn:E; simpl.
      + now left.
      + destruct IH as [IH | [Hn IH]].
        * left. now rewrite IH.
        * right. split; [|now rewrite IH].
          intros [H|H]; [|contradiction].
          subst k'. now rewrite str_eqb_refl in E. }
  intros Hnd. destruct Hkeys as [-> | [Hn ->]]; [exact Hnd|].
  apply NoDup_app; [exact Hnd | constructor; [intros [] | constructor] |].
  intros x Hx [<-|[]]. contradiction.
Qed.

Lemma given_once_obj_spread (extra : object) : forall base,
  given_once base -> given_once (obj_spread base extra).
Proof.
  unfold obj_spread. induction extra as [|[k v] extra IH]; intros base H; [exact H|].
  simpl. apply IH. now apply given_once_obj_set.
Qed.

Section CommandFacts.

Context {W : Type} (host : Host W) (shell : Shell W).

(** X16.  The options the engine is built with when the pipeline is run by
    the command.  There are three sources, in this order of precedence:
    an option the configuration file gives under [beasties]; the default
    of [defaults.beasties] ([reduceInlineStyles], [preload], [fonts],
    [logLevel]); and, for [path] and [publicPath], the values computed
    from the working directory, [publicDir] and [publicPath]. *)
Theorem engine_options_precedence (cwd url : jsstring) (userConfig : UserConfig.t)
    (pages : list json) (key : jsstring) :
  let given := or_default (UserConfig.beasties userConfig) [] in
  let config := merged_config host cwd url userConfig pages in
  given_once given ->
  assoc key (beasties_options host config)
  = match assoc key given with
    | Some v => Some v
    | None =>
        match assoc key defaults.beasties with
        | Some v => Some v
        | None => assoc key (computed_options host config)
        end
    end.
Proof.
  intros given config Hg. unfold beasties_options.
  fold (computed_options host config).
  rewrite assoc_obj_spread.
  - unfold config at 1. cbn [beasties merged_config]. fold given.
    rewrite (assoc_obj_spread key given Hg).
    destruct (assoc key given); reflexivity.
  - unfold config. cbn [beasties merged_config].
    apply given_once_obj_spread. unfold given_once.
    vm_compute. repeat constructor; simpl; intuition discriminate.
Qed.

(** The command, case by case. *)
Lemma main_unfold (st : state W) :
  let got := imported host shell (world st) in
  let st1 := State (snd got) (trace st) in
  main host shell st
  = match fst got with
    | Ok (AnObject userConfig) =>
        match UserConfig.pages userConfig with
        | Some (JArr (first :: others)) =>
            match check_pages (first :: others) with
            | Ok true =>
                match sh_env shell (js "CRITICAL_URL") (snd got) with
                | Some (u :: rest) =>
                    run_and_exit host
                      (merged_config host (sh_cwd shell (sh_dotenv shell (world st)))
                         (normalizedUrl (u :: rest)) userConfig (first :: others))
                      st1
                | _ => (Ok 1%N, st1)
                end
            | Ok false => (Ok 1%N, st1)
            | Throw e => (Throw e, st1)
            end
        | _ => (Ok 1%N, st1)
        end
    | _ => (Ok 1%N, st1)
    end.
Proof.
  intros got st1. unfold st1, got, imported.
  unfold main, dotenv, process_cwd, import_config, process_env.
  unfold bind, try_catch, ret, of_outcome. cbn [world trace].
  destruct (sh_import shell _ (sh_dotenv shell (world st))) as [[[|userConfig]|e] w1];
    cbn [fst snd world trace]; try reflexivity.
  destruct (UserConfig.pages userConfig) as [[| | | |[|first others]|]|]; try reflexivity.
  destruct (check_pages (first :: others)) as [[|]|e]; cbn [negb world trace];
    try reflexivity.
  destruct (sh_env shell _ w1) as [[|u rest]|]; reflexivity.
Qed.

(** What the last lines of the command end in. *)
Lemma run_and_exit_cases (config : Config) (st : state W) :
  exists code st',
    run_and_exit host config st = (Ok code, st')
    /\ trace st' <> trace st
    /\ (code = 1%N
        \/ (code = 0%N
            /\ exists summary,
                 generateCriticalCss host config st = (Ok summary, st')
                 /\ failed summary = 0)).
Proof.
  unfold run_and_exit, try_catch, bind, ret.
  destruct (generateCriticalCss_calls host config st) as (r & st' & E & Hcases).
  rewrite E.
  assert (Ht : trace st' <> trace st).
  { assert (Hgrow : forall l : list event, l <> [] -> trace st ++ l <> trace st).
    { intros l Hl Heq. apply Hl.
      apply (app_inv_head (trace st)). now rewrite app_nil_r. }
    destruct Hcases as [(e & _ & _ & ->) | [(_ & ->) | (c & reads & runs & _ & -> & _)]];
      apply Hgrow; discriminate. }
  destruct r as [summary|e].
  - destruct (0 <? failed summary) eqn:Ef.
    + exists 1%N, st'. repeat split; [exact Ht | now left].
    + exists 0%N, st'. repeat split; [exact Ht|]. right. split; [reflexivity|].
      exists summary. split; [reflexivity|]. apply Nat.ltb_ge in Ef. lia.
  - exists 1%N, st'. repeat split; [exact Ht | now left].
Qed.

(** From a list that went through the loop of lines 64-75 to the set-up. *)
Lemma set_up_intro (w : W) (userConfig : UserConfig.t) (items : list json)
    (url : jsstring) :
  fst (imported host shell w) = Ok (AnObject userConfig) ->
  UserConfig.pages userConfig = Some (JArr items) ->
  items <> [] ->
  check_pages items = Ok true ->
  sh_env shell (js "CRITICAL_URL") (snd (imported host shell w)) = Some url ->
  url <> [] ->
  set_up host shell w
    (merged_config host (sh_cwd shell (sh_dotenv shell w)) (normalizedUrl url)
       userConfig items).
Proof.
  intros H1 H2 H3 H4 H5 H6. exists userConfig, items, url.
  repeat split; try assumption.
  destruct (check_pages_cases items)
    as [[_ HF] | [[Hc _] | (e & pre & post & Hc & _)]]; [exact HF | congruence..].
Qed.

(** Once set up, the command is its last lines. *)
Lemma main_set_up (st : state W) (config : Config) :
  set_up host shell (world st) config ->
  main host shell st
  = run_and_exit host config
      (State (snd (imported host shell (world st))) (trace st)).
Proof.
  intros (userConfig & items & url & Hi & Hp & Hne & Hall & He & Hu & ->).
  rewrite main_unfold, Hi, Hp.
  destruct items as [|first others]; [now elim Hne|].
  destruct (check_pages_cases (first :: others))
    as [[Hc _] | [[_ Hn] | (e & pre & post & _ & Hsplit & _)]].
  - rewrite Hc, He. destruct url as [|u rest]; [now elim Hu | reflexivity].
  - contradiction.
  - exfalso. rewrite Hsplit in Hall. apply Forall_app in Hall. destruct Hall as [_ Hall].
    inversion Hall as [|? ? Hnull _]; subst.
    destruct Hnull as (props & ? & ? & ? & ? & Hnull & _). discriminate.
Qed.

(** X17.  The command calls the pipeline, and so makes a directory, reads
    a file or fetches a page, exactly when it is set up: the
    configuration file exports an object, [pages] is a list that is not
    empty and holds acceptable pages only, and [CRITICAL_URL] is set and
    not empty.  In every other case it ends without any of these
    calls. *)
Theorem nothing_is_touched_without_set_up (st : state W) :
  trace (snd (main host shell st)) <> trace st
  <-> exists config, set_up host shell (world st) config.
Proof.
  split.
  - rewrite main_unfold.
    destruct (fst (imported host shell (world st))) as [[|userConfig]|e] eqn:Ei;
      try (intros H; now elim H).
    destruct (UserConfig.pages userConfig) as [[| | | |[|first others]|]|] eqn:Ep;
      try (intros H; now elim H).
    destruct (check_pages (first :: others)) as [[|]|e] eqn:Ec;
      try (intros H; now elim H).
    destruct (sh_env shell _ _) as [[|u rest]|] eqn:Ee; try (intros H; now elim H).
    intros _. eexists.
    apply (set_up_intro (world st) userConfig (first :: others) (u :: rest));
      (assumption || discriminate).
  - intros (config & Hset). rewrite (main_set_up st config Hset).
    destruct (run_and_exit_cases config
                (State (snd (imported host shell (world st))) (trace st)))
      as (code & st' & E & Ht & _).
    rewrite E. exact Ht.
Qed.

(** X18.  The exit status of the command is 0 or 1.  It is 0 exactly after
    a run of the pipeline, on the configuration the command was set up
    for, that returned a summary without a failure; and then every
    configured page, of which there is at least one, has a record of
    success and its file was written. *)
Theorem exit_status_zero_means_every_page_written (st st' : state W) :
  let st1 := State (snd (imported host shell (world st))) (trace st) in
  (forall code, main host shell st = (Ok code, st') -> code = 0%N \/ code = 1%N)
  /\ (main host shell st = (Ok 0%N, st')
      <-> exists config summary,
            set_up host shell (world st) config
            /\ generateCriticalCss host config st1 = (Ok summary, st')
            /\ failed summary = 0)
  /\ (forall config summary,
        set_up host shell (world st) config ->
        generateCriticalCss host config st1 = (Ok summary, st') ->
        failed summary = 0 ->
        pages config <> []
        /\ successful summary = length (pages config)
        /\ forall p, In p (pages config) ->
             exists content,
               In (path_join host [outputDir config;
                                   template p ++ js "_critical.min.css"], content)
                  (written (trace st'))).
Proof.
  intros st1.
  assert (Hexit : forall code, main host shell st = (Ok code, st') ->
            code = 1%N
            \/ (code = 0%N
                /\ exists config summary,
                     set_up host shell (world st) config
                     /\ generateCriticalCss host config st1 = (Ok summary, st')
                     /\ failed summary = 0)).
  { intros code. rewrite main_unfold.
    destruct (fst (imported host shell (world st))) as [[|userConfig]|e] eqn:Ei;
      try (intros H; inversion H; now left).
    destruct (UserConfig.pages userConfig) as [[| | | |[|first others]|]|] eqn:Ep;
      try (intros H; inversion H; now left).
    destruct (check_pages (first :: others)) as [[|]|e] eqn:Ec;
      try (intros H; inversion H; now left).
    destruct (sh_env shell _ _) as [[|u rest]|] eqn:Ee;
      try (intros H; inversion H; now left).
    set (config := merged_config host _ _ userConfig (first :: others)).
    destruct (run_and_exit_cases config st1)
      as (code' & st2 & E & _ & [-> | [-> (summary & Hrun & Hfailed)]]);
      fold st1; rewrite E; intros H; inversion H; subst; [now left|].
    right. split; [reflexivity|]. exists config, summary.
    split; [|now split].
    apply (set_up_intro (world st) userConfig (first :: others) (u :: rest));
      (assumption || discriminate). }
  split; [|split].
  - intros code H. destruct (Hexit code H) as [-> | [-> _]]; [now right | now left].
  - split.
    + intros H. destruct (Hexit 0%N H) as [H1 | [_ H0]]; [discriminate | exact H0].
    + intros (config & summary & Hset & Hrun & Hfailed).
      rewrite (main_set_up st config Hset). fold st1.
      unfold run_and_exit, try_catch, bind, ret. rewrite Hrun, Hfailed. reflexivity.
  - intros config summary Hset Hrun Hfailed.
    destruct (summary_shape host config st1 Hrun) as (Hpages & Hs & Hf).
    assert (Hall : forall r, In r (results summary) -> success r = true).
    { intros r Hr. destruct (success r) eqn:Es; [reflexivity|]. exfalso.
      assert (Hin : In r (filter (fun r => negb (success r)) (results summary)))
        by (apply filter_In; split; [exact Hr | now rewrite Es]).
      rewrite Hfailed in Hf. symmetry in Hf. apply length_zero_iff_nil in Hf.
      now rewrite Hf in Hin. }
    split; [|split].
    + destruct Hset as (userConfig & items & url & _ & _ & Hne & _ & _ & _ & ->).
      cbn [pages merged_config]. intros Hnil. apply map_eq_nil in Hnil. contradiction.
    + rewrite Hs, <- Hpages, length_map. f_equal.
      apply forallb_filter_id. apply forallb_forall. exact Hall.
    + intros p Hp. rewrite <- Hpages in Hp. apply in_map_iff in Hp.
      destruct Hp as (r & <- & Hr).
      destruct (success_file host config st1 st' summary r Hrun Hr (Hall r Hr))
        as (content & Hw & _).
      now exists content.
Qed.

(** X19.  No failure of the import or of the pipeline escapes the
    command.  When the configuration file cannot be imported, the
    command ends in exit status 1 and the pipeline is not called.  Once
    the command is set up, an error the pipeline throws (the output
    directory cannot be made, no CSS file is found) ends in exit status
    1, and so does a summary that counts a failed page. *)
Theorem failures_end_in_exit_status_one (st : state W) :
  let st1 := State (snd (imported host shell (world st))) (trace st) in
  (forall e, fst (imported host shell (world st)) = Throw e ->
     main host shell st = (Ok 1%N, st1))
  /\ (forall config e st',
        set_up host shell (world st) config ->
        generateCriticalCss host config st1 = (Throw e, st') ->
        main host shell st = (Ok 1%N, st'))
  /\ (forall config summary st',
        set_up host shell (world st) config ->
        generateCriticalCss host config st1 = (Ok summary, st') ->
        0 < failed summary ->
        main host shell st = (Ok 1%N, st')).
Proof.
  intros st1. split; [|split].
  - intros e He. rewrite main_unfold, He. reflexivity.
  - intros config e st' Hset Hrun. rewrite (main_set_up st config Hset).
    fold st1. unfold run_and_exit, try_catch, bind, ret. now rewrite Hrun.
  - intros config summary st' Hset Hrun Hfailed.
    rewrite (main_set_up st config Hset).
    fold st1. unfold run_and_exit, try_catch, bind, ret. rewrite Hrun.
    apply Nat.ltb_lt in Hfailed. now rewrite Hfailed.
Qed.

End CommandFacts.

Lemma engine_options_precedence_witness :
  assoc (js "preload") (beasties_options (scenario_host demo) one_page_config)
  = Some (JStr (js "swap"))
  /\ assoc (js "fonts") (beasties_options (scenario_host demo) one_page_config)
     = Some (JBool true)
  /\ assoc (js "publicPath") (beasties_options (scenario_host demo) one_page_config)
     = Some (JStr (js "/")).
Proof.
  assert (H : given_once (or_default (UserConfig.beasties one_page_user_config) [])).
  { repeat constructor; simpl; intuition discriminate. }
  split; [|split].
  - exact (engine_options_precedence (scenario_host demo) (js "/site")
             (js "https://site.test") one_page_user_config [json_page "/" "index"]
             (js "preload") H).
  - exact (engine_options_precedence (scenario_host demo) (js "/site")
             (js "https://site.test") one_page_user_config [json_page "/" "index"]
             (js "fonts") H).
  - exact (engine_options_precedence (scenario_host demo) (js "/site")
             (js "https://site.test") one_page_user_config [json_page "/" "index"]
             (js "publicPath") H).
Defined.

Lemma nothing_is_touched_without_set_up_witness :
  exists config,
    set_up (scenario_host demo) (demo_shell (AnObject demo_user_config) demo_url) tt config.
Proof.
  apply (proj1 (nothing_is_touched_without_set_up (scenario_host demo)
                  (demo_shell (AnObject demo_user_config) demo_url) (State tt []))).
  vm_compute. discriminate.
Defined.

Lemma exit_status_zero_means_every_page_written_witness :
  exists config summary,
    pages config = [Page (js "/") (js "index")]
    /\ successful summary = 1
    /\ failed summary = 0.
Proof.
  assert (Hmain : main (scenario_host demo)
                    (demo_shell (AnObject one_page_user_config) demo_url) (State tt [])
                  = (Ok 0%N, one_page_final)) by (vm_compute; reflexivity).
  destruct (exit_status_zero_means_every_page_written (scenario_host demo)
              (demo_shell (AnObject one_page_user_config) demo_url)
              (State tt []) one_page_final)
    as (_ & Hzero & Hfiles).
  destruct (proj1 Hzero Hmain) as (config & summary & Hset & Hrun & Hf).
  destruct (Hfiles config summary Hset Hrun Hf) as (_ & Hs & _).
  exists config, summary.
  destruct Hset as (userConfig & items & url & Hi & Hp & _ & _ & _ & _ & ->).
  inversion Hi; subst userConfig. inversion Hp; subst items.
  split; [reflexivity|]. split; [exact Hs | exact Hf].
Defined.

Lemma failures_end_in_exit_status_one_witness :
  main (scenario_host nothing_built) (demo_shell (AnObject demo_user_config) demo_url)
    (State tt [])
  = (Ok 1%N,
     State tt [EvMkdir (js "/site/web/dist/criticalcss");
               EvReadFile (js "/site/web/dist/.vite/manifest.json");
               EvReaddir (js "/site/web/dist/assets")]).
Proof.
  apply (proj1 (proj2 (failures_end_in_exit_status_one (scenario_host nothing_built)
                         (demo_shell (AnObject demo_user_config) demo_url)
                         (State tt [])))
           (merged_config (scenario_host nothing_built) (js "/site")
              (js "https://site.test") demo_user_config
              [json_page "/" "index"; json_page "/about" "about/index";
               json_page "/missing" "missing"])
           no_css_message).
  - exists demo_user_config,
      [json_page "/" "index"; json_page "/about" "about/index";
       json_page "/missing" "missing"],
      (js "https://site.test/").
    split; [reflexivity|]. split; [reflexivity|]. split; [discriminate|].
    split.
    + repeat constructor; eexists _, _, _, _, _; (split; [reflexivity|]);
        split; reflexivity.
    + split; [reflexivity|]. split; [discriminate|]. vm_compute. reflexivity.
  - vm_compute. reflexivity.
Defined.

(* ================================================================== *)
(** * The size of a record *)
(* ================================================================== *)

Lemma digits_value_acc (d : Decimal.uint) : forall p : positive,
  digits_value (N.pos p) (js (NilEmpty.string_of_uint d))
  = N.pos (Pos.of_uint_acc d p).
Proof.
  induction d; intros p; cbn [NilEmpty.string_of_uint Pos.of_uint_acc];
    try reflexivity;
    unfold js; cbn [list_ascii_of_string map digits_value];
    fold (js (NilEmpty.string_of_uint d));
    match goal with
    | |- digits_value ?a _ = _ =>
        match goal with
        | |- _ = N.pos (Pos.of_uint_acc _ ?q) =>
            replace a with (N.pos q) by (vm_compute N_of_ascii; lia)
        end
    end; apply IHd.
Qed.

(** Reading the digits [Number::toString] prints gives the number
    back. *)
Lemma digits_value_nat_to_string (n : N) : digits_value 0 (nat_to_string n) = n.
Proof.
  assert (H : forall d, digits_value 0 (js (NilEmpty.string_of_uint d)) = N.of_uint d).
  { induction d; cbn [NilEmpty.string_of_uint]; try reflexivity;
      unfold js; cbn [list_ascii_of_string map digits_value];
      fold (js (NilEmpty.string_of_uint d));
      try (exact IHd); apply digits_value_acc. }
  unfold nat_to_string. rewrite <- (DecimalN.Unsigned.of_to n) at 2.
  destruct (N.to_uint n) eqn:E; try (apply (H (N.to_uint n)) || (rewrite <- E; apply H));
    try reflexivity.
  all: unfold NilZero.string_of_uint; apply H.
Qed.

Lemma nat_to_string_digits (n : N) :
  nat_to_string n <> [] /\ forallb is_digit (nat_to_string n) = true.
Proof.
  assert (H : forall d, forallb is_digit (js (NilEmpty.string_of_uint d)) = true).
  { induction d; cbn [NilEmpty.string_of_uint]; try reflexivity;
      unfold js; cbn [list_ascii_of_string map forallb];
      fold (js (NilEmpty.string_of_uint d)); rewrite IHd; reflexivity. }
  unfold nat_to_string.
  destruct (N.to_uint n) as [|d|d|d|d|d|d|d|d|d|d]; split;
    try discriminate; try reflexivity;
    unfold NilZero.string_of_uint; apply H.
Qed.

(** The two digits after the point. *)
Lemma cents_of (frac : N) :
  (frac < 100)%N ->
  let cents := (if (frac <? 10)%N then js "0" else []) ++ nat_to_string frac in
  length cents = 2 /\ forallb is_digit cents = true /\ digits_value 0 cents = frac.
Proof.
  intros Hlt cents.
  assert (Hall : forallb (fun i =>
            let f := N.of_nat i in
            (length ((if (f <? 10)%N then js "0" else []) ++ nat_to_string f) =? 2)%nat)
            (seq 0 100) = true) by (vm_compute; reflexivity).
  rewrite forallb_forall in Hall.
  specialize (Hall (N.to_nat frac)). rewrite N2Nat.id in Hall.
  split; [|split].
  - apply Nat.eqb_eq, Hall, in_seq. lia.
  - unfold cents. rewrite forallb_app, (proj2 (nat_to_string_digits frac)).
    destruct (frac <? 10)%N; reflexivity.
  - unfold cents. destruct (frac <? 10)%N; apply digits_value_nat_to_string.
Qed.

(** X20.  The [size] of a record (line 134) is the number of bytes
    divided by 1024 and rounded to the nearest hundredth, upwards when
    it lies half-way: it is printed with at least one digit before the
    point and exactly two after it, and the number of hundredths it
    shows differs from [100 * n / 1024] by a half at most.  A text of
    five bytes or fewer is reported as [0.00]. *)
Theorem size_is_rounded_kilobytes (n : N) :
  exists whole cents,
    kb_toFixed2 n = whole ++ js "." ++ cents
    /\ whole <> [] /\ forallb is_digit whole = true
    /\ length cents = 2 /\ forallb is_digit cents = true
    /\ (let hundredths := 100 * digits_value 0 whole + digits_value 0 cents in
        2048 * hundredths <= 200 * n + 1024 < 2048 * (hundredths + 1))%N
    /\ ((n <= 5)%N -> kb_toFixed2 n = js "0.00").
Proof.
  assert (Hsmall : (n <= 5)%N -> kb_toFixed2 n = js "0.00").
  { intros H.
    assert (Hn : n = 0%N \/ n = 1%N \/ n = 2%N \/ n = 3%N \/ n = 4%N \/ n = 5%N) by lia.
    destruct Hn as [->|[->|[->|[->|[->| ->]]]]]; reflexivity. }
  unfold kb_toFixed2 at 1.
  set (k := ((200 * n + 1024) / 2048)%N).
  assert (Hfrac : (k mod 100 < 100)%N) by (apply N.mod_lt; discriminate).
  destruct (cents_of (k mod 100) Hfrac) as (Hlen & Hdig & Hval).
  destruct (nat_to_string_digits (k / 100)) as [Hne Hw].
  exists (nat_to_string (k / 100)),
         ((if (k mod 100 <? 10)%N then js "0" else []) ++ nat_to_string (k mod 100)).
  split; [reflexivity|]. split; [exact Hne|]. split; [exact Hw|].
  split; [exact Hlen|]. split; [exact Hdig|].
  split; [|exact Hsmall].
  cbv zeta. rewrite Hval, digits_value_nat_to_string.
  rewrite <- (N.div_mod k 100) by discriminate. unfold k.
  split.
  - apply N.Div0.mul_div_le.
  - rewrite N.add_1_r. apply N.mul_succ_div_gt. discriminate.
Qed.

Lemma size_is_rounded_kilobytes_witness : kb_toFixed2 5 = js "0.00".
Proof.
  destruct (size_is_rounded_kilobytes 5) as (whole & cents & _ & _ & _ & _ & _ & _ & H).
  apply H. apply N.leb_le. reflexivity.
Defined.
